(** * To-do list: Task Store, recycle bin and calendar

    A shallow embedding of the parts of the application that take part in
    the soft-delete life cycle and the calendar view:

    - the back end's in-memory model [Todo] and its REST controller
      (models/todo.js, controllers/todoController.js);
    - the browser-side [Storage] module (frontend/js/storage.js), which
      talks to the back end with [fetch] and keeps the recycle bin in
      [localStorage], first with a [localStorage] that works and then,
      in [Faulty], with one that can throw;
    - [Calendar.generateCalendar], with the month navigation around it
      (frontend/js/calendar.js).

    JavaScript objects are finite maps from property names to values, the
    two stores and the clock are fields of an explicit [World], and the
    functions of the program run in a state-and-exception monad over it. *)

From Stdlib Require Import ZArith Lia String Ascii Decimal DecimalString
  Hexadecimal DecimalPos DecimalZ.
From stdpp Require Import base option list list_numbers gmap strings sorting.

Local Open Scope string_scope.
Local Open Scope list_scope.
Local Open Scope Z_scope.

(** ** JavaScript values and objects *)

(** The values that occur in a task: [null], booleans, numbers and
    strings.  Numbers are the integers (ids, time values); [undefined] is
    the absence of a property, so a property read is a map lookup. *)
Inductive value : Type :=
  | VNull
  | VBool (b : bool)
  | VNum (n : Z)
  | VStr (s : string).

#[global] Instance value_eq_dec : EqDecision value.
Proof. solve_decision. Defined.

(** A task object: [{ id: 1, title: 'a', ... }]. *)
Abbreviation obj := (gmap string value).

(** ToBoolean, on a property read ([None] is [undefined]). *)
Definition truthy (v : option value) : bool :=
  match v with
  | None => false
  | Some VNull => false
  | Some (VBool b) => b
  | Some (VNum n) => negb (n =? 0)
  | Some (VStr s) => negb (String.eqb s "")
  end.

(** [a === b] on property reads. *)
Definition strict_eq (a b : option value) : bool := bool_decide (a = b).

(** [{...a, ...b}]: the properties of [b] win. *)
Definition spread (a b : obj) : obj := b ∪ a.

(** [arr.find(p)] and [arr.findIndex(p)]; [None] stands for [undefined]
    and for [-1]. *)
Fixpoint find {A} (p : A → bool) (arr : list A) : option A :=
  match arr with
  | [] => None
  | x :: rest => if p x then Some x else find p rest
  end.

Fixpoint findIndex {A} (p : A → bool) (arr : list A) : option nat :=
  match arr with
  | [] => None
  | x :: rest => if p x then Some O else S <$> findIndex p rest
  end.

(** [arr.splice(i, 1)]. *)
Definition splice1 {A} (i : nat) (arr : list A) : list A := delete i arr.

(** [arr.filter(p)]. *)
Definition js_filter {A} (p : A → bool) (arr : list A) : list A :=
  List.filter p arr.

(** ** Numbers and strings *)

(** [String(n)] for an integer [n]. *)
Definition String_of_num (n : Z) : string :=
  NilZero.string_of_int (Z.to_int n).

(** ToString, as a template literal applies it. *)
Definition ToString (v : value) : string :=
  match v with
  | VNull => "null"
  | VBool true => "true"
  | VBool false => "false"
  | VNum n => String_of_num n
  | VStr s => s
  end.

Definition is_ws (a : ascii) : bool :=
  let n := nat_of_ascii a in
  ((9 <=? n) && (n <=? 13))%nat || (n =? 32)%nat.

Fixpoint skip_ws (s : string) : string :=
  match s with
  | String a rest => if is_ws a then skip_ws rest else s
  | EmptyString => s
  end.

Definition dec_digit (a : ascii) : option (Decimal.uint → Decimal.uint) :=
  match a with
  | "0" => Some Decimal.D0 | "1" => Some Decimal.D1 | "2" => Some Decimal.D2
  | "3" => Some Decimal.D3 | "4" => Some Decimal.D4 | "5" => Some Decimal.D5
  | "6" => Some Decimal.D6 | "7" => Some Decimal.D7 | "8" => Some Decimal.D8
  | "9" => Some Decimal.D9 | _ => None
  end%char.

Definition hex_digit (a : ascii) : option (Hexadecimal.uint → Hexadecimal.uint) :=
  match a with
  | "0" => Some Hexadecimal.D0 | "1" => Some Hexadecimal.D1
  | "2" => Some Hexadecimal.D2 | "3" => Some Hexadecimal.D3
  | "4" => Some Hexadecimal.D4 | "5" => Some Hexadecimal.D5
  | "6" => Some Hexadecimal.D6 | "7" => Some Hexadecimal.D7
  | "8" => Some Hexadecimal.D8 | "9" => Some Hexadecimal.D9
  | "a" | "A" => Some Hexadecimal.Da | "b" | "B" => Some Hexadecimal.Db
  | "c" | "C" => Some Hexadecimal.Dc | "d" | "D" => Some Hexadecimal.Dd
  | "e" | "E" => Some Hexadecimal.De | "f" | "F" => Some Hexadecimal.Df
  | _ => None
  end%char.

(** The longest prefix of digits, most significant digit first. *)
Fixpoint dec_prefix (s : string) : Decimal.uint :=
  match s with
  | String a rest =>
      match dec_digit a with
      | Some d => d (dec_prefix rest)
      | None => Decimal.Nil
      end
  | EmptyString => Decimal.Nil
  end.

Fixpoint hex_prefix (s : string) : Hexadecimal.uint :=
  match s with
  | String a rest =>
      match hex_digit a with
      | Some d => d (hex_prefix rest)
      | None => Hexadecimal.Nil
      end
  | EmptyString => Hexadecimal.Nil
  end.

Definition parse_dec (s : string) : option Z :=
  match dec_prefix s with
  | Decimal.Nil => None
  | d => Some (Z.of_uint d)
  end.

Definition parse_hex (s : string) : option Z :=
  match hex_prefix s with
  | Hexadecimal.Nil => None
  | d => Some (Z.of_hex_uint d)
  end.

(** The digits of [parseInt]: a [0x] prefix selects base 16, and the
    longest prefix of digits is read. *)
Definition parse_magnitude (s : string) : option Z :=
  match s with
  | String "0" (String "x" rest) => parse_hex rest
  | String "0" (String "X" rest) => parse_hex rest
  | _ => parse_dec s
  end.

(** [parseInt(s)] without a radix: leading white space is skipped and a
    sign is read before the digits; [None] is [NaN]. *)
Definition parseInt (s : string) : option Z :=
  match skip_ws s with
  | String "-" rest => Z.opp <$> parse_magnitude rest
  | String "+" rest => parse_magnitude rest
  | s' => parse_magnitude s'
  end.

(** [s.padStart(len, '0')]. *)
Definition padStart0 (len : nat) (s : string) : string :=
  String.concat "" (replicate (len - String.length s)%nat "0") +:+ s.


(** ** Dates

    A [Date] object is its time value, the milliseconds since the epoch
    (all the dates of the program are valid, so [NaN] arises only where a
    date is read from a string).  The definitions follow the Date chapter
    of ECMA-262: day number and time within the day, the proleptic
    Gregorian year, and the month and date within it.  The local time
    zone is a fixed offset [tza] from UTC (no daylight-saving changes). *)
Module Date.

Definition msPerDay : Z := 86400000.
Definition msPerHour : Z := 3600000.
Definition msPerMinute : Z := 60000.
Definition msPerSecond : Z := 1000.

Definition Day (t : Z) : Z := t / msPerDay.
Definition TimeWithinDay (t : Z) : Z := t mod msPerDay.

Definition DaysInYear (y : Z) : Z :=
  if negb (y mod 4 =? 0) then 365
  else if negb (y mod 100 =? 0) then 366
  else if negb (y mod 400 =? 0) then 365
  else 366.

Definition DayFromYear (y : Z) : Z :=
  365 * (y - 1970) + (y - 1969) / 4 - (y - 1901) / 100 + (y - 1601) / 400.

(** The year of day number [d]: the largest [y] with
    [DayFromYear y <= d], found from the mean length of a year and one
    step of correction. *)
Definition YearFromDay (d : Z) : Z :=
  let y := 1970 + (400 * d) / 146097 in
  if d <? DayFromYear y then y - 1
  else if DayFromYear (y + 1) <=? d then y + 1
  else y.

Definition YearFromTime (t : Z) : Z := YearFromDay (Day t).

Definition InLeapYear (t : Z) : Z :=
  if DaysInYear (YearFromTime t) =? 366 then 1 else 0.

Definition DayWithinYear (t : Z) : Z := Day t - DayFromYear (YearFromTime t).

(** The day within the year on which month [m] (0 to 11) starts, and on
    which the year ends for [m = 12]. *)
Definition monthStart (leap m : Z) : Z :=
  match m with
  | 0 => 0
  | 1 => 31
  | 2 => 59 + leap
  | 3 => 90 + leap
  | 4 => 120 + leap
  | 5 => 151 + leap
  | 6 => 181 + leap
  | 7 => 212 + leap
  | 8 => 243 + leap
  | 9 => 273 + leap
  | 10 => 304 + leap
  | 11 => 334 + leap
  | _ => 365 + leap
  end.

Definition MonthFromTime (t : Z) : Z :=
  let d := DayWithinYear t in
  let leap := InLeapYear t in
  if d <? 31 then 0
  else if d <? 59 + leap then 1
  else if d <? 90 + leap then 2
  else if d <? 120 + leap then 3
  else if d <? 151 + leap then 4
  else if d <? 181 + leap then 5
  else if d <? 212 + leap then 6
  else if d <? 243 + leap then 7
  else if d <? 273 + leap then 8
  else if d <? 304 + leap then 9
  else if d <? 334 + leap then 10
  else 11.

Definition DateFromTime (t : Z) : Z :=
  DayWithinYear t - monthStart (InLeapYear t) (MonthFromTime t) + 1.

Definition WeekDay (t : Z) : Z := (Day t + 4) mod 7.

Definition HourFromTime (t : Z) : Z := (t / msPerHour) mod 24.
Definition MinFromTime (t : Z) : Z := (t / msPerMinute) mod 60.
Definition SecFromTime (t : Z) : Z := (t / msPerSecond) mod 60.
Definition msFromTime (t : Z) : Z := t mod msPerSecond.

Definition MakeTime (h m s ms : Z) : Z :=
  h * msPerHour + m * msPerMinute + s * msPerSecond + ms.

(** [MakeDay(year, month, date)]: months outside 0..11 carry into the
    year, and dates outside the month carry into the neighbouring
    months. *)
Definition MakeDay (year month date : Z) : Z :=
  let ym := year + month / 12 in
  let mn := month mod 12 in
  let leap := if DaysInYear ym =? 366 then 1 else 0 in
  DayFromYear ym + monthStart leap mn + date - 1.

Definition MakeDate (day time : Z) : Z := day * msPerDay + time.

(** The number of days of month [m] (0 to 11) of year [y]. *)
Definition DaysInMonth (y m : Z) : Z :=
  let leap := if DaysInYear y =? 366 then 1 else 0 in
  monthStart leap (m + 1) - monthStart leap m.

Definition LocalTime (tza t : Z) : Z := t + tza.
Definition UTC (tza t : Z) : Z := t - tza.

(** The year that the [Date] constructor reads: a year from 0 to 99
    means 1900 + year. *)
Definition two_digit_year (year : Z) : Z :=
  if (0 <=? year) && (year <=? 99) then 1900 + year else year.

(** [new Date(year, month, date)]: local midnight of that day. *)
Definition ymd (tza year month date : Z) : Z :=
  let yr := two_digit_year year in
  UTC tza (MakeDate (MakeDay yr month date) (MakeTime 0 0 0 0)).

Definition getFullYear (tza t : Z) : Z := YearFromTime (LocalTime tza t).
Definition getMonth (tza t : Z) : Z := MonthFromTime (LocalTime tza t).
Definition getDate (tza t : Z) : Z := DateFromTime (LocalTime tza t).
Definition getDay (tza t : Z) : Z := WeekDay (LocalTime tza t).

(** [d.setDate(dt)], returning the new time value of [d]. *)
Definition setDate (tza t dt : Z) : Z :=
  let lt := LocalTime tza t in
  UTC tza (MakeDate (MakeDay (YearFromTime lt) (MonthFromTime lt) dt)
                    (TimeWithinDay lt)).

(** [d.setMonth(month)], returning the new time value of [d]: the date
    within the month and the time within the day are kept, and a date
    that the new month does not have carries into the next one. *)
Definition setMonth (tza t month : Z) : Z :=
  let lt := LocalTime tza t in
  UTC tza (MakeDate (MakeDay (YearFromTime lt) month (DateFromTime lt))
                    (TimeWithinDay lt)).

(** The character of a decimal digit. *)
Definition digit_char (d : Z) : ascii := ascii_of_nat (48 + Z.to_nat d).

(** The last [len] decimal digits of [n]. *)
Fixpoint fixed_digits (len : nat) (n : Z) : string :=
  match len with
  | O => EmptyString
  | S len' =>
      fixed_digits len' (n / 10) +:+ String (digit_char (n mod 10)) EmptyString
  end.

(** [d.toISOString()]: [YYYY-MM-DDTHH:mm:ss.sssZ] in UTC, with a sign and
    six digits for a year outside 0..9999. *)
Definition toISOString (t : Z) : string :=
  let y := YearFromTime t in
  let year :=
    if (0 <=? y) && (y <=? 9999) then fixed_digits 4 y
    else (if y <? 0 then "-" else "+") +:+ fixed_digits 6 (Z.abs y) in
  year +:+ "-" +:+ fixed_digits 2 (MonthFromTime t + 1)
    +:+ "-" +:+ fixed_digits 2 (DateFromTime t)
    +:+ "T" +:+ fixed_digits 2 (HourFromTime t)
    +:+ ":" +:+ fixed_digits 2 (MinFromTime t)
    +:+ ":" +:+ fixed_digits 2 (SecFromTime t)
    +:+ "." +:+ fixed_digits 3 (msFromTime t) +:+ "Z".

(** Reading [len] decimal digits, and one given character. *)
Definition digit_val (a : ascii) : option Z :=
  let n := Z.of_nat (nat_of_ascii a) in
  if (48 <=? n) && (n <=? 57) then Some (n - 48) else None.

Fixpoint read_digits (len : nat) (acc : Z) (s : string) : option (Z * string) :=
  match len, s with
  | O, _ => Some (acc, s)
  | S len', String a rest =>
      d ← digit_val a; read_digits len' (10 * acc + d) rest
  | S _, EmptyString => None
  end.

Definition expect (c : ascii) (s : string) : option string :=
  match s with
  | String a rest => if Ascii.eqb a c then Some rest else None
  | EmptyString => None
  end.

(** The year of a time stamp: four digits, or a sign and six. *)
Definition parse_year (s : string) : option (Z * string) :=
  match s with
  | String "+" rest => read_digits 6 0 rest
  | String "-" rest =>
      '(y, s') ← read_digits 6 0 rest;
      if y =? 0 then None else Some (- y, s')
  | _ => read_digits 4 0 s
  end.

(** [Date.parse(s)] on the date-time format that [toISOString] writes;
    [None] is [NaN].  (What an engine accepts beyond the ECMA-262
    date-time format is implementation-defined; the program only ever
    parses time stamps it wrote with [toISOString].) *)
Definition parse (s : string) : option Z :=
  '(y, s) ← parse_year s;
  s ← expect "-" s; '(mo, s) ← read_digits 2 0 s;
  s ← expect "-" s; '(d, s) ← read_digits 2 0 s;
  s ← expect "T" s; '(h, s) ← read_digits 2 0 s;
  s ← expect ":" s; '(mi, s) ← read_digits 2 0 s;
  s ← expect ":" s; '(sec, s) ← read_digits 2 0 s;
  s ← expect "." s; '(ms, s) ← read_digits 3 0 s;
  s ← expect "Z" s;
  if negb (String.eqb s "") then None
  else if negb ((1 <=? mo) && (mo <=? 12) && (1 <=? d) && (d <=? 31)) then None
  else if negb ((h <=? 24) && (mi <=? 59) && (sec <=? 59)) then None
  else if (h =? 24) && negb ((mi =? 0) && (sec =? 0) && (ms =? 0)) then None
  else Some (MakeDate (MakeDay y (mo - 1) d) (MakeTime h mi sec ms)).

(** [new Date(v)] for a property read [v]; [None] is an invalid date. *)
Definition of_value (v : option value) : option Z :=
  match v with
  | None => None
  | Some VNull => Some 0
  | Some (VBool b) => Some (if b then 1 else 0)
  | Some (VNum n) => Some n
  | Some (VStr s) => parse s
  end.

(** [a > b] on dates: a comparison with [NaN] is false. *)
Definition gt (a b : option Z) : bool :=
  match a, b with
  | Some x, Some y => y <? x
  | _, _ => false
  end.

End Date.


(** ** The world and the monad of the program *)

(** What happens to one [fetch]: the request is served and answered, it
    never reaches the server, or it is served and the answer is lost. *)
Inductive net_outcome : Type := NetOk | NetDown | NetLost.

#[global] Instance net_outcome_eq_dec : EqDecision net_outcome.
Proof. solve_decision. Defined.

(** A child of [#calendar-days]. *)
Record Cell : Type := mkCell {
  className : string;
  textContent : Z;
  dataset_date : option string
}.

#[global] Instance Cell_eq_dec : EqDecision Cell.
Proof. solve_decision. Defined.

Record World : Type := mkWorld {
  (* back end, models/todo.js: [let todos = []; let nextId = 1] *)
  todos : list obj;
  nextId : Z;
  (* browser: [localStorage] under the key 'recycledTasks' *)
  localStorage : option (list obj);
  (* environment: the clock read by [new Date()], the zone offset and
     the outcomes of the coming [fetch] calls (all served once the list
     is used up) *)
  clock : Z;
  tza : Z;
  net : list net_outcome;
  (* calendar.js: [currentDate], [selectedDate] and the two DOM nodes
     that [generateCalendar] writes *)
  currentDate : Z;
  selectedDate : Z;
  monthYear : string;
  calendarDays : list Cell
}.

Definition set_todos (x : list obj) (w : World) : World :=
  mkWorld x (nextId w) (localStorage w) (clock w) (tza w) (net w)
          (currentDate w) (selectedDate w) (monthYear w) (calendarDays w).
Definition set_nextId (x : Z) (w : World) : World :=
  mkWorld (todos w) x (localStorage w) (clock w) (tza w) (net w)
          (currentDate w) (selectedDate w) (monthYear w) (calendarDays w).
Definition set_localStorage (x : option (list obj)) (w : World) : World :=
  mkWorld (todos w) (nextId w) x (clock w) (tza w) (net w)
          (currentDate w) (selectedDate w) (monthYear w) (calendarDays w).
Definition set_clock (x : Z) (w : World) : World :=
  mkWorld (todos w) (nextId w) (localStorage w) x (tza w) (net w)
          (currentDate w) (selectedDate w) (monthYear w) (calendarDays w).
Definition set_net (x : list net_outcome) (w : World) : World :=
  mkWorld (todos w) (nextId w) (localStorage w) (clock w) (tza w) x
          (currentDate w) (selectedDate w) (monthYear w) (calendarDays w).
Definition set_monthYear (x : string) (w : World) : World :=
  mkWorld (todos w) (nextId w) (localStorage w) (clock w) (tza w) (net w)
          (currentDate w) (selectedDate w) x (calendarDays w).
Definition set_calendarDays (x : list Cell) (w : World) : World :=
  mkWorld (todos w) (nextId w) (localStorage w) (clock w) (tza w) (net w)
          (currentDate w) (selectedDate w) (monthYear w) x.
Definition set_currentDate (x : Z) (w : World) : World :=
  mkWorld (todos w) (nextId w) (localStorage w) (clock w) (tza w) (net w)
          x (selectedDate w) (monthYear w) (calendarDays w).

(** A thrown JavaScript error. *)
Inductive exn : Type :=
  | Error (message : string)
  | TypeError (message : string).

Inductive result (A : Type) : Type :=
  | Ok (a : A)
  | Throw (e : exn).
Arguments Ok {A} a.
Arguments Throw {A} e.

(** A computation runs on a world and either returns or throws; what it
    did to the world before throwing stays done. *)
Definition M (A : Type) : Type := World → result A * World.

#[global] Instance M_ret : MRet M := λ A a w, (Ok a, w).
#[global] Instance M_bind : MBind M := λ A B f m w,
  match m w with
  | (Ok a, w') => f a w'
  | (Throw e, w') => (Throw e, w')
  end.

Definition throw {A} (e : exn) : M A := λ w, (Throw e, w).

(** [try { body } catch (error) { handler }]. *)
Definition try_catch {A} (body : M A) (handler : exn → M A) : M A := λ w,
  match body w with
  | (Ok a, w') => (Ok a, w')
  | (Throw e, w') => handler e w'
  end.

Definition get : M World := λ w, (Ok w, w).
Definition modify (f : World → World) : M unit := λ w, (Ok tt, f w).

(** [new Date()]. *)
Definition new_Date : M Z := w ← get; mret (clock w).

(** [await new Promise(resolve => setTimeout(resolve, ms))]. *)
Definition sleep (ms : Z) : M unit := modify (λ w, set_clock (clock w + ms) w).

(** [for (const x of xs) body(x)]. *)
Fixpoint for_each {A} (xs : list A) (body : A → M unit) : M unit :=
  match xs with
  | [] => mret tt
  | x :: rest => body x;; for_each rest body
  end.

(** ** The back end *)

(** An HTTP response: the status and the JSON body, if any. *)
Inductive body : Type :=
  | BNone
  | BObj (o : obj)
  | BList (l : list obj)
  | BMessage (message : string).

Record response : Type := mkResponse { status : Z; res_body : body }.

(** [todo.id === parseInt(id)]; [parseInt] may be [NaN], which equals
    nothing. *)
Definition id_is (pid : option Z) (todo : obj) : bool :=
  match pid with
  | Some n => strict_eq (todo !! "id") (Some (VNum n))
  | None => false
  end.

(** Setting a property to a value that may be [undefined]; an undefined
    property reads like a missing one and is dropped by [JSON.stringify],
    so it is not kept. *)
Definition set_prop (k : string) (v : option value) (o : obj) : obj :=
  match v with
  | Some x => <[k := x]> o
  | None => delete k o
  end.

(** models/todo.js.  The [Date] in [createdAt] is kept as the string
    that [res.json] sends for it. *)
Module Todo.

(** [new Todo(title, description = '', dueDate = null)]. *)
Definition new (title description dueDate : option value) : M obj :=
  w ← get;
  let id := nextId w in
  modify (set_nextId (id + 1));;
  now ← new_Date;
  mret (set_prop "createdAt" (Some (VStr (Date.toISOString now)))
       (set_prop "completed" (Some (VBool false))
       (set_prop "dueDate" (Some (default VNull dueDate))
       (set_prop "description" (Some (default (VStr "") description))
       (set_prop "title" title
       (set_prop "id" (Some (VNum id)) ∅)))))).

Definition getAll : M (list obj) := w ← get; mret (todos w).

Definition findById (id : string) : M (option obj) :=
  w ← get; mret (find (id_is (parseInt id)) (todos w)).

Definition create (todoData : obj) : M obj :=
  let title := todoData !! "title" in
  let description := todoData !! "description" in
  let dueDate := todoData !! "dueDate" in
  newTodo ← new title description dueDate;
  modify (λ w, set_todos (todos w ++ [newTodo]) w);;
  mret newTodo.

Definition update (id : string) (updates : obj) : M (option obj) :=
  w ← get;
  match findIndex (id_is (parseInt id)) (todos w) with
  | None => mret None
  | Some todoIndex =>
      let updatedTodo :=
        set_prop "id" (VNum <$> parseInt id)
          (spread (default ∅ (todos w !! todoIndex)) updates) in
      modify (set_todos (<[todoIndex := updatedTodo]> (todos w)));;
      mret (Some updatedTodo)
  end.

Definition delete (id : string) : M bool :=
  w ← get;
  match findIndex (id_is (parseInt id)) (todos w) with
  | None => mret false
  | Some todoIndex =>
      modify (set_todos (splice1 todoIndex (todos w)));;
      mret true
  end.

End Todo.

(** controllers/todoController.js: each handler answers with a status
    and a body. *)
Module Controller.

Definition getAllTodos : M response :=
  try_catch
    (todos ← Todo.getAll; mret (mkResponse 200 (BList todos)))
    (λ _, mret (mkResponse 500 (BMessage "Error fetching todos"))).

Definition getTodoById (id : string) : M response :=
  try_catch
    (todo ← Todo.findById id;
     match todo with
     | None => mret (mkResponse 404 (BMessage "Todo not found"))
     | Some todo => mret (mkResponse 200 (BObj todo))
     end)
    (λ _, mret (mkResponse 500 (BMessage "Error fetching todo"))).

Definition createTodo (req_body : obj) : M response :=
  try_catch
    (if negb (truthy (req_body !! "title"))
     then mret (mkResponse 400 (BMessage "Title is required"))
     else newTodo ← Todo.create req_body;
          mret (mkResponse 201 (BObj newTodo)))
    (λ _, mret (mkResponse 500 (BMessage "Error creating todo"))).

Definition updateTodo (id : string) (req_body : obj) : M response :=
  try_catch
    (updatedTodo ← Todo.update id req_body;
     match updatedTodo with
     | None => mret (mkResponse 404 (BMessage "Todo not found"))
     | Some updatedTodo => mret (mkResponse 200 (BObj updatedTodo))
     end)
    (λ _, mret (mkResponse 500 (BMessage "Error updating todo"))).

Definition deleteTodo (id : string) : M response :=
  try_catch
    (result ← Todo.delete id;
     if negb result
     then mret (mkResponse 404 (BMessage "Todo not found"))
     else mret (mkResponse 204 BNone))
    (λ _, mret (mkResponse 500 (BMessage "Error deleting todo"))).

End Controller.

Inductive method : Type := GET | POST | PUT | DELETE.

(** Modelled from the spec: the router (routes/todos.js) is not among the
    sources.  It is the REST mapping that the controller's handlers and
    the requests of storage.js agree on: the collection at
    [/api/todos], one task at [/api/todos/:id]. *)
Definition route (m : method) (id : option string) (req_body : obj) : M response :=
  match m, id with
  | GET, None => Controller.getAllTodos
  | GET, Some id => Controller.getTodoById id
  | POST, None => Controller.createTodo req_body
  | PUT, Some id => Controller.updateTodo id req_body
  | DELETE, Some id => Controller.deleteTodo id
  | _, _ => mret (mkResponse 404 BNone)
  end.

(** [fetch(url, { method, body })], with the next transport outcome. *)
Definition fetch (m : method) (id : option string) (req_body : obj) : M response :=
  w ← get;
  match net w with
  | [] => route m id req_body
  | NetOk :: rest => modify (set_net rest);; route m id req_body
  | NetDown :: rest =>
      modify (set_net rest);; throw (TypeError "Failed to fetch")
  | NetLost :: rest =>
      modify (set_net rest);; route m id req_body;;
      throw (TypeError "Failed to fetch")
  end.

(** [response.ok]. *)
Definition ok (r : response) : bool := (200 <=? status r) && (status r <=? 299).

(** [await response.json()] where the program expects the task list. *)
Definition json (r : response) : M (list obj) :=
  match res_body r with
  | BList l => mret l
  | _ => throw (Error "Unexpected end of JSON input")
  end.

(** ** The browser: frontend/js/storage.js *)
Module Storage.

(** [localStorage.getItem] / [setItem] under [RECYCLED_TASKS_KEY]; the
    stored text is the JSON of the list, read back as the same list. *)
Definition getRecycledTasks : M (list obj) :=
  w ← get;
  match localStorage w with
  | Some recycledTasks => mret recycledTasks
  | None => mret []
  end.

Definition setRecycledTasks (tasks : list obj) : M unit :=
  modify (set_localStorage (Some tasks)).

Definition getTasks : M (list obj) :=
  try_catch
    (response ← fetch GET None ∅;
     if negb (ok response) then throw (Error "Failed to fetch tasks")
     else json response)
    (λ error, mret []).

Definition addTask (task : obj) : M (list obj) :=
  try_catch
    (response ← fetch POST None task;
     if negb (ok response) then throw (Error "Failed to add task")
     else getTasks)
    (λ error, getTasks).

Definition updateTask (taskId : value) (updatedTask : obj) : M (list obj) :=
  try_catch
    (response ← fetch PUT (Some (ToString taskId)) updatedTask;
     if negb (ok response) then throw (Error "Failed to update task")
     else getTasks)
    (λ error, getTasks).

(** Delete a task (move to recycle bin). *)
Definition deleteTask (taskId : value) : M (list obj) :=
  try_catch
    (allTasks ← getTasks;
     match find (λ task, strict_eq (task !! "id") (Some taskId)) allTasks with
     | Some taskToRecycle =>
         now ← new_Date;
         let taskToRecycle :=
           <["deletedAt" := VStr (Date.toISOString now)]> taskToRecycle in
         recycledTasks ← getRecycledTasks;
         let recycledTasks := recycledTasks ++ [taskToRecycle] in
         setRecycledTasks recycledTasks;;
         response ← fetch DELETE (Some (ToString taskId)) ∅;
         (if negb (ok response) then throw (Error "Failed to delete task")
          else mret tt);;
         sleep 100
     | None => mret tt
     end;;
     getTasks)
    (λ error, getTasks).

Definition toggleTaskStatus (taskId : value) : M (list obj) :=
  try_catch
    (allTasks ← getTasks;
     match find (λ task, strict_eq (task !! "id") (Some taskId)) allTasks with
     | Some task =>
         let updatedTask :=
           <["completed" := VBool (negb (truthy (task !! "completed")))]> task in
         updateTask taskId updatedTask;;
         getTasks
     | None => mret allTasks
     end)
    (λ error, getTasks).

Definition getTasksByDate (date : value) : M (list obj) :=
  try_catch
    (tasks ← getTasks;
     mret (js_filter (λ task, strict_eq (task !! "dueDate") (Some date)) tasks))
    (λ error, mret []).

(** [dates.add(v)] on a [Set], kept in insertion order as
    [Array.from(dates)] lists it. *)
Definition Set_add (dates : list value) (v : value) : list value :=
  if bool_decide (v ∈ dates) then dates else dates ++ [v].

Definition getDatesWithTasks : M (list value) :=
  try_catch
    (tasks ← getTasks;
     let dates :=
       foldl (λ dates task,
                match task !! "dueDate" with
                | Some dueDate =>
                    if truthy (Some dueDate) then Set_add dates dueDate
                    else dates
                | None => dates
                end) [] tasks in
     mret dates)
    (λ error, mret []).

Definition permanentlyDeleteTask (taskId : value) : M (list obj) :=
  recycledTasks ← getRecycledTasks;
  let filteredTasks :=
    js_filter (λ task, negb (strict_eq (task !! "id") (Some taskId)))
              recycledTasks in
  setRecycledTasks filteredTasks;;
  mret filteredTasks.

Definition emptyRecycleBin : M (list obj) :=
  setRecycledTasks [];;
  mret [].

Definition restoreTask (taskId : value) : M (list obj) :=
  recycledTasks ← getRecycledTasks;
  match findIndex (λ task, strict_eq (task !! "id") (Some taskId)) recycledTasks with
  | Some taskIndex =>
      let taskToRestore :=
        delete "deletedAt" (default ∅ (recycledTasks !! taskIndex)) in
      addTask taskToRestore;;
      let recycledTasks := splice1 taskIndex recycledTasks in
      setRecycledTasks recycledTasks;;
      mret recycledTasks
  | None => mret recycledTasks
  end.

(** Clean up old recycled tasks (older than 30 days). *)
Definition cleanupRecycleBin : M (list obj) :=
  recycledTasks ← getRecycledTasks;
  thirtyDaysAgo ← new_Date;
  w ← get;
  let thirtyDaysAgo :=
    Date.setDate (tza w) thirtyDaysAgo (Date.getDate (tza w) thirtyDaysAgo - 30) in
  let filteredTasks :=
    js_filter (λ task,
                 let deletedDate := Date.of_value (task !! "deletedAt") in
                 Date.gt deletedDate (Some thirtyDaysAgo))
              recycledTasks in
  setRecycledTasks filteredTasks;;
  mret filteredTasks.

End Storage.

(** ** The browser: frontend/js/calendar.js *)
Module Calendar.

Definition months : list string :=
  ["January"; "February"; "March"; "April"; "May"; "June";
   "July"; "August"; "September"; "October"; "November"; "December"].

(** Format date as YYYY-MM-DD. *)
Definition formatDate (tza date : Z) : string :=
  let year := Date.getFullYear tza date in
  let month := padStart0 2 (String_of_num (Date.getMonth tza date + 1)) in
  let day := padStart0 2 (String_of_num (Date.getDate tza date)) in
  String_of_num year +:+ "-" +:+ month +:+ "-" +:+ day.

Definition createDayElement (dayNumber : Z) (className : string) : Cell :=
  mkCell ("day " +:+ className) dayNumber None.

Definition isSameDay (tza date1 date2 : Z) : bool :=
  (Date.getFullYear tza date1 =? Date.getFullYear tza date2) &&
  (Date.getMonth tza date1 =? Date.getMonth tza date2) &&
  (Date.getDate tza date1 =? Date.getDate tza date2).

(** [dayElement.dataset.date = dateString]. *)
Definition set_dataset_date (dateString : string) (dayElement : Cell) : Cell :=
  mkCell (className dayElement) (textContent dayElement) (Some dateString).

Definition appendChild (dayElement : Cell) : M unit :=
  modify (λ w, set_calendarDays (calendarDays w ++ [dayElement]) w).

(** The values [i] takes in [for (let i = from; i >= 0; i--)] and in
    [for (let i = 1; i <= to; i++)]. *)
Definition down_to_0 (from : Z) : list Z := reverse (seqZ 0 (from + 1)).
Definition up_from_1 (to : Z) : list Z := seqZ 1 to.

Definition generateCalendar : M unit :=
  modify (set_calendarDays []);;
  w ← get;
  let year := Date.getFullYear (tza w) (currentDate w) in
  let month := Date.getMonth (tza w) (currentDate w) in
  modify (set_monthYear
            (default "undefined" (months !! Z.to_nat month) +:+ " "
               +:+ String_of_num year));;
  let firstDay := Date.ymd (tza w) year month 1 in
  let lastDay := Date.ymd (tza w) year (month + 1) 0 in
  let startingDayOfWeek := Date.getDay (tza w) firstDay in
  let totalDays := Date.getDate (tza w) lastDay in
  datesWithTasks ← Storage.getDatesWithTasks;
  let prevMonthLastDay := Date.getDate (tza w) (Date.ymd (tza w) year month 0) in
  for_each (down_to_0 (startingDayOfWeek - 1)) (λ i,
    let dayNumber := prevMonthLastDay - i in
    appendChild (createDayElement dayNumber "other-month"));;
  for_each (up_from_1 totalDays) (λ i,
    let date := Date.ymd (tza w) year month i in
    let dateString := formatDate (tza w) date in
    today ← new_Date;
    let isToday := isSameDay (tza w) date today in
    let isSelected := isSameDay (tza w) date (selectedDate w) in
    let hasTask := bool_decide (VStr dateString ∈ datesWithTasks) in
    let className := "" in
    let className := if isToday then className +:+ " today" else className in
    let className := if isSelected then className +:+ " selected" else className in
    let className := if hasTask then className +:+ " has-tasks" else className in
    let dayElement := createDayElement i className in
    let dayElement := set_dataset_date dateString dayElement in
    appendChild dayElement);;
  let remainingDays := 42 - (startingDayOfWeek + totalDays) in
  for_each (up_from_1 remainingDays) (λ i,
    appendChild (createDayElement i "other-month")).

(** Go to previous month. *)
Definition prevMonth : M unit :=
  modify (λ w,
    set_currentDate
      (Date.setMonth (tza w) (currentDate w)
                     (Date.getMonth (tza w) (currentDate w) - 1)) w);;
  generateCalendar.

(** Go to next month. *)
Definition nextMonth : M unit :=
  modify (λ w,
    set_currentDate
      (Date.setMonth (tza w) (currentDate w)
                     (Date.getMonth (tza w) (currentDate w) + 1)) w);;
  generateCalendar.

End Calendar.

(** ** A [localStorage] that can fail

    In the [Storage] module above [localStorage] works.  A browser may
    refuse it: reading the key, with the [JSON.parse] of what it holds,
    and [setItem] can each throw (storage blocked, a foreign value under
    the key, the quota used up).  A function of storage.js reads the key
    at most once and writes it at most once in a call, so what
    [localStorage] does during a call is given by two outcomes: [None]
    when the access works, [Some e] when it throws [e]. *)
Record storage : Type := mkStorage {
  getItem : option exn;
  setItem : option exn
}.

Definition working : storage := mkStorage None None.

(** The functions of storage.js that touch [localStorage], with the two
    accesses as they come out. *)
Module Faulty.

Definition getRecycledTasks (ls : storage) : M (list obj) :=
  match getItem ls with
  | Some e => throw e
  | None => Storage.getRecycledTasks
  end.

Definition setRecycledTasks (ls : storage) (tasks : list obj) : M unit :=
  match setItem ls with
  | Some e => throw e
  | None => Storage.setRecycledTasks tasks
  end.

(** Delete a task (move to recycle bin). *)
Definition deleteTask (ls : storage) (taskId : value) : M (list obj) :=
  try_catch
    (allTasks ← Storage.getTasks;
     match find (λ task, strict_eq (task !! "id") (Some taskId)) allTasks with
     | Some taskToRecycle =>
         now ← new_Date;
         let taskToRecycle :=
           <["deletedAt" := VStr (Date.toISOString now)]> taskToRecycle in
         recycledTasks ← getRecycledTasks ls;
         let recycledTasks := recycledTasks ++ [taskToRecycle] in
         setRecycledTasks ls recycledTasks;;
         response ← fetch DELETE (Some (ToString taskId)) ∅;
         (if negb (ok response) then throw (Error "Failed to delete task")
          else mret tt);;
         sleep 100
     | None => mret tt
     end;;
     Storage.getTasks)
    (λ error, Storage.getTasks).

Definition permanentlyDeleteTask (ls : storage) (taskId : value) : M (list obj) :=
  recycledTasks ← getRecycledTasks ls;
  let filteredTasks :=
    js_filter (λ task, negb (strict_eq (task !! "id") (Some taskId)))
              recycledTasks in
  setRecycledTasks ls filteredTasks;;
  mret filteredTasks.

Definition emptyRecycleBin (ls : storage) : M (list obj) :=
  setRecycledTasks ls [];;
  mret [].

Definition restoreTask (ls : storage) (taskId : value) : M (list obj) :=
  recycledTasks ← getRecycledTasks ls;
  match findIndex (λ task, strict_eq (task !! "id") (Some taskId)) recycledTasks with
  | Some taskIndex =>
      let taskToRestore :=
        delete "deletedAt" (default ∅ (recycledTasks !! taskIndex)) in
      Storage.addTask taskToRestore;;
      let recycledTasks := splice1 taskIndex recycledTasks in
      setRecycledTasks ls recycledTasks;;
      mret recycledTasks
  | None => mret recycledTasks
  end.

Definition cleanupRecycleBin (ls : storage) : M (list obj) :=
  recycledTasks ← getRecycledTasks ls;
  thirtyDaysAgo ← new_Date;
  w ← get;
  let thirtyDaysAgo :=
    Date.setDate (tza w) thirtyDaysAgo (Date.getDate (tza w) thirtyDaysAgo - 30) in
  let filteredTasks :=
    js_filter (λ task,
                 let deletedDate := Date.of_value (task !! "deletedAt") in
                 Date.gt deletedDate (Some thirtyDaysAgo))
              recycledTasks in
  setRecycledTasks ls filteredTasks;;
  mret filteredTasks.

End Faulty.

(** ** States and observations *)

(** The state in which both programs start. *)
Definition initial (now zone : Z) : World :=
  mkWorld [] 1 None now zone [] now now "" [].

(** The contents of the recycle bin. *)
Definition bin (w : World) : list obj := default [] (localStorage w).

(** Whether the next [fetch] reaches the server and is answered, and the
    world once its outcome is consumed. *)
Definition served (w : World) : bool :=
  match net w with
  | [] | NetOk :: _ => true
  | _ => false
  end.

Definition step_net (w : World) : World := set_net (tail (net w)) w.

(** No transport failure is pending. *)
Definition net_ok (w : World) : Prop := Forall (λ o, o = NetOk) (net w).

Definition ids (tasks : list obj) : list (option value) :=
  (λ task : obj, task !! "id") <$> tasks.

(** The invariant of models/todo.js: every stored todo carries a number
    below [nextId] as its id, and no two carry the same. *)
Definition wf_store (w : World) : Prop :=
  NoDup (ids (todos w)) ∧
  Forall (λ todo : obj, ∃ n, todo !! "id" = Some (VNum n) ∧ n < nextId w) (todos w).

(** The due dates of a task list, as the spec words [datesWithTasks]:
    [d] is listed when some task has the due date [d]. *)
Definition due_on (tasks : list obj) (d : value) : Prop :=
  ∃ task : obj, task ∈ tasks ∧ task !! "dueDate" = Some d ∧ truthy (Some d) = true.

(** A cell that [generateCalendar] pads the grid with, and a cell of the
    month on display. *)
Definition other_month (c : Cell) : Prop :=
  className c = "day other-month" ∧ dataset_date c = None.
Definition this_month (c : Cell) : Prop := is_Some (dataset_date c).

(** Whether the next [fetch] reaches the server at all. *)
Definition delivered (w : World) : bool :=
  match net w with
  | NetDown :: _ => false
  | _ => true
  end.

(** The todo that [Todo.create] builds from a request when the counter
    stands at [id] and the clock at [now]. *)
Definition new_todo (id now : Z) (todoData : obj) : obj :=
  set_prop "createdAt" (Some (VStr (Date.toISOString now)))
    (set_prop "completed" (Some (VBool false))
    (set_prop "dueDate" (Some (default VNull (todoData !! "dueDate")))
    (set_prop "description" (Some (default (VStr "") (todoData !! "description")))
    (set_prop "title" (todoData !! "title")
    (set_prop "id" (Some (VNum id)) ∅))))).

(** The set that [getDatesWithTasks] collects from a task list. *)
Definition datesOf (tasks : list obj) : list value :=
  foldl (λ dates (task : obj),
           match task !! "dueDate" with
           | Some dueDate =>
               if truthy (Some dueDate) then Storage.Set_add dates dueDate
               else dates
           | None => dates
           end) [] tasks.

(** The cells that the three loops of [generateCalendar] append. *)
Definition padding_cell (n : Z) : Cell := Calendar.createDayElement n "other-month".

Definition day_cell (zone year month selected : Z) (dates : list value)
    (today i : Z) : Cell :=
  let date := Date.ymd zone year month i in
  let dateString := Calendar.formatDate zone date in
  let isToday := Calendar.isSameDay zone date today in
  let isSelected := Calendar.isSameDay zone date selected in
  let hasTask := bool_decide (VStr dateString ∈ dates) in
  let className := "" in
  let className := if isToday then className +:+ " today" else className in
  let className := if isSelected then className +:+ " selected" else className in
  let className := if hasTask then className +:+ " has-tasks" else className in
  Calendar.set_dataset_date dateString (Calendar.createDayElement i className).

(** The four properties of a task that a restore is meant to carry. *)
Definition fields (task : obj) : list (option value) :=
  (λ k, task !! k) <$> ["title"; "description"; "dueDate"; "category"].

(** A call of one of the five handlers that the controller exports, with
    what the handler reads from the request: [req.params.id] and
    [req.body]. *)
Inductive request : Type :=
  | Req_getAllTodos
  | Req_getTodoById (id : string)
  | Req_createTodo (req_body : obj)
  | Req_updateTodo (id : string) (req_body : obj)
  | Req_deleteTodo (id : string).

Definition handle (r : request) : M response :=
  match r with
  | Req_getAllTodos => Controller.getAllTodos
  | Req_getTodoById id => Controller.getTodoById id
  | Req_createTodo req_body => Controller.createTodo req_body
  | Req_updateTodo id req_body => Controller.updateTodo id req_body
  | Req_deleteTodo id => Controller.deleteTodo id
  end.

(** The server handling a sequence of requests, one after the other. *)
Definition serve (requests : list request) : M unit :=
  for_each requests (λ r, handle r;; mret tt).

(** The number that a todo carries as its id. *)
Definition id_number (todo : obj) : Z :=
  match todo !! "id" with
  | Some (VNum n) => n
  | _ => 0
  end.

(** The todos are stored by increasing id, below the counter. *)
Definition in_creation_order (w : World) : Prop :=
  StronglySorted Z.lt (id_number <$> todos w) ∧
  Forall (λ todo : obj, id_number todo < nextId w) (todos w).

(** A computation that returns to its caller on every world: nothing it
    throws escapes it. *)
Definition returns {A} (m : M A) : Prop :=
  ∀ w : World, ∃ (a : A) (w' : World), m w = (Ok a, w').

(** Both accesses to [localStorage] work. *)
Definition storage_ok (ls : storage) : bool :=
  match getItem ls, setItem ls with
  | None, None => true
  | _, _ => false
  end.

(** A computation that throws nothing but what an access to
    [localStorage] threw. *)
Definition throws_only {A} (ls : storage) (m : M A) : Prop :=
  ∀ w : World,
    (∃ (a : A) (w' : World), m w = (Ok a, w')) ∨
    (∃ (e : exn) (w' : World),
       m w = (Throw e, w') ∧ (getItem ls = Some e ∨ setItem ls = Some e)).

(** ** Scenarios *)

(** 2024-01-01T00:00:00.000Z. *)
Definition new_year : Z := 1704067200000.

(** A task is added and moved to the bin at midnight of New Year. *)
Definition recycle_one : M (list obj) :=
  Storage.addTask {["title" := VStr "a"; "dueDate" := VStr "2024-02-14"]};;
  Storage.deleteTask (VNum 1).

Definition recycled_at_new_year : World := (recycle_one (initial new_year 0)).2.

(** A task is added, edited with the category "work", and moved to the
    bin. *)
Definition edit_recycle : M (list obj) :=
  Storage.addTask {["title" := VStr "a"; "dueDate" := VStr "2024-02-14";
                    "category" := VStr "work"]};;
  Storage.updateTask (VNum 1)
    {["title" := VStr "a"; "dueDate" := VStr "2024-02-14";
      "category" := VStr "work"]};;
  Storage.deleteTask (VNum 1).

Definition recycled_with_category : World := (edit_recycle (initial new_year 0)).2.

(** A task is added, its title is blanked by a PUT, and it is moved to
    the bin. *)
Definition blank_recycle : M (list obj) :=
  Storage.addTask {["title" := VStr "a"]};;
  Storage.updateTask (VNum 1) {["title" := VStr ""]};;
  Storage.deleteTask (VNum 1).

Definition recycled_without_title : World := (blank_recycle (initial new_year 0)).2.

(** One task is in the store; the next read is served, the one after it
    meets an outage. *)
Definition one_task : World :=
  (Storage.addTask {["title" := VStr "a"]} (initial new_year 0)).2.

Definition one_task_then_outage : World := set_net [NetOk; NetDown] one_task.

(** Four tasks with the due dates 2024-01-05, 2024-01-05, 2024-02-01 and
    none. *)
Definition add_four_tasks : M (list obj) :=
  Storage.addTask {["title" := VStr "a"; "dueDate" := VStr "2024-01-05"]};;
  Storage.addTask {["title" := VStr "b"; "dueDate" := VStr "2024-01-05"]};;
  Storage.addTask {["title" := VStr "c"; "dueDate" := VStr "2024-02-01"]};;
  Storage.addTask {["title" := VStr "d"]}.

Definition due_dates_example : World := (add_four_tasks (initial new_year 0)).2.

(** The calendar stands at 15 February 2024, two hours east of UTC, with
    1 January selected. *)
Definition february_2024 : World :=
  let zone := 7200000 in
  let date := Date.ymd zone 2024 1 15 in
  mkWorld [] 1 None date zone [] date (Date.ymd zone 2024 0 1) "" [].

(** The calendar has been taken back to June of the year 50, and to
    February of the year 0, in UTC; the clock stands at New Year 2024. *)
Definition june_50 : World :=
  let date := Date.MakeDate (Date.MakeDay 50 5 15) 0 in
  mkWorld [] 1 None new_year 0 [] date new_year "" [].

Definition february_0 : World :=
  let date := Date.MakeDate (Date.MakeDay 0 1 15) 0 in
  mkWorld [] 1 None new_year 0 [] date new_year "" [].

(** * Properties *)

(** Running a computation one step: the monad's operations are unfolded
    and the projections of updated worlds are reduced. *)
Ltac unfold_M :=
  repeat (progress (unfold mbind, M_bind, mret, M_ret, try_catch, throw, get,
                      modify, new_Date, sleep; cbn beta iota)).

Ltac wsimpl :=
  cbn [todos nextId localStorage clock tza net currentDate selectedDate
       monthYear calendarDays set_todos set_nextId set_localStorage set_clock
       set_net set_monthYear set_calendarDays step_net bin] in *.

(** ** Arrays *)

Section array.
Context {A : Type} (p : A → bool).

Lemma find_None (arr : list A) :
  find p arr = None ↔ ∀ x, x ∈ arr → p x = false.
Proof.
  induction arr as [|a arr IH]; simpl.
  - split; [intros _ x Hx; by apply elem_of_nil in Hx | done].
  - destruct (p a) eqn:E.
    + split; [done|]. intros H.
      specialize (H a (list_elem_of_here _ _)). congruence.
    + rewrite IH. split.
      * intros H x [->|Hx]%elem_of_cons; auto.
      * intros H x Hx. apply H. by right.
Qed.

Lemma find_Some (arr : list A) x :
  find p arr = Some x → x ∈ arr ∧ p x = true.
Proof.
  induction arr as [|a arr IH]; simpl; [done|].
  destruct (p a) eqn:E.
  - intros [= <-]. split; [left|done].
  - intros [? ?]%IH. split; [by right|done].
Qed.

Lemma findIndex_None (arr : list A) :
  findIndex p arr = None ↔ ∀ x, x ∈ arr → p x = false.
Proof.
  induction arr as [|a arr IH]; simpl.
  - split; [intros _ x Hx; by apply elem_of_nil in Hx | done].
  - destruct (p a) eqn:E.
    + split; [done|]. intros H.
      specialize (H a (list_elem_of_here _ _)). congruence.
    + rewrite fmap_None, IH. split.
      * intros H x [->|Hx]%elem_of_cons; auto.
      * intros H x Hx. apply H. by right.
Qed.

Lemma findIndex_Some (arr : list A) i :
  findIndex p arr = Some i →
  ∃ x, arr !! i = Some x ∧ p x = true ∧
       ∀ j y, (j < i)%nat → arr !! j = Some y → p y = false.
Proof.
  revert i. induction arr as [|a arr IH]; simpl; [done|]. intros i.
  destruct (p a) eqn:E.
  - intros [= <-]. exists a. split_and!; [done..|]. intros; lia.
  - intros (i' & Hi & ->)%fmap_Some. destruct (IH _ Hi) as (x & Hx & Hp & Hlt).
    exists x. split_and!; [done..|].
    intros [|j] y Hj; simpl; [congruence|]. apply Hlt. lia.
Qed.

(** [find] returns the element at the index that [findIndex] returns. *)
Lemma find_findIndex (arr : list A) :
  find p arr = i ← findIndex p arr; arr !! i.
Proof.
  induction arr as [|a arr IH]; simpl; [done|].
  destruct (p a); [done|]. rewrite IH. by destruct (findIndex p arr).
Qed.

Lemma js_filter_spec (arr : list A) :
  js_filter p arr = filter (λ x, p x = true) arr.
Proof.
  induction arr as [|a arr IH]; simpl; [done|].
  destruct (p a) eqn:E.
  - rewrite filter_cons_True by done. by f_equal.
  - rewrite filter_cons_False by congruence. done.
Qed.

End array.

Lemma strict_eq_true a b : strict_eq a b = true ↔ a = b.
Proof. unfold strict_eq. apply bool_decide_eq_true. Qed.

Lemma strict_eq_false a b : strict_eq a b = false ↔ a ≠ b.
Proof. unfold strict_eq. apply bool_decide_eq_false. Qed.

(** ** Numbers as path segments *)

Lemma dec_prefix_string_of_uint d : dec_prefix (NilEmpty.string_of_uint d) = d.
Proof. induction d; simpl; congruence. Qed.

Lemma parse_magnitude_string_of_uint d :
  d ≠ Decimal.Nil →
  parse_magnitude (NilEmpty.string_of_uint d) = Some (Z.of_uint d).
Proof.
  intros Hd.
  assert (Hdec : parse_dec (NilEmpty.string_of_uint d) = Some (Z.of_uint d)).
  { unfold parse_dec. rewrite dec_prefix_string_of_uint. by destruct d. }
  destruct d as [|d|d|d|d|d|d|d|d|d|d]; try done.
  destruct d; done.
Qed.

Lemma parseInt_string_of_uint d :
  d ≠ Decimal.Nil →
  parseInt (NilEmpty.string_of_uint d) = Some (Z.of_uint d).
Proof.
  intros Hd. rewrite <- (parse_magnitude_string_of_uint d Hd).
  destruct d; done.
Qed.

Lemma string_of_uint_nonnil d :
  d ≠ Decimal.Nil → NilZero.string_of_uint d = NilEmpty.string_of_uint d.
Proof. by destruct d. Qed.

(** The id that storage.js writes into the URL is the id that the model
    reads from it. *)
Lemma parseInt_String_of_num n : parseInt (String_of_num n) = Some n.
Proof.
  unfold String_of_num.
  destruct n as [|p|p]; simpl; [done| |];
    pose proof (DecimalPos.Unsigned.to_uint_nonnil p) as Hn;
    rewrite string_of_uint_nonnil by done.
  - rewrite parseInt_string_of_uint by done.
    unfold Z.of_uint. by rewrite DecimalPos.Unsigned.of_to.
  - unfold parseInt. simpl.
    rewrite parse_magnitude_string_of_uint by done.
    unfold Z.of_uint. by rewrite DecimalPos.Unsigned.of_to.
Qed.

(** ** The calendar arithmetic *)

Module DateFacts.
Import Date.

(** [YearFromDay d] is the year that contains day [d]. *)
Lemma YearFromDay_spec d :
  DayFromYear (YearFromDay d) <= d < DayFromYear (YearFromDay d + 1).
Proof.
  unfold YearFromDay.
  set (y := 1970 + 400 * d / 146097).
  assert (Hy : 146097 * (y - 1970) <= 400 * d < 146097 * (y - 1970) + 146097).
  { unfold y. pose proof (Z.div_mod (400 * d) 146097 ltac:(lia)).
    pose proof (Z.mod_pos_bound (400 * d) 146097 ltac:(lia)). lia. }
  clearbody y.
  destruct (Z.ltb_spec d (DayFromYear y)).
  - unfold DayFromYear in *. Z.div_mod_to_equations; lia.
  - destruct (Z.leb_spec (DayFromYear (y + 1)) d).
    + unfold DayFromYear in *. Z.div_mod_to_equations; lia.
    + lia.
Qed.

Lemma DayFromYear_succ y : DayFromYear (y + 1) = DayFromYear y + DaysInYear y.
Proof.
  unfold DayFromYear, DaysInYear.
  repeat match goal with
         | |- context [?a =? ?b] => destruct (Z.eqb_spec a b); simpl
         end; Z.div_mod_to_equations; lia.
Qed.

Lemma DaysInYear_cases y : DaysInYear y = 365 ∨ DaysInYear y = 366.
Proof. unfold DaysInYear. repeat case_match; auto. Qed.

Lemma InLeapYear_cases t : InLeapYear t = 0 ∨ InLeapYear t = 1.
Proof. unfold InLeapYear. case_match; auto. Qed.

Lemma DayWithinYear_range t : 0 <= DayWithinYear t < 365 + InLeapYear t.
Proof.
  unfold DayWithinYear, InLeapYear, YearFromTime.
  pose proof (YearFromDay_spec (Day t)) as H.
  rewrite DayFromYear_succ in H.
  destruct (DaysInYear_cases (YearFromDay (Day t))) as [E|E];
    rewrite E in *; simpl; lia.
Qed.

Lemma MonthFromTime_range t : 0 <= MonthFromTime t <= 11.
Proof. unfold MonthFromTime. repeat case_match; lia. Qed.

Lemma DateFromTime_range t : 1 <= DateFromTime t <= 31.
Proof.
  unfold DateFromTime, MonthFromTime.
  pose proof (DayWithinYear_range t).
  destruct (InLeapYear_cases t) as [E|E]; rewrite E in *;
  repeat match goal with
         | |- context [?a <? ?b] => destruct (Z.ltb_spec a b); simpl
         end; lia.
Qed.

Lemma WeekDay_range t : 0 <= WeekDay t <= 6.
Proof. unfold WeekDay. pose proof (Z.mod_pos_bound (Day t + 4) 7). lia. Qed.

(** Composing a day from the fields of a time gives its day back, and
    moving the date by [k] moves the day by [k]. *)
Lemma MakeDay_of_time t k :
  MakeDay (YearFromTime t) (MonthFromTime t) (DateFromTime t - k) = Day t - k.
Proof.
  unfold MakeDay, DateFromTime.
  pose proof (MonthFromTime_range t).
  rewrite Z.div_small, Z.mod_small, Z.add_0_r by lia.
  change (if DaysInYear (YearFromTime t) =? 366 then 1 else 0) with (InLeapYear t).
  unfold DayWithinYear. lia.
Qed.

(** [d.setDate(d.getDate() - k)] moves [d] back by [k] days. *)
Lemma setDate_sub tza t k :
  setDate tza t (getDate tza t - k) = t - k * msPerDay.
Proof.
  unfold setDate, getDate. rewrite MakeDay_of_time.
  unfold MakeDate, UTC, TimeWithinDay, Day, LocalTime, msPerDay.
  pose proof (Z.div_mod (t + tza) 86400000 ltac:(lia)). lia.
Qed.

Lemma time_fields t :
  0 <= HourFromTime t <= 23 ∧ 0 <= MinFromTime t <= 59 ∧
  0 <= SecFromTime t <= 59 ∧ 0 <= msFromTime t <= 999 ∧
  MakeTime (HourFromTime t) (MinFromTime t) (SecFromTime t) (msFromTime t)
    = TimeWithinDay t.
Proof.
  unfold HourFromTime, MinFromTime, SecFromTime, msFromTime, MakeTime,
    TimeWithinDay, msPerHour, msPerMinute, msPerSecond, msPerDay.
  Z.div_mod_to_equations. lia.
Qed.

Lemma digit_val_digit_char d : 0 <= d <= 9 → digit_val (digit_char d) = Some d.
Proof.
  intros H.
  assert (d = 0 ∨ d = 1 ∨ d = 2 ∨ d = 3 ∨ d = 4 ∨ d = 5 ∨ d = 6 ∨ d = 7 ∨
          d = 8 ∨ d = 9) as Hd by lia.
  repeat destruct Hd as [->|Hd]; try subst d; reflexivity.
Qed.

(** Reading one digit more is reading the digits and then one digit. *)
Lemma read_digits_last len acc s :
  read_digits (S len) acc s = '(v, s') ← read_digits len acc s; read_digits 1 v s'.
Proof.
  revert acc s. induction len as [|len IH]; intros acc s.
  - reflexivity.
  - destruct s as [|a s]; [done|].
    change (read_digits (S (S len)) acc (String a s))
      with (d ← digit_val a; read_digits (S len) (10 * acc + d) s).
    change (read_digits (S len) acc (String a s))
      with (d ← digit_val a; read_digits len (10 * acc + d) s).
    destruct (digit_val a) as [d|]; [|done]. cbn [mbind option_bind]. apply IH.
Qed.

Lemma string_app_assoc (a b c : string) : (a +:+ b) +:+ c = a +:+ (b +:+ c).
Proof.
  induction a as [|x a IH]; [done|].
  change (String x ((a +:+ b) +:+ c) = String x (a +:+ (b +:+ c))). by f_equal.
Qed.

Lemma read_digits_fixed len n acc rest :
  0 <= n < 10 ^ Z.of_nat len →
  read_digits len acc (fixed_digits len n +:+ rest)
    = Some (acc * 10 ^ Z.of_nat len + n, rest).
Proof.
  revert n acc rest. induction len as [|len IH]; intros n acc rest Hn.
  - simpl in *. f_equal. f_equal. lia.
  - rewrite Nat2Z.inj_succ, Z.pow_succ_r in * by lia.
    rewrite read_digits_last. cbn [fixed_digits].
    rewrite string_app_assoc.
    assert (0 <= n / 10 < 10 ^ Z.of_nat len) by (Z.div_mod_to_equations; lia).
    assert (0 <= n mod 10 <= 9) by (Z.div_mod_to_equations; lia).
    rewrite IH by assumption.
    cbn [mbind option_bind].
    change (String (digit_char (n mod 10)) EmptyString +:+ rest)
      with (String (digit_char (n mod 10)) rest).
    cbn [read_digits].
    rewrite digit_val_digit_char by assumption.
    cbn [mbind option_bind]. f_equal. f_equal.
    Z.div_mod_to_equations; lia.
Qed.

Lemma read_digits_fixed_0 len n rest :
  0 <= n < 10 ^ Z.of_nat len →
  read_digits len 0 (fixed_digits len n +:+ rest) = Some (n, rest).
Proof. intros Hn. by rewrite read_digits_fixed. Qed.

Lemma parse_year_digits s r :
  read_digits 4 0 s = Some r → parse_year s = Some r.
Proof.
  unfold parse_year. destruct s as [|a s]; [done|].
  cbn [read_digits]. destruct (digit_val a) as [d|] eqn:E; [|done].
  intros H. destruct (Ascii.eqb_spec a "+") as [->|]; [done|].
  destruct (Ascii.eqb_spec a "-") as [->|]; [done|].
  cbn [read_digits] in *.
  destruct a as [[] [] [] [] [] [] [] []]; try done; rewrite E; done.
Qed.

Lemma expect_char c rest : expect c (String c "" +:+ rest) = Some rest.
Proof. simpl. by rewrite Ascii.eqb_refl. Qed.

(** A time stamp written by [toISOString] is read back by [Date.parse]
    (here for the years that are written with four digits). *)
Lemma parse_toISOString t :
  0 <= YearFromTime t <= 9999 → parse (toISOString t) = Some t.
Proof.
  intros Hy. unfold toISOString, parse.
  destruct (time_fields t) as (Hh & Hmi & Hs & Hms & Htime).
  pose proof (MonthFromTime_range t) as Hmo.
  pose proof (DateFromTime_range t) as Hd.
  replace ((0 <=? YearFromTime t) && (YearFromTime t <=? 9999)) with true
    by (symmetry; apply andb_true_iff; lia).
  erewrite parse_year_digits;
    [|apply read_digits_fixed_0; change (10 ^ Z.of_nat 4) with 10000; lia].
  cbn [mbind option_bind].
  repeat (first [rewrite expect_char
                | rewrite read_digits_fixed_0
                    by (first [change (10 ^ Z.of_nat 2) with 100
                              | change (10 ^ Z.of_nat 3) with 1000]; lia)];
          cbn [mbind option_bind]).
  replace (expect "Z" "Z") with (Some "") by reflexivity.
  cbn [mbind option_bind String.eqb negb].
  repeat match goal with
         | |- context [?a <=? ?b] => destruct (Z.leb_spec a b); [|lia]
         end.
  destruct (Z.eqb_spec (HourFromTime t) 24); [lia|].
  cbn [andb negb]. f_equal.
  replace (MonthFromTime t + 1 - 1) with (MonthFromTime t) by lia.
  pose proof (MakeDay_of_time t 0) as Hday.
  rewrite Z.sub_0_r in Hday. rewrite Hday, Htime.
  unfold MakeDate, Day, TimeWithinDay, msPerDay.
  pose proof (Z.div_mod t 86400000 ltac:(lia)). lia.
Qed.

Lemma DayFromYear_mono a b : a <= b → DayFromYear a <= DayFromYear b.
Proof. unfold DayFromYear. intros. Z.div_mod_to_equations. lia. Qed.

(** The year of a day is the only year that contains it. *)
Lemma YearFromDay_unique y d :
  DayFromYear y <= d < DayFromYear (y + 1) → YearFromDay d = y.
Proof.
  intros Hd. pose proof (YearFromDay_spec d) as Hs.
  destruct (Z.lt_trichotomy (YearFromDay d) y) as [Hlt|[Heq|Hgt]]; [|done|].
  - pose proof (DayFromYear_mono (YearFromDay d + 1) y ltac:(lia)). lia.
  - pose proof (DayFromYear_mono (y + 1) (YearFromDay d) ltac:(lia)). lia.
Qed.

Lemma month_cases m :
  0 <= m <= 11 →
  m = 0 ∨ m = 1 ∨ m = 2 ∨ m = 3 ∨ m = 4 ∨ m = 5 ∨ m = 6 ∨ m = 7 ∨ m = 8 ∨
  m = 9 ∨ m = 10 ∨ m = 11.
Proof. lia. Qed.

Ltac each_month m Hm :=
  destruct (month_cases m Hm)
    as [->|[->|[->|[->|[->|[->|[->|[->|[->|[->|[->| ->]]]]]]]]]]].

Lemma DaysInMonth_range y m : 0 <= m <= 11 → 28 <= DaysInMonth y m <= 31.
Proof.
  intros Hm. unfold DaysInMonth.
  destruct (DaysInYear y =? 366); each_month m Hm; simpl; lia.
Qed.

(** The day that [MakeDay] composes has the year, month and date it was
    composed from. *)
Lemma fields_of_MakeDay y m d time :
  0 <= m <= 11 → 1 <= d <= DaysInMonth y m → 0 <= time < msPerDay →
  let t := MakeDate (MakeDay y m d) time in
  YearFromTime t = y ∧ MonthFromTime t = m ∧ DateFromTime t = d.
Proof.
  intros Hm Hd Htime t.
  set (leap := if DaysInYear y =? 366 then 1 else 0).
  assert (Hl : leap = 0 ∨ leap = 1) by (unfold leap; case_match; auto).
  assert (Hday : Day t = DayFromYear y + monthStart leap m + d - 1).
  { unfold t, MakeDate, Day, MakeDay.
    rewrite (Z.div_small m 12), (Z.mod_small m 12), Z.add_0_r by lia.
    fold leap. unfold msPerDay in *. Z.div_mod_to_equations. lia. }
  assert (Hyear : YearFromTime t = y).
  { unfold YearFromTime. apply YearFromDay_unique. rewrite Hday, DayFromYear_succ.
    unfold DaysInMonth in Hd. fold leap in Hd. unfold leap in *.
    destruct (DaysInYear_cases y) as [E|E]; rewrite E in *; simpl in *;
      each_month m Hm; simpl in *; lia. }
  assert (Hleap : InLeapYear t = leap).
  { unfold InLeapYear, leap. by rewrite Hyear. }
  assert (Hdwy : DayWithinYear t = monthStart leap m + d - 1).
  { unfold DayWithinYear. rewrite Hyear, Hday. lia. }
  assert (Hmonth : MonthFromTime t = m).
  { unfold MonthFromTime. rewrite Hdwy, Hleap. unfold DaysInMonth in Hd.
    fold leap in Hd. clearbody leap.
    destruct Hl as [-> | ->]; each_month m Hm; simpl in *;
    repeat match goal with
           | |- context [?a <? ?b] => destruct (Z.ltb_spec a b); try lia
           end. }
  split_and!; [done..|].
  unfold DateFromTime. rewrite Hdwy, Hleap, Hmonth. lia.
Qed.

(** Date 0 of the next month is the last day of the month. *)
Lemma MakeDay_last_day y m :
  0 <= m <= 11 → MakeDay y (m + 1) 0 = MakeDay y m (DaysInMonth y m).
Proof.
  intros Hm. unfold MakeDay, DaysInMonth.
  rewrite (Z.div_small m 12), (Z.mod_small m 12), Z.add_0_r by lia.
  destruct (Z.eq_dec m 11) as [->|].
  - change ((11 + 1) / 12) with 1. change ((11 + 1) mod 12) with 0.
    rewrite DayFromYear_succ.
    destruct (DaysInYear_cases y) as [E|E], (DaysInYear_cases (y + 1)) as [E'|E'];
      rewrite ?Z.add_0_r, ?E, ?E'; simpl; lia.
  - rewrite (Z.div_small (m + 1) 12), (Z.mod_small (m + 1) 12), ?Z.add_0_r by lia.
    lia.
Qed.

(** The dates that calendar.js builds for the month on display: the
    first day is day 1 of that month (of the year that the constructor
    reads), and the date of the last day is the number of its days. *)
Lemma getters_ymd tza year month date :
  0 <= month <= 11 → 1 <= date <= DaysInMonth (two_digit_year year) month →
  getFullYear tza (ymd tza year month date) = two_digit_year year ∧
  getMonth tza (ymd tza year month date) = month ∧
  getDate tza (ymd tza year month date) = date.
Proof.
  intros Hm Hd. unfold getFullYear, getMonth, getDate, ymd, LocalTime, UTC.
  cbn zeta. rewrite Z.sub_add.
  apply (fields_of_MakeDay _ _ _ (MakeTime 0 0 0 0)); [done..|].
  unfold MakeTime, msPerDay. simpl. lia.
Qed.

Lemma getDate_last_day tza year month :
  0 <= month <= 11 →
  getDate tza (ymd tza year (month + 1) 0) = DaysInMonth (two_digit_year year) month.
Proof.
  intros Hm. pose proof (DaysInMonth_range (two_digit_year year) month Hm).
  destruct (getters_ymd tza year month (DaysInMonth (two_digit_year year) month))
    as (_ & _ & <-); [done|lia|].
  unfold ymd. cbn zeta. by rewrite MakeDay_last_day.
Qed.

End DateFacts.

(** ** The store and its invariant *)

Lemma Todo_create_eq todoData w :
  Todo.create todoData w =
  let newTodo := new_todo (nextId w) (clock w) todoData in
  (Ok newTodo, set_todos (todos w ++ [newTodo]) (set_nextId (nextId w + 1) w)).
Proof. reflexivity. Qed.

Lemma new_todo_lookup id now todoData :
  let t := new_todo id now todoData in
  t !! "id" = Some (VNum id) ∧
  t !! "title" = todoData !! "title" ∧
  t !! "description" = Some (default (VStr "") (todoData !! "description")) ∧
  t !! "dueDate" = Some (default VNull (todoData !! "dueDate")) ∧
  t !! "completed" = Some (VBool false) ∧
  t !! "createdAt" = Some (VStr (Date.toISOString now)) ∧
  t !! "category" = None.
Proof.
  unfold new_todo, set_prop. destruct (todoData !! "title");
  split_and!; by simplify_map_eq.
Qed.

Lemma ids_insert (l : list obj) i (old new : obj) :
  l !! i = Some old → new !! "id" = old !! "id" → ids (<[i := new]> l) = ids l.
Proof.
  intros Hi Hid. unfold ids. rewrite list_fmap_insert. cbn beta. rewrite Hid.
  apply list_insert_id. rewrite list_lookup_fmap, Hi. done.
Qed.

Lemma wf_store_initial now zone : wf_store (initial now zone).
Proof. split; [apply NoDup_nil_2 | apply Forall_nil_2]. Qed.

(** No stored todo carries the id that the next [new Todo] takes. *)
Lemma wf_store_fresh w (todo : obj) :
  wf_store w → todo ∈ todos w → todo !! "id" ≠ Some (VNum (nextId w)).
Proof.
  intros [_ Hlt] Hin Heq. rewrite Forall_forall in Hlt.
  destruct (Hlt _ Hin) as (n & Hn & ?). rewrite Heq in Hn. simplify_eq. lia.
Qed.

Lemma wf_store_create todoData w :
  wf_store w → wf_store (Todo.create todoData w).2.
Proof.
  intros Hwf. pose proof Hwf as [Hnd Hlt]. rewrite Todo_create_eq. cbn zeta.
  destruct (new_todo_lookup (nextId w) (clock w) todoData) as (Hid & _).
  unfold wf_store; cbn [snd]; wsimpl. split.
  - unfold ids. rewrite fmap_app. apply NoDup_app.
    split_and!; [done| |apply NoDup_singleton].
    intros x (t & -> & Ht)%list_elem_of_fmap Hx%list_elem_of_singleton.
    apply (wf_store_fresh w t Hwf Ht). cbn beta in Hx. by rewrite Hx, Hid.
  - apply Forall_app. split.
    + eapply Forall_impl; [exact Hlt|]. intros t (n & ? & ?).
      exists n. split; [done|lia].
    + apply Forall_singleton. exists (nextId w). split; [done|lia].
Qed.

Lemma wf_store_update id updates w :
  wf_store w → wf_store (Todo.update id updates w).2.
Proof.
  intros [Hnd Hlt]. unfold Todo.update. unfold_M.
  destruct (findIndex _ _) as [i|] eqn:Hi; [|by split].
  destruct (parseInt id) as [n|] eqn:Hp.
  2:{ apply findIndex_Some in Hi as (? & _ & ? & _). done. }
  destruct (findIndex_Some _ _ _ Hi) as (old & Hold & Holdid & _).
  apply strict_eq_true in Holdid.
  unfold wf_store. cbn [snd]. wsimpl. rewrite Hold.
  cbn [fmap option_fmap option_map set_prop default from_option].
  split.
  - erewrite ids_insert; [done..|]. rewrite Holdid. by simplify_map_eq.
  - apply Forall_insert; [done|]. exists n. split; [by simplify_map_eq|].
    rewrite Forall_forall in Hlt. destruct (Hlt old) as (m & Hm & ?).
    { by eapply list_elem_of_lookup_2. }
    rewrite Holdid in Hm. by simplify_eq.
Qed.

Lemma wf_store_delete id w :
  wf_store w → wf_store (Todo.delete id w).2.
Proof.
  intros [Hnd Hlt]. unfold Todo.delete. unfold_M.
  destruct (findIndex _ _) as [i|] eqn:Hi; [|by split].
  unfold wf_store, splice1. cbn [snd]. wsimpl. split.
  - unfold ids in *. rewrite list_fmap_delete.
    eapply sublist_NoDup; [exact Hnd|apply sublist_delete].
  - by apply Forall_delete.
Qed.

(** Every request leaves the store well formed. *)
Lemma wf_store_route m id req_body w :
  wf_store w → wf_store (route m id req_body w).2.
Proof.
  intros Hwf.
  destruct m, id as [id|]; cbn [route];
    unfold Controller.getAllTodos, Controller.getTodoById, Todo.getAll,
      Todo.findById, Controller.createTodo, Controller.updateTodo,
      Controller.deleteTodo; unfold_M; try exact Hwf.
  - destruct (find _ _); exact Hwf.
  - destruct (negb _); [exact Hwf|].
    pose proof (wf_store_create req_body w Hwf) as H.
    rewrite Todo_create_eq in *. exact H.
  - pose proof (wf_store_update id req_body w Hwf) as H.
    destruct (Todo.update id req_body w) as [[[?|]|?] ?]; exact H.
  - pose proof (wf_store_delete id w Hwf) as H.
    destruct (Todo.delete id w) as [[[|]|?] ?]; exact H.
Qed.

Lemma wf_store_fetch m id req_body w :
  wf_store w → wf_store (fetch m id req_body w).2.
Proof.
  intros Hwf. unfold fetch. unfold_M.
  destruct (net w) as [|[] rest] eqn:E.
  - by apply wf_store_route.
  - by apply (wf_store_route _ _ _ (set_net rest w)).
  - exact Hwf.
  - pose proof (wf_store_route m id req_body (set_net rest w) Hwf) as H.
    destruct (route m id req_body (set_net rest w)) as [[?|?] ?]; exact H.
Qed.

(** With distinct ids, the task with a given id is the one that [find]
    and [findIndex] reach, and removing it removes the id. *)
Section unique.
Context (tasks : list obj) (T : obj) (v : value).
Hypothesis Hnd : NoDup (ids tasks).
Hypothesis Hin : T ∈ tasks.
Hypothesis Hid : T !! "id" = Some v.

Lemma findIndex_unique :
  ∃ i, findIndex (λ task : obj, strict_eq (task !! "id") (Some v)) tasks = Some i ∧
       tasks !! i = Some T.
Proof.
  destruct (findIndex (λ task : obj, strict_eq (task !! "id") (Some v)) tasks)
    as [i|] eqn:E.
  - exists i. split; [done|].
    apply findIndex_Some in E as (x & Hx & Hp & _).
    apply strict_eq_true in Hp.
    apply list_elem_of_lookup in Hin as [j Hj].
    assert (i = j) as ->; [|congruence].
    eapply (NoDup_lookup (ids tasks)); [done | |].
    + unfold ids. rewrite list_lookup_fmap, Hx. simpl. by rewrite Hp.
    + unfold ids. rewrite list_lookup_fmap, Hj. simpl. by rewrite Hid.
  - exfalso. rewrite findIndex_None in E. specialize (E T Hin).
    apply strict_eq_false in E. done.
Qed.

Lemma find_unique :
  find (λ task : obj, strict_eq (task !! "id") (Some v)) tasks = Some T.
Proof.
  rewrite find_findIndex. destruct findIndex_unique as (i & -> & Hi). done.
Qed.

Lemma splice1_removes_id i :
  tasks !! i = Some T →
  ∀ task : obj, task ∈ splice1 i tasks → task !! "id" ≠ Some v.
Proof.
  intros Hi task Htask Heq.
  unfold splice1 in Htask. rewrite delete_take_drop in Htask.
  rewrite <- (take_drop_middle tasks i T Hi) in Hnd.
  unfold ids in Hnd. rewrite fmap_app, fmap_cons in Hnd.
  apply NoDup_app in Hnd as (_ & Hl & Hr).
  apply NoDup_cons in Hr as (Hr & _).
  apply elem_of_app in Htask as [Ht|Ht].
  - apply (Hl (Some v)).
    + apply list_elem_of_fmap. exists task. done.
    + rewrite Hid. left.
  - apply Hr. rewrite Hid. apply list_elem_of_fmap. exists task. done.
Qed.

End unique.

(** ** The requests of storage.js *)

Lemma getTasks_eq w :
  Storage.getTasks w = (Ok (if served w then todos w else []), step_net w).
Proof.
  unfold Storage.getTasks, fetch, served, step_net, route,
    Controller.getAllTodos, Todo.getAll.
  unfold_M.
  destruct w as [? ? ? ? ? [|[] rest] ? ? ? ?]; reflexivity.
Qed.

Lemma bin_set_localStorage tasks w : bin (set_localStorage (Some tasks) w) = tasks.
Proof. reflexivity. Qed.

Lemma getRecycledTasks_eq w : Storage.getRecycledTasks w = (Ok (bin w), w).
Proof.
  unfold Storage.getRecycledTasks, bin. unfold_M. by destruct (localStorage w).
Qed.

Lemma fetch_served m id b w :
  served w = true → fetch m id b w = route m id b (step_net w).
Proof.
  unfold served, fetch, step_net. unfold_M.
  destruct w as [? ? ? ? ? [|[] rest] ? ? ? ?]; done.
Qed.

Lemma net_ok_served w : net_ok w → served w = true.
Proof.
  unfold net_ok, served. destruct (net w) as [|o rest]; [done|].
  intros [-> _]%Forall_cons. done.
Qed.

Lemma net_ok_step w : net_ok w → net_ok (step_net w).
Proof.
  unfold net_ok, step_net. simpl. destruct (net w) as [|o rest]; [done|].
  intros [_ H]%Forall_cons. done.
Qed.

Lemma id_is_Some n :
  id_is (Some n) = λ task : obj, strict_eq (task !! "id") (Some (VNum n)).
Proof. reflexivity. Qed.

Lemma Todo_delete_found id n i (w : World) :
  parseInt id = Some n →
  findIndex (λ task : obj, strict_eq (task !! "id") (Some (VNum n))) (todos w) = Some i →
  Todo.delete id w = (Ok true, set_todos (splice1 i (todos w)) w).
Proof.
  intros Hp Hi. unfold Todo.delete. unfold_M. rewrite Hp, id_is_Some, Hi. done.
Qed.

(** A create request that reaches the server with a title adds the new
    todo and touches nothing else but the counter. *)
Lemma addTask_delivered task w :
  delivered w = true → truthy (task !! "title") = true →
  ∃ l w',
    Storage.addTask task w = (Ok l, w') ∧
    todos w' = todos w ++ [new_todo (nextId w) (clock w) task] ∧
    nextId w' = nextId w + 1 ∧
    localStorage w' = localStorage w ∧ clock w' = clock w.
Proof.
  intros Hd Ht.
  unfold Storage.addTask, fetch, route, Controller.createTodo. unfold_M.
  destruct w as [td nid ls ck tz nt cd sd my cal]. unfold delivered in Hd. wsimpl.
  destruct nt as [|[] rest]; try done; wsimpl; rewrite Ht; cbn [negb];
    rewrite Todo_create_eq; cbn zeta; wsimpl;
    rewrite getTasks_eq; eexists _, _; (split; [reflexivity|]); done.
Qed.

Lemma permanentlyDeleteTask_eq taskId w :
  Storage.permanentlyDeleteTask taskId w =
  let kept := filter (λ task : obj, task !! "id" ≠ Some taskId) (bin w) in
  (Ok kept, set_localStorage (Some kept) w).
Proof.
  unfold Storage.permanentlyDeleteTask, Storage.setRecycledTasks. unfold_M.
  rewrite getRecycledTasks_eq, js_filter_spec.
  rewrite (list_filter_iff _ (λ task : obj, task !! "id" ≠ Some taskId)); [done|].
  intros x. rewrite negb_true_iff. apply strict_eq_false.
Qed.

(** [cleanupRecycleBin] keeps the entries whose [deletedAt] reads as a
    date after the cutoff, thirty days of 24 hours before now. *)
Lemma cleanupRecycleBin_eq w :
  Storage.cleanupRecycleBin w =
  let cutoff := clock w - 30 * Date.msPerDay in
  let kept :=
    filter (λ task : obj,
              Date.gt (Date.of_value (task !! "deletedAt")) (Some cutoff) = true)
           (bin w) in
  (Ok kept, set_localStorage (Some kept) w).
Proof.
  unfold Storage.cleanupRecycleBin, Storage.setRecycledTasks. unfold_M.
  rewrite getRecycledTasks_eq, js_filter_spec, DateFacts.setDate_sub.
  reflexivity.
Qed.

Lemma getDatesWithTasks_eq w :
  Storage.getDatesWithTasks w =
  (Ok (datesOf (if served w then todos w else [])), step_net w).
Proof.
  unfold Storage.getDatesWithTasks. unfold_M. rewrite getTasks_eq. done.
Qed.

Lemma Set_add_NoDup dates v : NoDup dates → NoDup (Storage.Set_add dates v).
Proof.
  intros H. unfold Storage.Set_add. case_bool_decide; [done|].
  apply NoDup_app. split_and!; [done| |apply NoDup_singleton].
  intros x Hx ->%list_elem_of_singleton. done.
Qed.

Lemma Set_add_elem dates v x :
  x ∈ Storage.Set_add dates v ↔ x ∈ dates ∨ x = v.
Proof.
  unfold Storage.Set_add. case_bool_decide.
  - split; [auto|]. intros [?| ->]; done.
  - rewrite elem_of_app, list_elem_of_singleton. done.
Qed.

(** The loop of [getDatesWithTasks], started from any set [acc]. *)
Lemma datesOf_spec_acc (tasks : list obj) (acc : list value) :
  let dates :=
    foldl (λ dates (task : obj),
           match task !! "dueDate" with
           | Some dueDate =>
               if truthy (Some dueDate) then Storage.Set_add dates dueDate
               else dates
           | None => dates
           end) acc tasks in
  (NoDup acc → NoDup dates) ∧
  ∀ d, d ∈ dates ↔ d ∈ acc ∨ due_on tasks d.
Proof.
  revert acc. induction tasks as [|task tasks IH]; intros acc; simpl.
  - split; [done|]. intros d. split; [auto|].
    intros [?|(t & Ht & _)]; [done|]. by apply elem_of_nil in Ht.
  - destruct (IH (match task !! "dueDate" with
           | Some dueDate =>
               if truthy (Some dueDate) then Storage.Set_add acc dueDate
               else acc
           | None => acc
           end)) as [IH1 IH2].
    split.
    + intros Hacc. apply IH1. repeat case_match; auto using Set_add_NoDup.
    + intros d. rewrite IH2. unfold due_on. split.
      * intros [Hd|(t & Ht & Hdue & Htr)].
        -- destruct (task !! "dueDate") as [dd|] eqn:E; [|by left].
           destruct (truthy (Some dd)) eqn:Etr; [|by left].
           apply Set_add_elem in Hd as [?| ->]; [by left|].
           right. exists task. split_and!; [left|done..].
        -- right. exists t. split_and!; [by right|done..].
      * intros [Hd|(t & [->|Ht]%elem_of_cons & Hdue & Htr)].
        -- left. repeat case_match; try done. apply Set_add_elem. by left.
        -- left. rewrite Hdue, Htr. apply Set_add_elem. by right.
        -- right. by exists t.
Qed.

(** ** The loops of calendar.js *)

Lemma for_each_appendChild {A} (f : Z → A → Cell) (body : A → M unit) (xs : list A) :
  (∀ x w, body x w = (Ok tt, set_calendarDays (calendarDays w ++ [f (clock w) x]) w)) →
  ∀ w, for_each xs body w =
       (Ok tt, set_calendarDays (calendarDays w ++ (f (clock w) <$> xs)) w).
Proof.
  intros Hbody. induction xs as [|x xs IH]; intros w; cbn [for_each].
  - unfold_M. rewrite app_nil_r. destruct w; reflexivity.
  - unfold_M. rewrite Hbody, IH. wsimpl. rewrite <- app_assoc. reflexivity.
Qed.

Lemma generateCalendar_eq w :
  let zone := tza w in
  let year := Date.getFullYear zone (currentDate w) in
  let month := Date.getMonth zone (currentDate w) in
  let startingDayOfWeek := Date.getDay zone (Date.ymd zone year month 1) in
  let totalDays := Date.getDate zone (Date.ymd zone year (month + 1) 0) in
  let prevMonthLastDay := Date.getDate zone (Date.ymd zone year month 0) in
  let dates := datesOf (if served w then todos w else []) in
  ∃ w',
    Calendar.generateCalendar w = (Ok tt, w') ∧
    calendarDays w' =
      ((λ i, padding_cell (prevMonthLastDay - i))
         <$> Calendar.down_to_0 (startingDayOfWeek - 1)) ++
      (day_cell zone year month (selectedDate w) dates (clock w)
         <$> Calendar.up_from_1 totalDays) ++
      (padding_cell <$> Calendar.up_from_1 (42 - (startingDayOfWeek + totalDays))).
Proof.
  intros. unfold Calendar.generateCalendar. unfold_M.
  rewrite getDatesWithTasks_eq. wsimpl.
  rewrite (for_each_appendChild (λ _ i, padding_cell (prevMonthLastDay - i)))
    by reflexivity.
  rewrite (for_each_appendChild (day_cell zone year month (selectedDate w) dates))
    by reflexivity.
  rewrite (for_each_appendChild (λ _, padding_cell)) by reflexivity.
  wsimpl. eexists. split; [reflexivity|]. wsimpl.
  subst zone year month startingDayOfWeek totalDays prevMonthLastDay dates.
  rewrite app_nil_l, <- !app_assoc. reflexivity.
Qed.

Lemma length_down_to_0 n : length (Calendar.down_to_0 n) = Z.to_nat (n + 1).
Proof. unfold Calendar.down_to_0. by rewrite length_reverse, length_seqZ. Qed.


(** * The claims *)

(** ** C1: cleanup of expired entries *)

(** C1 (the code at the boundary).  A task recycled at
    2024-01-01T00:00:00.000Z is in the bin, and the bin is cleaned up
    exactly thirty days later, so that its [deletedAt] equals the cutoff
    now - 30 days.  [cleanupRecycleBin] removes the entry (it keeps only
    [deletedDate > thirtyDaysAgo]), where the claim, like the comment
    "older than 30 days" on the function, has it retained.  One
    millisecond earlier the entry is still kept. *)
Theorem cleanupRecycleBin_removes_at_cutoff :
  let w := set_clock (new_year + 30 * Date.msPerDay) recycled_at_new_year in
  (λ task : obj, task !! "deletedAt") <$> bin w
    = [Some (VStr "2024-01-01T00:00:00.000Z")] ∧
  (λ task : obj, Date.of_value (task !! "deletedAt")) <$> bin w
    = [Some (clock w - 30 * Date.msPerDay)] ∧
  (Storage.cleanupRecycleBin w).1 = Ok [] ∧
  bin (Storage.cleanupRecycleBin w).2 = [] ∧
  ids (bin (Storage.cleanupRecycleBin (set_clock (clock w - 1) w)).2)
    = [Some (VNum 1)].
Proof. vm_compute. split_and!; reflexivity. Qed.

(** ** C2: restore *)

(** C2 (counterexample).  A task edited to the category "work" and then
    recycled comes back from [restoreTask] without a category:
    [restoreTask] submits the whole snapshot, and [Todo.create] reads
    only title, description and dueDate from it.  And a bin entry with
    an empty title is removed from the bin although the controller
    refuses to create it, so that the active list does not grow. *)
Lemma restoreTask_drops_category :
  (let w := recycled_with_category in
   let w' := (Storage.restoreTask (VNum 1) w).2 in
   fields <$> todos w = [] ∧
   ids (bin w) = [Some (VNum 1)] ∧
   fields <$> bin w =
     [[Some (VStr "a"); Some (VStr ""); Some (VStr "2024-02-14");
       Some (VStr "work")]] ∧
   fields <$> todos w' =
     [[Some (VStr "a"); Some (VStr ""); Some (VStr "2024-02-14"); None]] ∧
   bin w' = []) ∧
  (let w := recycled_without_title in
   let w' := (Storage.restoreTask (VNum 1) w).2 in
   ids (bin w) = [Some (VNum 1)] ∧
   todos w = [] ∧ todos w' = [] ∧ bin w' = []).
Proof. vm_compute. split_and!; reflexivity. Qed.

(** C2 (amended).  When [R] is the bin's entry with the given id, has a
    title and the create request reaches the Task Store, [restoreTask]
    adds one new task to the store, with [R]'s title, description and
    due date (a missing description reads as the empty string, a missing
    due date as [null]), and removes [R] from the bin: the active list
    grows by exactly one and the bin shrinks by exactly one. *)
Theorem restoreTask_recreates (w : World) (taskId : value) (R : obj) :
  find (λ task : obj, strict_eq (task !! "id") (Some taskId)) (bin w) = Some R →
  truthy (R !! "title") = true →
  delivered w = true →
  ∃ (restored : obj) (i : nat) (w' : World),
    Storage.restoreTask taskId w = (Ok (bin w'), w') ∧
    todos w' = todos w ++ [restored] ∧
    restored !! "title" = R !! "title" ∧
    restored !! "description" = Some (default (VStr "") (R !! "description")) ∧
    restored !! "dueDate" = Some (default VNull (R !! "dueDate")) ∧
    bin w !! i = Some R ∧ bin w' = delete i (bin w) ∧
    length (todos w') = S (length (todos w)) ∧
    S (length (bin w')) = length (bin w).
Proof.
  intros Hfind Htitle Hdel.
  rewrite find_findIndex in Hfind.
  destruct (findIndex _ (bin w)) as [i|] eqn:Hi; [|done]. cbn in Hfind.
  unfold Storage.restoreTask. unfold_M. rewrite getRecycledTasks_eq, Hi, Hfind.
  cbn [default from_option]. unfold Datatypes.id.
  destruct (addTask_delivered (delete "deletedAt" R) w Hdel)
    as (l & w1 & Hadd & Htodos & _ & Hls & _).
  { by rewrite lookup_delete_ne. }
  rewrite Hadd. unfold Storage.setRecycledTasks, splice1. unfold_M.
  destruct (new_todo_lookup (nextId w) (clock w) (delete "deletedAt" R))
    as (_ & Ht & Hdesc & Hdue & _).
  rewrite !lookup_delete_ne in Ht, Hdesc, Hdue by done.
  exists (new_todo (nextId w) (clock w) (delete "deletedAt" R)), i,
    (set_localStorage (Some (delete i (bin w))) w1).
  rewrite !bin_set_localStorage. wsimpl.
  split_and!; try done.
  - rewrite Htodos, length_app. simpl. lia.
  - rewrite length_delete by (by eexists).
    apply lookup_lt_Some in Hfind. lia.
Qed.

Lemma restoreTask_recreates_witness :
  let R : obj := {["id" := VNum 1; "title" := VStr "a";
                   "deletedAt" := VStr "2024-01-01T00:00:00.000Z"]} in
  let w := set_localStorage (Some [R]) (initial new_year 0) in
  ∃ (restored : obj) (w' : World),
    Storage.restoreTask (VNum 1) w = (Ok [], w') ∧
    todos w' = [restored] ∧
    restored !! "title" = Some (VStr "a").
Proof.
  intros R w.
  destruct (restoreTask_recreates w (VNum 1) R)
    as (restored & i & w' & Hrun & Htodos & Ht & _ & _ & Hi & Hbin & _).
  - reflexivity.
  - reflexivity.
  - reflexivity.
  - exists restored, w'. split_and!.
    + rewrite Hrun, Hbin. by destruct i as [|[|?]].
    + exact Htodos.
    + rewrite Ht. reflexivity.
Defined.

(** ** C3: recycling a stored task *)

(** C3.  Let [T] be a task of the store with id [n], the store well
    formed and the transport working.  Then [deleteTask n] returns the
    refreshed list, which is the store's list, [T] is not in it, nor any
    task with [T]'s id, and the bin has gained the entry [R]: [T] with
    [deletedAt] set to the time stamp of the clock at the call, which
    reads back as that time. *)
Theorem deleteTask_recycles (w : World) (T : obj) (n : Z) :
  wf_store w → net_ok w → T ∈ todos w → T !! "id" = Some (VNum n) →
  ∃ (l : list obj) (R : obj) (w' : World),
    Storage.deleteTask (VNum n) w = (Ok l, w') ∧
    l = todos w' ∧ (T ∉ l) ∧
    (∀ task : obj, task ∈ l → task !! "id" ≠ Some (VNum n)) ∧
    bin w' = bin w ++ [R] ∧
    R = <["deletedAt" := VStr (Date.toISOString (clock w))]> T ∧
    R !! "id" = Some (VNum n) ∧
    (0 <= Date.YearFromTime (clock w) <= 9999 →
     Date.of_value (R !! "deletedAt") = Some (clock w)).
Proof.
  intros [Hnd _] Hnet Hin Hid.
  destruct (findIndex_unique (todos w) T (VNum n) Hnd Hin Hid) as (i & Hi & Hl).
  pose proof (net_ok_served _ Hnet) as Hs1.
  pose proof (net_ok_step _ Hnet) as Hnet2.
  pose proof (net_ok_served _ Hnet2) as Hs2.
  pose proof (net_ok_served _ (net_ok_step _ Hnet2)) as Hs3.
  unfold Storage.deleteTask. unfold_M. rewrite getTasks_eq, Hs1.
  rewrite (find_unique (todos w) T (VNum n) Hnd Hin Hid).
  rewrite getRecycledTasks_eq. unfold Storage.setRecycledTasks. unfold_M.
  rewrite fetch_served by done.
  unfold route, Controller.deleteTodo. unfold_M.
  erewrite (Todo_delete_found _ n i);
    [|apply parseInt_String_of_num|exact Hi].
  cbn [negb ok status andb Z.leb Z.compare Pos.compare Pos.compare_cont].
  rewrite getTasks_eq.
  eexists _, _, _. split; [reflexivity|].
  unfold served, bin in *. wsimpl. rewrite Hs3.
  split_and!; [done| | |done|done| |].
  - intros HT. by apply (splice1_removes_id (todos w) T (VNum n) Hnd Hid i Hl T HT).
  - by apply (splice1_removes_id (todos w) T (VNum n) Hnd Hid i Hl).
  - by rewrite lookup_insert_ne.
  - intros Hy. rewrite lookup_insert_eq. cbn [Date.of_value].
    by apply DateFacts.parse_toISOString.
Qed.

Lemma deleteTask_recycles_witness :
  let T : obj := {["id" := VNum 1; "title" := VStr "a"]} in
  let w := set_todos [T] (set_nextId 2 (initial new_year 0)) in
  ∃ (l : list obj) (w' : World),
    Storage.deleteTask (VNum 1) w = (Ok l, w') ∧ (T ∉ l) ∧
    bin w' = [<["deletedAt" := VStr (Date.toISOString new_year)]> T].
Proof.
  intros T w.
  destruct (deleteTask_recycles w T 1) as (l & R & w' & Hrun & _ & Hl & _ & Hbin & -> & _).
  - split.
    + apply NoDup_singleton.
    + apply Forall_singleton. exists 1. split; [reflexivity|]. simpl. lia.
  - apply Forall_nil_2.
  - apply list_elem_of_here.
  - reflexivity.
  - exists l, w'. split_and!; [exact Hrun|exact Hl|exact Hbin].
Defined.

(** ** C4: recycling an absent id *)

(** C4.  When no task of the store has the id [taskId], [deleteTask]
    changes neither the store nor the bin, throws nothing, and returns
    what the closing read of the task list returns: the current list,
    when that read is served. *)
Theorem deleteTask_absent_noop (w : World) (taskId : value) :
  (∀ task : obj, task ∈ todos w → task !! "id" ≠ Some taskId) →
  ∃ (l : list obj) (w' : World),
    Storage.deleteTask taskId w = (Ok l, w') ∧
    todos w' = todos w ∧ nextId w' = nextId w ∧
    localStorage w' = localStorage w ∧ bin w' = bin w ∧
    l = (if served (step_net w) then todos w else []).
Proof.
  intros Habs.
  unfold Storage.deleteTask. unfold_M. rewrite getTasks_eq.
  assert (Hfind : find (λ task : obj, strict_eq (task !! "id") (Some taskId))
                    (if served w then todos w else []) = None).
  { apply find_None. intros x Hx. apply strict_eq_false.
    destruct (served w); [by apply Habs|by apply elem_of_nil in Hx]. }
  rewrite Hfind. rewrite getTasks_eq.
  eexists _, _. split; [reflexivity|]. done.
Qed.

Lemma deleteTask_absent_noop_witness :
  let T : obj := {["id" := VNum 1; "title" := VStr "a"]} in
  let w := set_todos [T] (set_nextId 2 (initial new_year 0)) in
  ∃ w' : World,
    Storage.deleteTask (VNum 7) w = (Ok [T], w') ∧
    todos w' = [T] ∧ bin w' = [].
Proof.
  intros T w.
  destruct (deleteTask_absent_noop w (VNum 7)) as (l & w' & Hrun & Ht & _ & _ & Hb & ->).
  - intros task ->%list_elem_of_singleton. discriminate.
  - exists w'. split_and!; [exact Hrun|exact Ht|exact Hb].
Defined.

(** ** C5: transport and storage failures *)

(** C5 (counterexample).  The store holds one task.  A first read is
    served and returns it; the store is unchanged; the next read meets
    an outage and returns the empty list, not the list last known.  On
    the same outage [deleteTask] returns the empty list as well. *)
Lemma getTasks_outage_returns_empty_list :
  let w := one_task_then_outage in
  let w1 := (Storage.getTasks w).2 in
  ids (todos w) = [Some (VNum 1)] ∧
  (Storage.getTasks w).1 = Ok (todos w) ∧
  todos w1 = todos w ∧
  (Storage.getTasks w1).1 = Ok [] ∧
  (Storage.deleteTask (VNum 1) (set_net [NetDown; NetDown] w)).1 = Ok [].
Proof.
  intros w w1. subst w1. rewrite !getTasks_eq.
  split_and!; [vm_compute; reflexivity|reflexivity..|].
  vm_compute. reflexivity.
Qed.

Lemma Todo_delete_eq id w :
  Todo.delete id w =
  match findIndex (id_is (parseInt id)) (todos w) with
  | Some todoIndex => (Ok true, set_todos (splice1 todoIndex (todos w)) w)
  | None => (Ok false, w)
  end.
Proof. unfold Todo.delete. unfold_M. by destruct (findIndex _ _). Qed.

(** With a [localStorage] that works, the functions are those of the
    [Storage] module. *)
Lemma Faulty_working taskId w :
  Faulty.getRecycledTasks working w = Storage.getRecycledTasks w ∧
  Faulty.deleteTask working taskId w = Storage.deleteTask taskId w ∧
  Faulty.permanentlyDeleteTask working taskId w = Storage.permanentlyDeleteTask taskId w ∧
  Faulty.emptyRecycleBin working w = Storage.emptyRecycleBin w ∧
  Faulty.restoreTask working taskId w = Storage.restoreTask taskId w ∧
  Faulty.cleanupRecycleBin working w = Storage.cleanupRecycleBin w.
Proof. split_and!; reflexivity. Qed.

(** [deleteTask] ends in a read of the task list, made in the world
    [w1] that the steps before it have left. *)
Lemma Faulty_deleteTask_eq ls taskId w :
  ∃ w1 : World,
    Faulty.deleteTask ls taskId w
      = (Ok (if served w1 then todos w1 else []), step_net w1) ∧
    match find (λ task : obj, strict_eq (task !! "id") (Some taskId))
               (if served w then todos w else []) with
    | Some T =>
        if storage_ok ls
        then net w1 = tail (tail (net w)) ∧
             todos w1 =
               (if delivered (step_net w)
                then todos (Todo.delete (ToString taskId) w).2 else todos w) ∧
             bin w1 = bin w ++ [<["deletedAt" := VStr (Date.toISOString (clock w))]> T]
        else net w1 = tail (net w) ∧ todos w1 = todos w ∧ bin w1 = bin w
    | None => net w1 = tail (net w) ∧ todos w1 = todos w ∧ bin w1 = bin w
    end.
Proof.
  unfold Faulty.deleteTask. unfold_M. rewrite getTasks_eq.
  destruct (find _ _) as [T|] eqn:Hfind.
  2:{ exists (step_net w). split; [by rewrite !getTasks_eq|]. done. }
  unfold Faulty.getRecycledTasks, Faulty.setRecycledTasks, storage_ok.
  destruct (getItem ls) as [e|].
  { unfold_M. exists (step_net w). split; [by rewrite !getTasks_eq|]. done. }
  rewrite getRecycledTasks_eq.
  destruct (setItem ls) as [e|].
  { unfold_M. exists (step_net w). split; [by rewrite !getTasks_eq|]. done. }
  unfold Storage.setRecycledTasks, fetch, route, Controller.deleteTodo. unfold_M.
  rewrite !Todo_delete_eq.
  destruct w as [td nid ls' ck tz nt cd sd my cal].
  unfold delivered, step_net, bin in *. unfold served in Hfind |- * at 1. wsimpl.
  destruct nt as [|[] [|[] rest]]; try done; wsimpl; cbn [tail]; unfold_M;
    rewrite ?Todo_delete_eq; wsimpl;
    try (destruct (findIndex _ td) as [i|]);
    cbn [negb ok status andb Z.leb Z.compare Pos.compare Pos.compare_cont snd];
    rewrite ?getTasks_eq;
    match goal with
    | |- ∃ w1, (Ok (if served ?W then _ else _), _) = _ ∧ _ => exists W
    end;
    (split; [reflexivity|]); wsimpl; done.
Qed.

(** C5 (amended).  Neither a read of the task list nor [deleteTask]
    throws to the caller, whatever the transport and [localStorage] do.
    A read returns the store's list when the request is served and the
    empty list on a failure.  [deleteTask] ends in a fresh read of the
    task list, made after whatever failed before it, and returns what
    that read returns: the store's current list when the read is served,
    the empty list otherwise.  The read is made in the world [w1] that
    the steps before it have left.  When the first read returned the
    task and [localStorage] works, the bin has gained the stamped task,
    the DELETE request has been sent, and the store has handled it if it
    was delivered; when [localStorage] throws, or no task read has the
    id, nothing but the first read has happened.  With a [localStorage]
    that works, this is [deleteTask] of the [Storage] module. *)
Theorem no_throw_degrades_to_fresh_read (ls : storage) (w : World) (taskId : value) :
  Storage.getTasks w = (Ok (if served w then todos w else []), step_net w) ∧
  Faulty.deleteTask working taskId w = Storage.deleteTask taskId w ∧
  ∃ w1 : World,
    Faulty.deleteTask ls taskId w
      = (Ok (if served w1 then todos w1 else []), step_net w1) ∧
    match find (λ task : obj, strict_eq (task !! "id") (Some taskId))
               (if served w then todos w else []) with
    | Some T =>
        if storage_ok ls
        then net w1 = tail (tail (net w)) ∧
             todos w1 =
               (if delivered (step_net w)
                then todos (Todo.delete (ToString taskId) w).2 else todos w) ∧
             bin w1 = bin w ++ [<["deletedAt" := VStr (Date.toISOString (clock w))]> T]
        else net w1 = tail (net w) ∧ todos w1 = todos w ∧ bin w1 = bin w
    | None => net w1 = tail (net w) ∧ todos w1 = todos w ∧ bin w1 = bin w
    end.
Proof.
  split; [apply getTasks_eq|]. split; [reflexivity|].
  destruct (Faulty_deleteTask_eq ls taskId w) as (w1 & Hrun & Hw1).
  exists w1. split; [exact Hrun|exact Hw1].
Qed.

(** ** C6: the dates with tasks *)

(** C6.  [getDatesWithTasks] returns a list without duplicates whose
    members are exactly the due dates of the tasks it read that have
    one (a missing, [null] or empty due date is none): the store's
    tasks when the read is served.  For the due dates 2024-01-05,
    2024-01-05, 2024-02-01 and none, the result is 2024-01-05 and
    2024-02-01. *)
Theorem getDatesWithTasks_distinct_due_dates (w : World) :
  ∃ (dates : list value) (w' : World),
    Storage.getDatesWithTasks w = (Ok dates, w') ∧
    NoDup dates ∧
    (∀ d : value, d ∈ dates ↔ due_on (if served w then todos w else []) d) ∧
    (λ task : obj, task !! "dueDate") <$> todos due_dates_example =
      [Some (VStr "2024-01-05"); Some (VStr "2024-01-05");
       Some (VStr "2024-02-01"); Some VNull] ∧
    (Storage.getDatesWithTasks due_dates_example).1 =
      Ok [VStr "2024-01-05"; VStr "2024-02-01"].
Proof.
  rewrite getDatesWithTasks_eq. eexists _, _. split; [reflexivity|].
  destruct (datesOf_spec_acc (if served w then todos w else []) []) as [Hnd Hel].
  split_and!.
  - apply Hnd, NoDup_nil_2.
  - intros d. unfold datesOf. rewrite Hel. split; [|auto].
    intros [H|H]; [by apply elem_of_nil in H|done].
  - vm_compute. reflexivity.
  - vm_compute. reflexivity.
Qed.

(** ** C7: the month grid *)

(** The grid in terms of the two dates that the code builds:
    [generateCalendar] fills [#calendar-days] with exactly 42 cells,
    first as many "other-month" cells as the weekday of
    [new Date(year, month, 1)] (Sunday is 0), then one cell for each day
    from 1 to the date of [new Date(year, month + 1, 0)], then
    "other-month" cells numbered from 1 up to the 42nd cell.  For
    February 2024 the grid has 42 cells, the first four are the padding
    28 to 31, the fifth is day 1, and 29 cells belong to the month. *)
Theorem generateCalendar_grid (w : World) :
  let zone := tza w in
  let year := Date.getFullYear zone (currentDate w) in
  let month := Date.getMonth zone (currentDate w) in
  let startingDayOfWeek := Date.getDay zone (Date.ymd zone year month 1) in
  let totalDays := Date.getDate zone (Date.ymd zone year (month + 1) 0) in
  ∃ (w' : World) (leading days trailing : list Cell),
    Calendar.generateCalendar w = (Ok tt, w') ∧
    calendarDays w' = leading ++ days ++ trailing ∧
    length (calendarDays w') = 42%nat ∧
    Z.of_nat (length leading) = startingDayOfWeek ∧
    0 <= startingDayOfWeek <= 6 ∧
    Forall other_month leading ∧
    textContent <$> days = seqZ 1 totalDays ∧
    Forall this_month days ∧
    textContent <$> trailing = seqZ 1 (42 - (startingDayOfWeek + totalDays)) ∧
    Forall other_month trailing ∧
    let grid := calendarDays (Calendar.generateCalendar february_2024).2 in
    length grid = 42%nat ∧
    take 5 grid =
      [mkCell "day other-month" 28 None; mkCell "day other-month" 29 None;
       mkCell "day other-month" 30 None; mkCell "day other-month" 31 None;
       mkCell "day " 1 (Some "2024-02-01")] ∧
    length (filter this_month grid) = 29%nat.
Proof.
  intros.
  assert (Hwd : 0 <= startingDayOfWeek <= 6) by apply DateFacts.WeekDay_range.
  assert (Hd : 1 <= totalDays <= 31) by apply DateFacts.DateFromTime_range.
  destruct (generateCalendar_eq w) as (w' & Hrun & Hgrid).
  cbn zeta in Hgrid. fold zone year month startingDayOfWeek totalDays in Hgrid.
  clearbody startingDayOfWeek totalDays.
  eexists w', _, _, _. split; [exact Hrun|]. split; [exact Hgrid|].
  split_and!.
  - rewrite Hgrid, !length_app, !length_fmap, length_down_to_0.
    unfold Calendar.up_from_1. rewrite !length_seqZ. lia.
  - rewrite length_fmap, length_down_to_0. lia.
  - lia.
  - lia.
  - apply Forall_fmap, Forall_true. intros i. split; reflexivity.
  - rewrite <- list_fmap_compose. apply list_fmap_id.
  - apply Forall_fmap, Forall_true. intros i. eexists. reflexivity.
  - rewrite <- list_fmap_compose. apply list_fmap_id.
  - apply Forall_fmap, Forall_true. intros i. split; reflexivity.
  - vm_compute. split_and!; reflexivity.
Qed.

Lemma ymd_local zone year month date :
  Date.LocalTime zone (Date.ymd zone year month date)
  = Date.MakeDate (Date.MakeDay (Date.two_digit_year year) month date) 0.
Proof.
  unfold Date.ymd, Date.LocalTime, Date.UTC. cbn zeta. rewrite Z.sub_add. reflexivity.
Qed.

Lemma two_digit_year_id year :
  ¬ (0 <= year <= 99) → Date.two_digit_year year = year.
Proof.
  intros H. unfold Date.two_digit_year.
  destruct (Z.leb_spec 0 year), (Z.leb_spec year 99); simpl; lia.
Qed.

(** In a year outside 0..99 the two dates are the first and the last day
    of the month on display: the grid starts on the weekday of the
    month's first day and has the month's number of days. *)
Lemma generateCalendar_month_of_year w :
  let zone := tza w in
  let year := Date.getFullYear zone (currentDate w) in
  let month := Date.getMonth zone (currentDate w) in
  ¬ (0 <= year <= 99) →
  Date.getDay zone (Date.ymd zone year month 1)
    = Date.WeekDay (Date.MakeDate (Date.MakeDay year month 1) 0) ∧
  Date.getDate zone (Date.ymd zone year (month + 1) 0) = Date.DaysInMonth year month.
Proof.
  intros zone year month Hy.
  assert (Hm : 0 <= month <= 11) by apply DateFacts.MonthFromTime_range.
  split.
  - unfold Date.getDay. rewrite ymd_local, two_digit_year_id by done. reflexivity.
  - rewrite DateFacts.getDate_last_day by done. by rewrite two_digit_year_id.
Qed.

(** C7 (the code at a two-digit year).  The calendar stands in June of
    the year 50.  [generateCalendar] writes the header "June 50" and
    builds the first day of the month as [new Date(50, 5, 1)], which the
    [Date] constructor reads as 1 June 1950: the grid has four leading
    cells, for a Thursday, and its day cells carry dates of 1950, while
    1 June of the year 50 is a Wednesday, so that the claim has three.
    In February of the year 0, which has 29 days, the grid has the 28
    day cells of February 1900. *)
Theorem generateCalendar_two_digit_year :
  (let w := june_50 in
   let w' := (Calendar.generateCalendar w).2 in
   Date.getFullYear (tza w) (currentDate w) = 50 ∧
   Date.getMonth (tza w) (currentDate w) = 5 ∧
   monthYear w' = "June 50" ∧
   Date.WeekDay (Date.MakeDate (Date.MakeDay 50 5 1) 0) = 3 ∧
   Date.WeekDay (Date.MakeDate (Date.MakeDay 1950 5 1) 0) = 4 ∧
   take 5 (calendarDays w') =
     [mkCell "day other-month" 28 None; mkCell "day other-month" 29 None;
      mkCell "day other-month" 30 None; mkCell "day other-month" 31 None;
      mkCell "day " 1 (Some "1950-06-01")]) ∧
  (let w := february_0 in
   let w' := (Calendar.generateCalendar w).2 in
   Date.getFullYear (tza w) (currentDate w) = 0 ∧
   Date.getMonth (tza w) (currentDate w) = 1 ∧
   monthYear w' = "February 0" ∧
   Date.DaysInMonth 0 1 = 29 ∧
   length (calendarDays w') = 42%nat ∧
   length (filter this_month (calendarDays w')) = 28%nat).
Proof. vm_compute. split_and!; reflexivity. Qed.

(** ** C8: permanent deletion *)

(** C8.  [permanentlyDeleteTask] throws nothing and leaves in the bin
    exactly the entries whose id differs from [taskId], in their order,
    and does not touch the store; when no entry has the id, the bin is
    unchanged; deleting the same id again changes nothing. *)
Theorem permanentlyDeleteTask_exact (w : World) (taskId : value) :
  ∃ (kept : list obj) (w' : World),
    Storage.permanentlyDeleteTask taskId w = (Ok kept, w') ∧
    bin w' = kept ∧ todos w' = todos w ∧
    kept = filter (λ task : obj, task !! "id" ≠ Some taskId) (bin w) ∧
    ((∀ task : obj, task ∈ bin w → task !! "id" ≠ Some taskId) → kept = bin w) ∧
    Storage.permanentlyDeleteTask taskId w' = (Ok kept, w').
Proof.
  rewrite permanentlyDeleteTask_eq. cbn zeta.
  eexists _, _. split; [reflexivity|].
  rewrite permanentlyDeleteTask_eq. cbn zeta. rewrite !bin_set_localStorage.
  wsimpl.
  split_and!; try done.
  - intros Habs. induction (bin w) as [|a l IH]; [done|].
    rewrite filter_cons_True by (apply Habs; left).
    f_equal. apply IH. intros t Ht. apply Habs. by right.
  - rewrite list_filter_filter_l by done. done.
Qed.

Lemma permanentlyDeleteTask_exact_witness :
  let R : obj := {["id" := VNum 1; "title" := VStr "a"]} in
  let w := set_localStorage (Some [R]) (initial new_year 0) in
  ∃ w' : World,
    Storage.permanentlyDeleteTask (VNum 2) w = (Ok [R], w') ∧ bin w' = [R].
Proof.
  intros R w.
  destruct (permanentlyDeleteTask_exact w (VNum 2))
    as (kept & w' & Hrun & Hbin & _ & _ & Hsame & _).
  exists w'. rewrite Hrun, Hbin, Hsame; [done|].
  intros task ->%list_elem_of_singleton. discriminate.
Defined.

(** ** C9: creating a task *)

(** C9 (counterexample).  A task created from a request without a
    category has no category at all, hence not the category "none". *)
Lemma Todo_create_no_default_category :
  let newTodo := (Todo.create {["title" := VStr "a"]} (initial new_year 0)).1 in
  ∃ todo : obj, newTodo = Ok todo ∧
    todo !! "category" = None ∧ todo !! "category" ≠ Some (VStr "none").
Proof.
  rewrite Todo_create_eq. eexists. split; [reflexivity|].
  destruct (new_todo_lookup 1 new_year {["title" := VStr "a"]})
    as (_ & _ & _ & _ & _ & _ & Hcat).
  cbn [nextId clock initial]. by rewrite Hcat.
Qed.

(** C9 (amended).  In a well-formed store [Todo.create] returns, and
    appends to the store, a todo whose id is the counter's value, which
    no stored todo has, with [completed] false, [createdAt] the time
    stamp of the clock, the title of the request, its description or the
    empty string, and its due date or [null]; when the request has no
    category, the todo has none. *)
Theorem Todo_create_fresh (w : World) (todoData : obj) :
  wf_store w →
  ∃ (newTodo : obj) (w' : World),
    Todo.create todoData w = (Ok newTodo, w') ∧
    todos w' = todos w ++ [newTodo] ∧
    newTodo !! "id" = Some (VNum (nextId w)) ∧
    (∀ todo : obj, todo ∈ todos w → todo !! "id" ≠ newTodo !! "id") ∧
    newTodo !! "completed" = Some (VBool false) ∧
    newTodo !! "createdAt" = Some (VStr (Date.toISOString (clock w))) ∧
    newTodo !! "title" = todoData !! "title" ∧
    newTodo !! "description" = Some (default (VStr "") (todoData !! "description")) ∧
    newTodo !! "dueDate" = Some (default VNull (todoData !! "dueDate")) ∧
    (todoData !! "category" = None → newTodo !! "category" = None).
Proof.
  intros Hwf. rewrite Todo_create_eq. cbn zeta. eexists _, _. split; [reflexivity|].
  destruct (new_todo_lookup (nextId w) (clock w) todoData)
    as (Hid & Htitle & Hdesc & Hdue & Hcompl & Hcreated & Hcat).
  split_and!; try done.
  intros todo Hin. rewrite Hid. by apply wf_store_fresh.
Qed.

Lemma Todo_create_fresh_witness :
  ∃ (newTodo : obj) (w' : World),
    Todo.create {["title" := VStr "a"]} (initial new_year 0) = (Ok newTodo, w') ∧
    newTodo !! "id" = Some (VNum 1) ∧ newTodo !! "category" = None.
Proof.
  destruct (Todo_create_fresh (initial new_year 0) {["title" := VStr "a"]}
              (wf_store_initial new_year 0))
    as (t & w' & H & _ & Hid & _ & _ & _ & _ & _ & _ & Hcat).
  exists t, w'. split_and!; [done..|]. apply Hcat. reflexivity.
Defined.

(** ** C10: updating a task *)

(** C10.  When the store has a todo with the id [n] that the path
    segment [id] reads as, [Todo.update] returns the updated todo, whose
    id is [n] whatever the payload holds under "id"; it replaces a todo
    that had the id [n], and the ids of the store are the same before
    and after. *)
Theorem Todo_update_preserves_id (w : World) (id : string) (updates : obj) :
  (∃ todo : obj, todo ∈ todos w ∧ id_is (parseInt id) todo = true) →
  ∃ (n : Z) (todoIndex : nat) (old updatedTodo : obj) (w' : World),
    parseInt id = Some n ∧
    Todo.update id updates w = (Ok (Some updatedTodo), w') ∧
    todos w !! todoIndex = Some old ∧ old !! "id" = Some (VNum n) ∧
    updatedTodo !! "id" = Some (VNum n) ∧
    todos w' = <[todoIndex := updatedTodo]> (todos w) ∧
    ids (todos w') = ids (todos w).
Proof.
  intros (todo & Hin & Hid).
  destruct (parseInt id) as [n|] eqn:Hp; [|done].
  destruct (findIndex (id_is (Some n)) (todos w)) as [i|] eqn:Hi.
  2:{ rewrite findIndex_None in Hi. rewrite (Hi _ Hin) in Hid. done. }
  destruct (findIndex_Some _ _ _ Hi) as (old & Hold & Holdid & _).
  apply strict_eq_true in Holdid.
  unfold Todo.update. unfold_M. rewrite Hp, Hi.
  cbn [fmap option_fmap option_map set_prop].
  rewrite Hold. cbn [default from_option]. unfold Datatypes.id.
  eexists n, i, old, _, _. split_and!; try done.
  - by simplify_map_eq.
  - wsimpl. apply (ids_insert _ _ old); [done|]. rewrite Holdid. by simplify_map_eq.
Qed.

Lemma Todo_update_preserves_id_witness :
  let T : obj := {["id" := VNum 1; "title" := VStr "a"]} in
  let w := set_todos [T] (set_nextId 2 (initial new_year 0)) in
  ∃ (updatedTodo : obj) (w' : World),
    Todo.update "1" {["id" := VNum 99; "title" := VStr "b"]} w
      = (Ok (Some updatedTodo), w') ∧
    updatedTodo !! "id" = Some (VNum 1) ∧
    ids (todos w') = [Some (VNum 1)].
Proof.
  intros T w.
  destruct (Todo_update_preserves_id w "1" {["id" := VNum 99; "title" := VStr "b"]})
    as (n & i & old & t & w' & Hp & Hrun & _ & _ & Hid & _ & Hids).
  - exists T. split; [apply list_elem_of_here|reflexivity].
  - injection Hp as <-. exists t, w'. split_and!; [exact Hrun|exact Hid|exact Hids].
Defined.

(** * Further properties of the code *)

(** ** More on arrays *)

Lemma find_app_new {A} (p : A → bool) (l : list A) (x : A) :
  (∀ y, y ∈ l → p y = false) → p x = true → find p (l ++ [x]) = Some x.
Proof.
  intros Hl Hx. induction l as [|a l IH]; simpl.
  - by rewrite Hx.
  - rewrite (Hl a) by left. apply IH. intros y Hy. apply Hl. by right.
Qed.

Lemma filter_all {A} (P : A → Prop) `{!∀ x, Decision (P x)} (l : list A) :
  (∀ x, x ∈ l → P x) → filter P l = l.
Proof.
  induction l as [|a l IH]; intros Hall; [done|].
  rewrite filter_cons_True by (apply Hall; left).
  f_equal. apply IH. intros x Hx. apply Hall. by right.
Qed.

Lemma delete_unique_filter (l : list obj) i (T : obj) (v : value) :
  NoDup (ids l) → l !! i = Some T → T !! "id" = Some v →
  delete i l = filter (λ t : obj, t !! "id" ≠ Some v) l.
Proof.
  intros Hnd Hi Hid.
  rewrite delete_take_drop. rewrite <- (take_drop_middle l i T Hi) at 3.
  rewrite <- (take_drop_middle l i T Hi) in Hnd.
  unfold ids in Hnd. rewrite fmap_app, fmap_cons in Hnd.
  apply NoDup_app in Hnd as (_ & Hl & Hr).
  apply NoDup_cons in Hr as (Hr & _).
  rewrite filter_app, filter_cons_False by (intros H; by apply H).
  f_equal; symmetry; apply filter_all; intros t Ht Heq.
  - apply (Hl (Some v)).
    + apply list_elem_of_fmap. by exists t.
    + rewrite Hid. left.
  - apply Hr. rewrite Hid. apply list_elem_of_fmap. by exists t.
Qed.

(** ** The handlers of the controller *)

Lemma createTodo_eq req_body w :
  Controller.createTodo req_body w =
  if truthy (req_body !! "title")
  then let newTodo := new_todo (nextId w) (clock w) req_body in
       (Ok (mkResponse 201 (BObj newTodo)),
        set_todos (todos w ++ [newTodo]) (set_nextId (nextId w + 1) w))
  else (Ok (mkResponse 400 (BMessage "Title is required")), w).
Proof.
  unfold Controller.createTodo. unfold_M.
  destruct (truthy _); cbn [negb]; [|done]. by rewrite Todo_create_eq.
Qed.

Lemma handlers_absent id updates w :
  (∀ todo : obj, todo ∈ todos w → id_is (parseInt id) todo = false) →
  Controller.getTodoById id w = (Ok (mkResponse 404 (BMessage "Todo not found")), w) ∧
  Controller.updateTodo id updates w = (Ok (mkResponse 404 (BMessage "Todo not found")), w) ∧
  Controller.deleteTodo id w = (Ok (mkResponse 404 (BMessage "Todo not found")), w).
Proof.
  intros Habs.
  pose proof (proj2 (find_None (id_is (parseInt id)) (todos w)) Habs) as Hf.
  pose proof (proj2 (findIndex_None (id_is (parseInt id)) (todos w)) Habs) as Hi.
  unfold Controller.getTodoById, Controller.updateTodo, Controller.deleteTodo,
    Todo.findById, Todo.update, Todo.delete.
  unfold_M. rewrite Hf, Hi. done.
Qed.

(** X1.  [createTodo] answers every request: with 400 "Title is required"
    and an untouched store when the body's title is missing or falsy, and
    with 201 and the new todo, appended to the store, otherwise. *)
Theorem createTodo_requires_title (w : World) (req_body : obj) :
  ∃ (r : response) (w' : World),
    Controller.createTodo req_body w = (Ok r, w') ∧
    (truthy (req_body !! "title") = false →
     r = mkResponse 400 (BMessage "Title is required") ∧ w' = w) ∧
    (truthy (req_body !! "title") = true →
     ∃ newTodo : obj,
       r = mkResponse 201 (BObj newTodo) ∧
       todos w' = todos w ++ [newTodo] ∧
       nextId w' = nextId w + 1 ∧
       newTodo !! "title" = req_body !! "title").
Proof.
  rewrite createTodo_eq. destruct (truthy _) eqn:E; cbn zeta.
  - eexists _, _. split; [reflexivity|]. split; [done|]. intros _.
    eexists. split_and!; [reflexivity..|].
    by destruct (new_todo_lookup (nextId w) (clock w) req_body) as (_ & ? & _).
  - eexists _, _. split; [reflexivity|]. split; [done|]. done.
Qed.

(** X2.  In a well-formed store, the todo that [Todo.create] returns is
    the one that [Todo.findById] and [getTodoById] find afterwards under
    its id, written as the path segment. *)
Theorem getTodoById_after_create (w : World) (todoData : obj) :
  wf_store w →
  ∃ (newTodo : obj) (w' : World),
    Todo.create todoData w = (Ok newTodo, w') ∧
    Todo.findById (String_of_num (nextId w)) w' = (Ok (Some newTodo), w') ∧
    Controller.getTodoById (String_of_num (nextId w)) w'
      = (Ok (mkResponse 200 (BObj newTodo)), w').
Proof.
  intros Hwf. rewrite Todo_create_eq. cbn zeta. eexists _, _.
  split; [reflexivity|].
  destruct (new_todo_lookup (nextId w) (clock w) todoData) as (Hid & _).
  assert (Hfind : find (id_is (parseInt (String_of_num (nextId w))))
            (todos w ++ [new_todo (nextId w) (clock w) todoData])
          = Some (new_todo (nextId w) (clock w) todoData)).
  { rewrite parseInt_String_of_num, id_is_Some. apply find_app_new.
    - intros y Hy. apply strict_eq_false. by apply wf_store_fresh.
    - by apply strict_eq_true. }
  unfold Controller.getTodoById, Todo.findById. unfold_M. wsimpl.
  rewrite Hfind. done.
Qed.

Lemma getTodoById_after_create_witness :
  ∃ (newTodo : obj) (w' : World),
    Todo.create {["title" := VStr "a"]} (initial new_year 0) = (Ok newTodo, w') ∧
    Controller.getTodoById "1" w' = (Ok (mkResponse 200 (BObj newTodo)), w').
Proof.
  destruct (getTodoById_after_create (initial new_year 0) {["title" := VStr "a"]}
              (wf_store_initial new_year 0)) as (t & w' & H1 & _ & H2).
  exists t, w'. split; [exact H1|exact H2].
Defined.

(** X3.  In a well-formed store, [deleteTodo] on the id of a stored todo
    answers 204 and removes that todo and no other: the store keeps the
    todos with another id, in their order, and is one shorter.
    Afterwards the id is not found: [getTodoById] and a second
    [deleteTodo] answer 404. *)
Theorem deleteTodo_removes (w : World) (T : obj) (n : Z) :
  wf_store w → T ∈ todos w → T !! "id" = Some (VNum n) →
  ∃ w' : World,
    Controller.deleteTodo (String_of_num n) w = (Ok (mkResponse 204 BNone), w') ∧
    todos w' = filter (λ todo : obj, todo !! "id" ≠ Some (VNum n)) (todos w) ∧
    S (length (todos w')) = length (todos w) ∧
    nextId w' = nextId w ∧
    Controller.getTodoById (String_of_num n) w'
      = (Ok (mkResponse 404 (BMessage "Todo not found")), w') ∧
    Controller.deleteTodo (String_of_num n) w'
      = (Ok (mkResponse 404 (BMessage "Todo not found")), w').
Proof.
  intros [Hnd _] Hin Hid.
  destruct (findIndex_unique (todos w) T (VNum n) Hnd Hin Hid) as (i & Hi & Hl).
  unfold Controller.deleteTodo at 1. unfold_M.
  rewrite (Todo_delete_found _ n i) by (apply parseInt_String_of_num || done).
  cbn [negb]. eexists. split; [reflexivity|].
  assert (Habs : ∀ todo : obj, todo ∈ todos (set_todos (splice1 i (todos w)) w) →
            id_is (parseInt (String_of_num n)) todo = false).
  { intros todo Htodo. rewrite parseInt_String_of_num, id_is_Some.
    apply strict_eq_false.
    by apply (splice1_removes_id (todos w) T (VNum n) Hnd Hid i Hl). }
  destruct (handlers_absent _ ∅ _ Habs) as (Hget & _ & Hdel).
  split_and!; [|  |done|exact Hget|exact Hdel].
  - wsimpl. unfold splice1. by apply (delete_unique_filter _ _ T).
  - wsimpl. unfold splice1. rewrite length_delete by (by eexists).
    apply lookup_lt_Some in Hl. lia.
Qed.

Lemma deleteTodo_removes_witness :
  let T : obj := {["id" := VNum 1; "title" := VStr "a"]} in
  let U : obj := {["id" := VNum 2; "title" := VStr "b"]} in
  let w := set_todos [T; U] (set_nextId 3 (initial new_year 0)) in
  ∃ w' : World,
    Controller.deleteTodo "1" w = (Ok (mkResponse 204 BNone), w') ∧
    length (todos w') = 1%nat.
Proof.
  intros T U w.
  destruct (deleteTodo_removes w T 1) as (w' & Hrun & _ & Hlen & _).
  - split.
    + vm_compute. apply NoDup_cons. split; [|apply NoDup_singleton].
      intros H%list_elem_of_singleton. discriminate.
    + repeat apply Forall_cons_2; [| |apply Forall_nil_2].
      * exists 1. split; [reflexivity|]. simpl. lia.
      * exists 2. split; [reflexivity|]. simpl. lia.
  - apply list_elem_of_here.
  - reflexivity.
  - exists w'. split; [exact Hrun|]. simpl in Hlen. lia.
Defined.

(** X4.  When no stored todo has the id that [parseInt] reads from the
    path segment (in particular when it reads none, as for "abc"),
    [getTodoById], [updateTodo] and [deleteTodo] answer 404
    "Todo not found" and leave the store and the counter as they
    are. *)
Theorem absent_id_not_found (w : World) (id : string) (updates : obj) :
  (∀ todo : obj, todo ∈ todos w → id_is (parseInt id) todo = false) →
  Controller.getTodoById id w
    = (Ok (mkResponse 404 (BMessage "Todo not found")), w) ∧
  Controller.updateTodo id updates w
    = (Ok (mkResponse 404 (BMessage "Todo not found")), w) ∧
  Controller.deleteTodo id w
    = (Ok (mkResponse 404 (BMessage "Todo not found")), w).
Proof. apply handlers_absent. Qed.

Lemma absent_id_not_found_witness :
  let T : obj := {["id" := VNum 1; "title" := VStr "a"]} in
  let w := set_todos [T] (set_nextId 2 (initial new_year 0)) in
  Controller.deleteTodo "abc" w
    = (Ok (mkResponse 404 (BMessage "Todo not found")), w) ∧
  Controller.updateTodo "2" {["title" := VStr "b"]} w
    = (Ok (mkResponse 404 (BMessage "Todo not found")), w).
Proof.
  intros T w. split.
  - apply (absent_id_not_found w "abc" ∅). intros todo _. reflexivity.
  - apply (absent_id_not_found w "2" {["title" := VStr "b"]}).
    intros todo ->%list_elem_of_singleton. reflexivity.
Defined.

Lemma lookup_spread (a b : obj) k :
  spread a b !! k = match b !! k with Some v => Some v | None => a !! k end.
Proof.
  unfold spread. destruct (b !! k) as [v|] eqn:E.
  - by apply lookup_union_Some_l.
  - by rewrite lookup_union_r.
Qed.

Lemma Todo_update_found id n i (T : obj) updates (w : World) :
  parseInt id = Some n →
  findIndex (λ task : obj, strict_eq (task !! "id") (Some (VNum n))) (todos w) = Some i →
  todos w !! i = Some T →
  Todo.update id updates w =
  let updatedTodo := <["id" := VNum n]> (spread T updates) in
  (Ok (Some updatedTodo), set_todos (<[i := updatedTodo]> (todos w)) w).
Proof.
  intros Hp Hi HT. unfold Todo.update. unfold_M.
  rewrite Hp, id_is_Some, Hi, HT. done.
Qed.

(** X5.  In a well-formed store, [updateTodo] on the id of a stored todo
    [T] answers 200 with the updated todo, which takes [T]'s place in
    the store: each property other than the id is the payload's when the
    payload has it and [T]'s otherwise, and the id stays. *)
Theorem updateTodo_merges (w : World) (T : obj) (n : Z) (updates : obj) :
  wf_store w → T ∈ todos w → T !! "id" = Some (VNum n) →
  ∃ (i : nat) (updated : obj) (w' : World),
    Controller.updateTodo (String_of_num n) updates w
      = (Ok (mkResponse 200 (BObj updated)), w') ∧
    todos w !! i = Some T ∧
    todos w' = <[i := updated]> (todos w) ∧
    updated !! "id" = Some (VNum n) ∧
    (∀ k : string, k ≠ "id" →
       updated !! k = match updates !! k with Some v => Some v | None => T !! k end) ∧
    nextId w' = nextId w.
Proof.
  intros [Hnd _] Hin Hid.
  destruct (findIndex_unique (todos w) T (VNum n) Hnd Hin Hid) as (i & Hi & Hl).
  unfold Controller.updateTodo. unfold_M.
  rewrite (Todo_update_found _ n i T) by (apply parseInt_String_of_num || done).
  cbn zeta. eexists i, _, _. split; [reflexivity|].
  split_and!; [done|done| |  |done].
  - by rewrite lookup_insert_eq.
  - intros k Hk. rewrite lookup_insert_ne by done. apply lookup_spread.
Qed.

Lemma updateTodo_merges_witness :
  let T : obj := {["id" := VNum 1; "title" := VStr "a"; "completed" := VBool false]} in
  let w := set_todos [T] (set_nextId 2 (initial new_year 0)) in
  ∃ (updated : obj) (w' : World),
    Controller.updateTodo "1" {["category" := VStr "work"]} w
      = (Ok (mkResponse 200 (BObj updated)), w') ∧
    updated !! "title" = Some (VStr "a") ∧
    updated !! "category" = Some (VStr "work").
Proof.
  intros T w.
  destruct (updateTodo_merges w T 1 {["category" := VStr "work"]})
    as (i & u & w' & Hrun & _ & _ & _ & Hk & _).
  - split.
    + apply NoDup_singleton.
    + apply Forall_singleton. exists 1. split; [reflexivity|]. simpl. lia.
  - apply list_elem_of_here.
  - reflexivity.
  - exists u, w'. split_and!; [exact Hrun| |].
    + rewrite Hk by done. reflexivity.
    + rewrite Hk by done. reflexivity.
Defined.

(** ** Path segments that [parseInt] reads leniently *)

Lemma dec_prefix_app d s :
  dec_prefix s = Decimal.Nil → dec_prefix (NilEmpty.string_of_uint d +:+ s) = d.
Proof.
  intros Hs. induction d; simpl in *; [done|by f_equal..].
Qed.

Lemma parseInt_app_uint d s :
  d ≠ Decimal.Nil → d ≠ Decimal.D0 Decimal.Nil → dec_prefix s = Decimal.Nil →
  parseInt (NilEmpty.string_of_uint d +:+ s) = Some (Z.of_uint d).
Proof.
  intros Hd H0 Hs.
  assert (Hdec : parse_dec (NilEmpty.string_of_uint d +:+ s) = Some (Z.of_uint d)).
  { unfold parse_dec. rewrite dec_prefix_app by done. by destruct d. }
  destruct d as [|d|d|d|d|d|d|d|d|d|d]; try done.
  destruct d; done.
Qed.

Lemma parseInt_suffix n s :
  1 <= n → dec_prefix s = Decimal.Nil → parseInt (String_of_num n +:+ s) = Some n.
Proof.
  intros Hn Hs. unfold String_of_num.
  destruct n as [|p|p]; [lia| |lia]. simpl.
  pose proof (DecimalPos.Unsigned.to_uint_nonnil p) as Hnn.
  rewrite string_of_uint_nonnil by done.
  rewrite parseInt_app_uint; [|done| |done].
  - unfold Z.of_uint. by rewrite DecimalPos.Unsigned.of_to.
  - intros H0. pose proof (DecimalPos.Unsigned.of_to p) as Hof.
    rewrite H0 in Hof. discriminate.
Qed.

Lemma handlers_parseInt id1 id2 updates w :
  parseInt id1 = parseInt id2 →
  Controller.getTodoById id1 w = Controller.getTodoById id2 w ∧
  Controller.updateTodo id1 updates w = Controller.updateTodo id2 updates w ∧
  Controller.deleteTodo id1 w = Controller.deleteTodo id2 w.
Proof.
  intros H.
  unfold Controller.getTodoById, Controller.updateTodo, Controller.deleteTodo,
    Todo.findById, Todo.update, Todo.delete.
  unfold_M. rewrite H. done.
Qed.

(** X6.  [parseInt] reads the digits at the start of the path segment
    and ignores what follows them: for [n >= 1], the segment made of [n]
    and a suffix that does not start with a digit addresses the todo
    [n], in [getTodoById], [updateTodo] and [deleteTodo] alike. *)
Theorem id_suffix_ignored (w : World) (n : Z) (suffix : string) (updates : obj) :
  1 <= n → dec_prefix suffix = Decimal.Nil →
  parseInt (String_of_num n +:+ suffix) = Some n ∧
  Controller.getTodoById (String_of_num n +:+ suffix) w
    = Controller.getTodoById (String_of_num n) w ∧
  Controller.updateTodo (String_of_num n +:+ suffix) updates w
    = Controller.updateTodo (String_of_num n) updates w ∧
  Controller.deleteTodo (String_of_num n +:+ suffix) w
    = Controller.deleteTodo (String_of_num n) w.
Proof.
  intros Hn Hs. split; [by apply parseInt_suffix|].
  apply handlers_parseInt.
  by rewrite parseInt_suffix, parseInt_String_of_num.
Qed.

Lemma id_suffix_ignored_witness :
  let T : obj := {["id" := VNum 1; "title" := VStr "a"]} in
  let w := set_todos [T] (set_nextId 2 (initial new_year 0)) in
  parseInt "1abc" = Some 1 ∧
  Controller.deleteTodo "1abc" w = Controller.deleteTodo "1" w.
Proof.
  intros T w.
  destruct (id_suffix_ignored w 1 "abc" ∅) as (H1 & _ & _ & H2).
  - lia.
  - reflexivity.
  - split; [exact H1|exact H2].
Defined.

(** ** Every reachable state of the server *)

Lemma route_returns m id req_body w :
  ∃ r w', route m id req_body w = (Ok r, w').
Proof.
  destruct m, id as [id|]; cbn [route];
    unfold Controller.getAllTodos, Controller.getTodoById, Todo.getAll,
      Todo.findById, Controller.createTodo, Controller.updateTodo,
      Controller.deleteTodo, Todo.update, Todo.delete, Todo.create, Todo.new;
    unfold_M; repeat case_match; simplify_eq; by eexists _, _.
Qed.

Lemma route_nextId m id req_body w :
  nextId w <= nextId (route m id req_body w).2.
Proof.
  destruct m, id as [id|]; cbn [route];
    unfold Controller.getAllTodos, Controller.getTodoById, Todo.getAll,
      Todo.findById, Controller.createTodo, Controller.updateTodo,
      Controller.deleteTodo, Todo.update, Todo.delete, Todo.create, Todo.new;
    unfold_M; repeat case_match; simplify_eq; cbn [snd]; wsimpl; lia.
Qed.

Lemma handle_route r :
  ∃ m id req_body, ∀ w, handle r w = route m id req_body w.
Proof.
  destruct r as [|id|b|id b|id].
  - by exists GET, None, ∅.
  - by exists GET, (Some id), ∅.
  - by exists POST, None, b.
  - by exists PUT, (Some id), b.
  - by exists DELETE, (Some id), ∅.
Qed.

Lemma serve_cons r requests w :
  serve (r :: requests) w = serve requests (handle r w).2.
Proof.
  unfold serve. cbn [for_each]. unfold_M.
  destruct (handle_route r) as (m & id & b & ->).
  destruct (route_returns m id b w) as (res & w' & ->). done.
Qed.

Lemma serve_spec requests w :
  wf_store w →
  (serve requests w).1 = Ok tt ∧
  wf_store (serve requests w).2 ∧
  nextId w <= nextId (serve requests w).2.
Proof.
  revert w. induction requests as [|r requests IH]; intros w Hwf.
  - split_and!; [done|done|]. cbn. lia.
  - rewrite serve_cons. destruct (handle_route r) as (m & id & b & Hr).
    rewrite Hr.
    destruct (IH (route m id b w).2) as (H1 & H2 & H3).
    { by apply wf_store_route. }
    split_and!; [done|done|].
    pose proof (route_nextId m id b w). lia.
Qed.

(** X7.  Whatever sequence of requests the handlers are called with, from
    a well-formed store, no handler throws and the store stays well
    formed: the ids of the stored todos are distinct numbers below the
    counter, and the counter never decreases. *)
Theorem store_well_formed_after_requests (w : World) (requests : list request) :
  wf_store w →
  ∃ w' : World,
    serve requests w = (Ok tt, w') ∧
    NoDup (ids (todos w')) ∧
    Forall (λ todo : obj, ∃ n, todo !! "id" = Some (VNum n) ∧ n < nextId w')
           (todos w') ∧
    nextId w <= nextId w'.
Proof.
  intros Hwf. destruct (serve_spec requests w Hwf) as (H1 & [H2 H3] & H4).
  exists (serve requests w).2. split_and!; [|done..].
  destruct (serve requests w) as [r w']. cbn in H1. by subst.
Qed.

Lemma store_well_formed_after_requests_witness :
  ∃ w' : World,
    serve [Req_createTodo {["title" := VStr "a"]}; Req_createTodo {["title" := VStr "b"]};
           Req_deleteTodo "1"; Req_createTodo {["title" := VStr "c"]}]
          (initial new_year 0) = (Ok tt, w') ∧
    NoDup (ids (todos w')).
Proof.
  destruct (store_well_formed_after_requests (initial new_year 0)
    [Req_createTodo {["title" := VStr "a"]}; Req_createTodo {["title" := VStr "b"]};
     Req_deleteTodo "1"; Req_createTodo {["title" := VStr "c"]}]
    (wf_store_initial new_year 0)) as (w' & H1 & H2 & _).
  exists w'. split; [exact H1|exact H2].
Defined.

(** X8.  An id is never given twice: after any sequence of requests, a
    newly created todo has an id different from that of every todo that
    was in the store before them, deleted since or not. *)
Theorem ids_never_reused (w : World) (T : obj) (requests : list request)
    (todoData : obj) :
  wf_store w → T ∈ todos w →
  ∃ (newTodo : obj) (w' : World),
    Todo.create todoData (serve requests w).2 = (Ok newTodo, w') ∧
    newTodo !! "id" ≠ T !! "id".
Proof.
  intros Hwf Hin.
  destruct (serve_spec requests w Hwf) as (_ & _ & Hle).
  rewrite Todo_create_eq. cbn zeta. eexists _, _. split; [reflexivity|].
  destruct (new_todo_lookup (nextId (serve requests w).2)
              (clock (serve requests w).2) todoData) as (Hid & _).
  rewrite Hid. destruct Hwf as [_ Hlt]. rewrite Forall_forall in Hlt.
  destruct (Hlt T Hin) as (n & -> & Hn). intros [=]. lia.
Qed.

Lemma ids_never_reused_witness :
  let T : obj := {["id" := VNum 1; "title" := VStr "a"]} in
  let w := set_todos [T] (set_nextId 2 (initial new_year 0)) in
  ∃ (newTodo : obj) (w' : World),
    Todo.create {["title" := VStr "b"]} (serve [Req_deleteTodo "1"] w).2
      = (Ok newTodo, w') ∧
    newTodo !! "id" ≠ Some (VNum 1).
Proof.
  intros T w.
  destruct (ids_never_reused w T [Req_deleteTodo "1"] {["title" := VStr "b"]})
    as (t & w' & Hrun & Hid).
  - split.
    + apply NoDup_singleton.
    + apply Forall_singleton. exists 1. split; [reflexivity|]. simpl. lia.
  - apply list_elem_of_here.
  - exists t, w'. split; [exact Hrun|exact Hid].
Defined.

(** ** The order of the store *)

Lemma in_creation_order_create todoData w :
  in_creation_order w → in_creation_order (Todo.create todoData w).2.
Proof.
  intros [Hs Hlt]. rewrite Todo_create_eq. cbn zeta. cbn [snd].
  destruct (new_todo_lookup (nextId w) (clock w) todoData) as (Hid & _).
  assert (Hnum : id_number (new_todo (nextId w) (clock w) todoData) = nextId w).
  { unfold id_number. by rewrite Hid. }
  unfold in_creation_order. wsimpl. split.
  - rewrite fmap_app. apply StronglySorted_app. split_and!; [|done|].
    + intros x1 x2 (t & -> & Ht)%list_elem_of_fmap (t2 & -> & Ht2)%list_elem_of_fmap.
      apply list_elem_of_singleton in Ht2 as ->. rewrite Hnum.
      rewrite Forall_forall in Hlt. by apply Hlt.
    + repeat constructor.
  - apply Forall_app. split.
    + eapply Forall_impl; [exact Hlt|]. cbn. intros. lia.
    + apply Forall_singleton. rewrite Hnum. lia.
Qed.

Lemma in_creation_order_update id updates w :
  in_creation_order w → in_creation_order (Todo.update id updates w).2.
Proof.
  intros [Hs Hlt]. unfold Todo.update. unfold_M.
  destruct (findIndex _ _) as [i|] eqn:Hi; [|by split].
  destruct (parseInt id) as [n|] eqn:Hp.
  2:{ apply findIndex_Some in Hi as (? & _ & ? & _). done. }
  destruct (findIndex_Some _ _ _ Hi) as (old & Hold & Holdid & _).
  apply strict_eq_true in Holdid.
  cbn [snd]. rewrite Hold.
  cbn [fmap option_fmap option_map set_prop default from_option].
  unfold Datatypes.id.
  assert (Hnum : id_number (<["id" := VNum n]> (spread old updates)) = id_number old).
  { unfold id_number. by rewrite lookup_insert_eq, Holdid. }
  unfold in_creation_order. wsimpl. split.
  - rewrite list_fmap_insert, Hnum, list_insert_id; [done|].
    by rewrite list_lookup_fmap, Hold.
  - apply Forall_insert; [done|]. rewrite Hnum.
    rewrite Forall_forall in Hlt. apply Hlt. by eapply list_elem_of_lookup_2.
Qed.

Lemma StronglySorted_delete {A} (R : A → A → Prop) (l : list A) i :
  StronglySorted R l → StronglySorted R (delete i l).
Proof.
  intros Hs. destruct (l !! i) as [x|] eqn:Hi.
  - rewrite delete_take_drop. rewrite <- (take_drop_middle l i x Hi) in Hs.
    apply StronglySorted_app in Hs as (H1 & H2 & H3).
    apply StronglySorted_inv in H3 as [H3 _].
    apply StronglySorted_app. split_and!; [|done..].
    intros x1 x2 Hx1 Hx2. apply H1; [done|by right].
  - apply lookup_ge_None in Hi.
    by rewrite delete_take_drop, take_ge, drop_ge, app_nil_r by lia.
Qed.

Lemma in_creation_order_delete id w :
  in_creation_order w → in_creation_order (Todo.delete id w).2.
Proof.
  intros [Hs Hlt]. unfold Todo.delete. unfold_M.
  destruct (findIndex _ _) as [i|] eqn:Hi; [|by split].
  unfold in_creation_order, splice1. cbn [snd]. wsimpl. split.
  - rewrite list_fmap_delete. by apply StronglySorted_delete.
  - by apply Forall_delete.
Qed.

Lemma in_creation_order_route m id req_body w :
  in_creation_order w → in_creation_order (route m id req_body w).2.
Proof.
  intros Hwf.
  destruct m, id as [id|]; cbn [route];
    unfold Controller.getAllTodos, Controller.getTodoById, Todo.getAll,
      Todo.findById, Controller.createTodo, Controller.updateTodo,
      Controller.deleteTodo; unfold_M; try exact Hwf.
  - destruct (find _ _); exact Hwf.
  - destruct (negb _); [exact Hwf|].
    pose proof (in_creation_order_create req_body w Hwf) as H.
    rewrite Todo_create_eq in *. exact H.
  - pose proof (in_creation_order_update id req_body w Hwf) as H.
    destruct (Todo.update id req_body w) as [[[?|]|?] ?]; exact H.
  - pose proof (in_creation_order_delete id w Hwf) as H.
    destruct (Todo.delete id w) as [[[|]|?] ?]; exact H.
Qed.

Lemma in_creation_order_serve requests w :
  in_creation_order w → in_creation_order (serve requests w).2.
Proof.
  revert w. induction requests as [|r requests IH]; intros w Hw; [done|].
  rewrite serve_cons. apply IH. destruct (handle_route r) as (m & id & b & ->).
  by apply in_creation_order_route.
Qed.

(** X9.  From the empty store that the server starts with, and after any
    sequence of requests, the todos are stored by strictly increasing
    id, which is the order of their creation; [getAllTodos] answers with
    the store in that order. *)
Theorem todos_listed_in_creation_order (requests : list request) (now zone : Z) :
  let w := (serve requests (initial now zone)).2 in
  StronglySorted Z.lt (id_number <$> todos w) ∧
  Controller.getAllTodos w = (Ok (mkResponse 200 (BList (todos w))), w).
Proof.
  intros w. split; [|reflexivity].
  apply (in_creation_order_serve requests (initial now zone)).
  split; [constructor|apply Forall_nil_2].
Qed.

(** ** The requests of storage.js, whatever the transport does *)

(** [addTask] and [updateTask] end in a read of the task list, after the
    request has reached the server or not. *)
Lemma addTask_eq task w :
  Storage.addTask task w =
  Storage.getTasks
    (if delivered w && truthy (task !! "title")
     then (Todo.create task (step_net w)).2 else step_net w).
Proof.
  unfold Storage.addTask, fetch, route. unfold_M.
  destruct w as [td nid ls ck tz nt cd sd my cal]. unfold delivered, step_net. wsimpl.
  destruct nt as [|[] rest]; wsimpl; cbn [andb tail]; unfold_M; try reflexivity;
    rewrite createTodo_eq, Todo_create_eq; destruct (truthy (task !! "title"));
    cbn zeta; cbn [snd ok status negb andb Z.leb Z.compare Pos.compare Pos.compare_cont];
    rewrite ?getTasks_eq; reflexivity.
Qed.

Lemma updateTask_eq taskId updatedTask w :
  Storage.updateTask taskId updatedTask w =
  Storage.getTasks
    (if delivered w
     then (Todo.update (ToString taskId) updatedTask (step_net w)).2
     else step_net w).
Proof.
  unfold Storage.updateTask, fetch, route, Controller.updateTodo. unfold_M.
  destruct w as [td nid ls ck tz nt cd sd my cal]. unfold delivered, step_net. wsimpl.
  destruct nt as [|[] rest]; wsimpl; cbn [tail]; unfold_M; try reflexivity;
    destruct (Todo.update _ _ _) as [[[u|]|e] w1];
    cbn [snd ok status negb andb Z.leb Z.compare Pos.compare Pos.compare_cont];
    rewrite ?getTasks_eq; reflexivity.
Qed.

(** X10.  When the create request reaches the server with a truthy title,
    [addTask] appends one todo to the store.  The server sets its id
    (the counter), [completed] (false) and [createdAt] (its clock), and
    takes the title, the description and the due date from the task
    submitted; a category, an id or a status that the client submits is
    not stored.  The result is the list that the closing read
    returns, and the bin is untouched. *)
Theorem addTask_stores_server_fields (w : World) (task : obj) :
  delivered w = true → truthy (task !! "title") = true →
  ∃ (l : list obj) (newTodo : obj) (w' : World),
    Storage.addTask task w = (Ok l, w') ∧
    todos w' = todos w ++ [newTodo] ∧
    l = (if served (step_net w) then todos w' else []) ∧
    newTodo !! "id" = Some (VNum (nextId w)) ∧
    newTodo !! "completed" = Some (VBool false) ∧
    newTodo !! "createdAt" = Some (VStr (Date.toISOString (clock w))) ∧
    newTodo !! "category" = None ∧
    newTodo !! "title" = task !! "title" ∧
    newTodo !! "description" = Some (default (VStr "") (task !! "description")) ∧
    newTodo !! "dueDate" = Some (default VNull (task !! "dueDate")) ∧
    bin w' = bin w.
Proof.
  intros Hd Ht. rewrite addTask_eq, Hd, Ht. cbn [andb].
  rewrite Todo_create_eq. cbn zeta. cbn [snd]. rewrite getTasks_eq.
  destruct (new_todo_lookup (nextId w) (clock w) task)
    as (Hid & Htitle & Hdesc & Hdue & Hcompl & Hcreated & Hcat).
  eexists _, _, _. split; [reflexivity|]. wsimpl.
  split_and!; try done.
Qed.

Lemma addTask_stores_server_fields_witness :
  ∃ (l : list obj) (newTodo : obj) (w' : World),
    Storage.addTask
      {["id" := VNum 7; "title" := VStr "a"; "category" := VStr "work";
        "completed" := VBool true]} (initial new_year 0) = (Ok l, w') ∧
    todos w' = [newTodo] ∧
    newTodo !! "id" = Some (VNum 1) ∧
    newTodo !! "completed" = Some (VBool false) ∧
    newTodo !! "category" = None.
Proof.
  destruct (addTask_stores_server_fields (initial new_year 0)
      {["id" := VNum 7; "title" := VStr "a"; "category" := VStr "work";
        "completed" := VBool true]})
    as (l & t & w' & Hrun & Htodos & _ & Hid & Hc & _ & Hcat & _).
  - reflexivity.
  - reflexivity.
  - exists l, t, w'. split_and!; [exact Hrun|exact Htodos|exact Hid|exact Hc|exact Hcat].
Defined.

Lemma addTask_not_taken task w :
  delivered w = false ∨ truthy (task !! "title") = false →
  Storage.addTask task w
  = (Ok (if served (step_net w) then todos w else []), step_net (step_net w)).
Proof.
  intros H. rewrite addTask_eq.
  assert (delivered w && truthy (task !! "title") = false) as ->.
  { destruct H as [-> | ->]; [done|apply andb_false_r]. }
  by rewrite getTasks_eq.
Qed.

(** X11.  When the create request does not reach the server, or the
    task's title is missing or falsy, [addTask] throws nothing, leaves
    the store, the counter and the bin as they are, and returns what the
    closing read of the task list returns. *)
Theorem addTask_rejected (w : World) (task : obj) :
  delivered w = false ∨ truthy (task !! "title") = false →
  ∃ w' : World,
    Storage.addTask task w = (Ok (if served (step_net w) then todos w else []), w') ∧
    todos w' = todos w ∧ nextId w' = nextId w ∧ bin w' = bin w.
Proof.
  intros H. rewrite addTask_not_taken by done. eexists. split; [reflexivity|]. done.
Qed.

Lemma addTask_rejected_witness :
  let T : obj := {["id" := VNum 1; "title" := VStr "a"]} in
  let w := set_todos [T] (set_nextId 2 (initial new_year 0)) in
  (∃ w' : World,
     Storage.addTask {["title" := VStr ""; "dueDate" := VStr "2024-02-14"]} w
       = (Ok [T], w') ∧ todos w' = [T]) ∧
  (∃ w' : World,
     Storage.addTask {["title" := VStr "b"]} (set_net [NetDown; NetDown] w)
       = (Ok [], w') ∧ todos w' = [T]).
Proof.
  intros T w. split.
  - destruct (addTask_rejected w {["title" := VStr ""; "dueDate" := VStr "2024-02-14"]})
      as (w' & Hrun & Ht & _); [right; reflexivity|].
    exists w'. split; [exact Hrun|exact Ht].
  - destruct (addTask_rejected (set_net [NetDown; NetDown] w) {["title" := VStr "b"]})
      as (w' & Hrun & Ht & _); [left; reflexivity|].
    exists w'. split; [exact Hrun|exact Ht].
Defined.

(** ** Toggling *)

Lemma toggled_merge (T : obj) n (v : value) :
  T !! "id" = Some (VNum n) →
  <["id" := VNum n]> (spread T (<["completed" := v]> T)) = <["completed" := v]> T.
Proof.
  intros Hid. apply map_eq. intros k.
  destruct (decide (k = "id")) as [->|Hk].
  - rewrite lookup_insert_eq, lookup_insert_ne by done. by rewrite Hid.
  - rewrite lookup_insert_ne, lookup_spread by done.
    destruct (decide (k = "completed")) as [->|Hc].
    + by rewrite lookup_insert_eq.
    + rewrite lookup_insert_ne by done. by destruct (T !! k).
Qed.

Lemma toggleTaskStatus_eq w :
  ∀ taskId,
  Storage.toggleTaskStatus taskId w =
  match find (λ task : obj, strict_eq (task !! "id") (Some taskId))
             (if served w then todos w else []) with
  | Some task =>
      let updatedTask :=
        <["completed" := VBool (negb (truthy (task !! "completed")))]> task in
      Storage.getTasks (Storage.updateTask taskId updatedTask (step_net w)).2
  | None => (Ok (if served w then todos w else []), step_net w)
  end.
Proof.
  intros taskId. unfold Storage.toggleTaskStatus. unfold_M. rewrite getTasks_eq.
  destruct (find _ _) as [task|]; [|done].
  rewrite updateTask_eq, !getTasks_eq. done.
Qed.

Lemma toggleTaskStatus_found (w : World) (T : obj) (n : Z) i :
  net_ok w → parseInt (String_of_num n) = Some n →
  find (λ task : obj, strict_eq (task !! "id") (Some (VNum n))) (todos w) = Some T →
  findIndex (λ task : obj, strict_eq (task !! "id") (Some (VNum n))) (todos w) = Some i →
  todos w !! i = Some T → T !! "id" = Some (VNum n) →
  let T' := <["completed" := VBool (negb (truthy (T !! "completed")))]> T in
  let l' := <[i := T']> (todos w) in
  Storage.toggleTaskStatus (VNum n) w =
  (Ok l', set_todos l' (step_net (step_net (step_net (step_net w))))).
Proof.
  intros Hnet Hp Hfind Hi HT Hid T' l'.
  pose proof (net_ok_served _ Hnet) as Hs1.
  pose proof (net_ok_step _ Hnet) as Hnet2.
  pose proof (net_ok_served _ Hnet2) as Hs2.
  pose proof (net_ok_step _ Hnet2) as Hnet3.
  pose proof (net_ok_served _ Hnet3) as Hs3.
  pose proof (net_ok_step _ Hnet3) as Hnet4.
  pose proof (net_ok_served _ Hnet4) as Hs4.
  rewrite toggleTaskStatus_eq, Hs1, Hfind. cbn zeta.
  rewrite updateTask_eq.
  assert (Hd : delivered (step_net w) = true).
  { unfold served, delivered in *. by destruct (net (step_net w)) as [|[] ?]. }
  rewrite Hd. cbn [ToString].
  rewrite (Todo_update_found _ n i T) by done.
  cbn zeta. cbn [snd]. rewrite toggled_merge by done. fold T'. fold l'.
  rewrite !getTasks_eq. cbn [snd].
  unfold served in *. wsimpl. rewrite Hs4. reflexivity.
Qed.

(** X12.  With a well-formed store and a working transport,
    [toggleTaskStatus] on the id of a stored task [T] replaces [T], in
    its place, by [T] with [completed] negated, changes nothing else in
    the store, and returns the updated store. *)
Theorem toggleTaskStatus_flips (w : World) (T : obj) (n : Z) :
  wf_store w → net_ok w → T ∈ todos w → T !! "id" = Some (VNum n) →
  ∃ (i : nat) (w' : World),
    Storage.toggleTaskStatus (VNum n) w = (Ok (todos w'), w') ∧
    todos w !! i = Some T ∧
    todos w' =
      <[i := <["completed" := VBool (negb (truthy (T !! "completed")))]> T]> (todos w) ∧
    nextId w' = nextId w ∧ bin w' = bin w.
Proof.
  intros [Hnd _] Hnet Hin Hid.
  destruct (findIndex_unique (todos w) T (VNum n) Hnd Hin Hid) as (i & Hi & Hl).
  pose proof (find_unique (todos w) T (VNum n) Hnd Hin Hid) as Hfind.
  rewrite (toggleTaskStatus_found w T n i) by (done || apply parseInt_String_of_num).
  cbn zeta. eexists i, (set_todos _ _). split; [reflexivity|]. done.
Qed.

Lemma toggleTaskStatus_flips_witness :
  let T : obj := {["id" := VNum 1; "title" := VStr "a"; "completed" := VBool false]} in
  let w := set_todos [T] (set_nextId 2 (initial new_year 0)) in
  ∃ w' : World,
    Storage.toggleTaskStatus (VNum 1) w = (Ok (todos w'), w') ∧
    todos w' = [<["completed" := VBool true]> T].
Proof.
  intros T w.
  destruct (toggleTaskStatus_flips w T 1) as (i & w' & Hrun & Hi & Htodos & _).
  - split.
    + apply NoDup_singleton.
    + apply Forall_singleton. exists 1. split; [reflexivity|]. simpl. lia.
  - apply Forall_nil_2.
  - apply list_elem_of_here.
  - reflexivity.
  - exists w'. split; [exact Hrun|]. rewrite Htodos.
    destruct i as [|i]; [reflexivity|]. destruct i; discriminate Hi.
Defined.

(** X13.  Toggling the same task twice restores the store: after the
    first call the task has the opposite status, after the second the
    store is what it was. *)
Theorem toggleTaskStatus_twice (w : World) (T : obj) (n : Z) (b : bool) :
  wf_store w → net_ok w → T ∈ todos w → T !! "id" = Some (VNum n) →
  T !! "completed" = Some (VBool b) →
  ∃ (T1 : obj) (w1 w2 : World),
    Storage.toggleTaskStatus (VNum n) w = (Ok (todos w1), w1) ∧
    T1 ∈ todos w1 ∧ T1 !! "id" = Some (VNum n) ∧
    T1 !! "completed" = Some (VBool (negb b)) ∧
    Storage.toggleTaskStatus (VNum n) w1 = (Ok (todos w2), w2) ∧
    todos w2 = todos w.
Proof.
  intros [Hnd Hlt] Hnet Hin Hid Hc.
  destruct (findIndex_unique (todos w) T (VNum n) Hnd Hin Hid) as (i & Hi & Hl).
  pose proof (find_unique (todos w) T (VNum n) Hnd Hin Hid) as Hfind.
  pose proof (parseInt_String_of_num n) as Hp.
  pose proof (toggleTaskStatus_found w T n i Hnet Hp Hfind Hi Hl Hid) as Hrun.
  cbn zeta in Hrun. rewrite Hc in Hrun. cbn [truthy] in Hrun.
  set (T1 := <["completed" := VBool (negb b)]> T) in *.
  set (w1 := set_todos (<[i := T1]> (todos w))
               (step_net (step_net (step_net (step_net w))))) in *.
  assert (Hid1 : T1 !! "id" = Some (VNum n)).
  { unfold T1. by rewrite lookup_insert_ne. }
  assert (Hl1 : todos w1 !! i = Some T1).
  { unfold w1. wsimpl. apply list_lookup_insert_eq. by apply lookup_lt_Some in Hl. }
  assert (Hin1 : T1 ∈ todos w1) by (by eapply list_elem_of_lookup_2).
  assert (Hnd1 : NoDup (ids (todos w1))).
  { unfold w1. wsimpl. erewrite ids_insert; [done..|]. by rewrite Hid1, Hid. }
  assert (Hnet1 : net_ok w1).
  { do 4 apply net_ok_step in Hnet. exact Hnet. }
  destruct (findIndex_unique (todos w1) T1 (VNum n) Hnd1 Hin1 Hid1) as (j & Hj & Hlj).
  assert (j = i) as ->.
  { eapply (NoDup_lookup (ids (todos w1))); [done| |].
    - unfold ids. rewrite list_lookup_fmap, Hlj. simpl. done.
    - unfold ids. rewrite list_lookup_fmap, Hl1. simpl. done. }
  pose proof (find_unique (todos w1) T1 (VNum n) Hnd1 Hin1 Hid1) as Hfind1.
  pose proof (toggleTaskStatus_found w1 T1 n i Hnet1 Hp Hfind1 Hj Hl1 Hid1) as Hrun1.
  cbn zeta in Hrun1.
  eexists T1, w1, (set_todos _ _). split_and!; [exact Hrun|done|done| |exact Hrun1|].
  - unfold T1. by rewrite lookup_insert_eq.
  - wsimpl. unfold w1. wsimpl. rewrite list_insert_insert_eq.
    unfold T1 at 1. rewrite lookup_insert_eq. cbn [truthy]. rewrite negb_involutive.
    unfold T1. rewrite insert_insert_eq.
    rewrite (insert_id T) by done. by apply list_insert_id.
Qed.

Lemma toggleTaskStatus_twice_witness :
  let T : obj := {["id" := VNum 1; "title" := VStr "a"; "completed" := VBool false]} in
  let w := set_todos [T] (set_nextId 2 (initial new_year 0)) in
  ∃ w1 w2 : World,
    Storage.toggleTaskStatus (VNum 1) w = (Ok (todos w1), w1) ∧
    Storage.toggleTaskStatus (VNum 1) w1 = (Ok (todos w2), w2) ∧
    todos w2 = [T].
Proof.
  intros T w.
  destruct (toggleTaskStatus_twice w T 1 false)
    as (T1 & w1 & w2 & H1 & _ & _ & _ & H2 & H3).
  - split.
    + apply NoDup_singleton.
    + apply Forall_singleton. exists 1. split; [reflexivity|]. simpl. lia.
  - apply Forall_nil_2.
  - apply list_elem_of_here.
  - reflexivity.
  - reflexivity.
  - exists w1, w2. split_and!; [exact H1|exact H2|exact H3].
Defined.

(** X14.  When the first read does not come back, or no task read has the
    id, [toggleTaskStatus] sends no update: it consumes one request, and
    returns the list it read. *)
Theorem toggleTaskStatus_absent_noop (w : World) (taskId : value) :
  served w = false ∨ (∀ task : obj, task ∈ todos w → task !! "id" ≠ Some taskId) →
  Storage.toggleTaskStatus taskId w
    = (Ok (if served w then todos w else []), step_net w).
Proof.
  intros H. rewrite toggleTaskStatus_eq.
  assert (Hfind : find (λ task : obj, strict_eq (task !! "id") (Some taskId))
                    (if served w then todos w else []) = None).
  { apply find_None. intros x Hx. apply strict_eq_false.
    destruct H as [Hs|Habs]; [rewrite Hs in Hx; by apply elem_of_nil in Hx|].
    destruct (served w); [by apply Habs|by apply elem_of_nil in Hx]. }
  by rewrite Hfind.
Qed.

Lemma toggleTaskStatus_absent_noop_witness :
  let T : obj := {["id" := VNum 1; "title" := VStr "a"]} in
  let w := set_todos [T] (set_nextId 2 (initial new_year 0)) in
  Storage.toggleTaskStatus (VNum 7) w = (Ok [T], step_net w) ∧
  Storage.toggleTaskStatus (VNum 1) (set_net [NetDown] w)
    = (Ok [], set_net [] w).
Proof.
  intros T w. split.
  - apply (toggleTaskStatus_absent_noop w (VNum 7)). right.
    intros task ->%list_elem_of_singleton. discriminate.
  - apply (toggleTaskStatus_absent_noop (set_net [NetDown] w) (VNum 1)).
    left. reflexivity.
Defined.

(** ** Dates with tasks and tasks by date *)

Lemma getTasksByDate_eq date w :
  Storage.getTasksByDate date w =
  (Ok (filter (λ task : obj, task !! "dueDate" = Some date)
              (if served w then todos w else [])), step_net w).
Proof.
  unfold Storage.getTasksByDate. unfold_M. rewrite getTasks_eq, js_filter_spec.
  rewrite (list_filter_iff _ (λ task : obj, task !! "dueDate" = Some date)); [done|].
  intros x. apply strict_eq_true.
Qed.

(** X15.  For a non-empty date string, [getDatesWithTasks] lists the date
    exactly when [getTasksByDate] returns a task for it, on the same
    read of the store; [getTasksByDate] returns the tasks whose due date
    is that string, in the order of the store. *)
Theorem marked_date_has_tasks (w : World) (s : string) :
  s ≠ "" →
  ∃ (dates : list value) (tasks : list obj) (w' : World),
    Storage.getDatesWithTasks w = (Ok dates, w') ∧
    Storage.getTasksByDate (VStr s) w = (Ok tasks, w') ∧
    tasks = filter (λ task : obj, task !! "dueDate" = Some (VStr s))
                   (if served w then todos w else []) ∧
    (VStr s ∈ dates ↔ tasks ≠ []).
Proof.
  intros Hs. rewrite getDatesWithTasks_eq, getTasksByDate_eq.
  eexists _, _, _. split_and!; [reflexivity..|].
  set (l := if served w then todos w else []).
  destruct (datesOf_spec_acc l []) as [_ Hel]. cbn zeta in Hel.
  unfold datesOf. rewrite Hel. split.
  - intros [H|(task & Hin & Hdue & _)]; [by apply elem_of_nil in H|].
    intros Hnil.
    assert (Hf : task ∈ filter (λ task : obj, task !! "dueDate" = Some (VStr s)) l).
    { by apply list_elem_of_filter. }
    rewrite Hnil in Hf. by apply elem_of_nil in Hf.
  - intros Hne. right.
    destruct (filter _ l) as [|task rest] eqn:E; [done|].
    assert (Hf : task ∈ filter (λ task : obj, task !! "dueDate" = Some (VStr s)) l).
    { rewrite E. left. }
    apply list_elem_of_filter in Hf as [Hdue Hin].
    exists task. split_and!; [done..|].
    cbn [truthy]. apply negb_true_iff, String.eqb_neq. done.
Qed.

Lemma marked_date_has_tasks_witness :
  ∃ (dates : list value) (tasks : list obj) (w' : World),
    Storage.getDatesWithTasks due_dates_example = (Ok dates, w') ∧
    Storage.getTasksByDate (VStr "2024-01-05") due_dates_example = (Ok tasks, w') ∧
    (VStr "2024-01-05" ∈ dates ↔ tasks ≠ []).
Proof.
  destruct (marked_date_has_tasks due_dates_example "2024-01-05")
    as (dates & tasks & w' & H1 & H2 & _ & H3).
  - discriminate.
  - exists dates, tasks, w'. split_and!; [exact H1|exact H2|exact H3].
Defined.

(** ** The recycle bin *)

Lemma restoreTask_absent taskId w :
  (∀ task : obj, task ∈ bin w → task !! "id" ≠ Some taskId) →
  Storage.restoreTask taskId w = (Ok (bin w), w).
Proof.
  intros Habs. unfold Storage.restoreTask. unfold_M. rewrite getRecycledTasks_eq.
  assert (findIndex (λ task : obj, strict_eq (task !! "id") (Some taskId)) (bin w)
          = None) as ->; [|done].
  apply findIndex_None. intros x Hx. apply strict_eq_false. by apply Habs.
Qed.

(** X16.  When no entry of the bin has the id, [restoreTask] sends no
    request and writes nothing: it returns the bin and leaves the world
    as it is.  Ids are compared strictly, so the string "1" does not
    find the entry with the number 1. *)
Theorem restoreTask_absent_noop (w : World) (taskId : value) :
  (∀ task : obj, task ∈ bin w → task !! "id" ≠ Some taskId) →
  Storage.restoreTask taskId w = (Ok (bin w), w).
Proof. apply restoreTask_absent. Qed.

Lemma restoreTask_absent_noop_witness :
  let R : obj := {["id" := VNum 1; "title" := VStr "a"]} in
  let w := set_localStorage (Some [R]) (initial new_year 0) in
  Storage.restoreTask (VNum 2) w = (Ok [R], w) ∧
  Storage.restoreTask (VStr "1") w = (Ok [R], w).
Proof.
  intros R w. split.
  - apply (restoreTask_absent_noop w (VNum 2)).
    intros task ->%list_elem_of_singleton. discriminate.
  - apply (restoreTask_absent_noop w (VStr "1")).
    intros task ->%list_elem_of_singleton. discriminate.
Defined.

(** X17.  After [permanentlyDeleteTask] of an id, and after
    [emptyRecycleBin], [restoreTask] of that id restores nothing: it
    returns the bin as it is and sends no request.  Neither of the two
    touches the store or sends a request itself. *)
Theorem permanent_deletion_is_final (w : World) (taskId : value) :
  let w1 := (Storage.permanentlyDeleteTask taskId w).2 in
  let w2 := (Storage.emptyRecycleBin w).2 in
  Storage.restoreTask taskId w1 = (Ok (bin w1), w1) ∧
  Storage.restoreTask taskId w2 = (Ok [], w2) ∧
  todos w1 = todos w ∧ todos w2 = todos w ∧ net w1 = net w ∧ net w2 = net w.
Proof.
  intros w1 w2. split_and!.
  - apply restoreTask_absent. unfold w1.
    rewrite permanentlyDeleteTask_eq. cbn zeta. cbn [snd].
    rewrite bin_set_localStorage. intros task Htask.
    by apply list_elem_of_filter in Htask as [? _].
  - apply (restoreTask_absent taskId w2). intros task Htask.
    by apply elem_of_nil in Htask.
  - unfold w1. by rewrite permanentlyDeleteTask_eq.
  - reflexivity.
  - unfold w1. by rewrite permanentlyDeleteTask_eq.
  - reflexivity.
Qed.

(** [deleteTask] on a task that the first read returns. *)
Lemma deleteTask_found (w : World) (T : obj) (n : Z) i :
  served w = true →
  find (λ task : obj, strict_eq (task !! "id") (Some (VNum n))) (todos w) = Some T →
  findIndex (λ task : obj, strict_eq (task !! "id") (Some (VNum n))) (todos w) = Some i →
  let R := <["deletedAt" := VStr (Date.toISOString (clock w))]> T in
  ∃ (l : list obj) (w' : World),
    Storage.deleteTask (VNum n) w = (Ok l, w') ∧
    bin w' = bin w ++ [R] ∧
    todos w' = (if delivered (step_net w) then splice1 i (todos w) else todos w) ∧
    nextId w' = nextId w ∧
    l = (if served (step_net (step_net w)) then todos w' else []).
Proof.
  intros Hs Hfind Hi R.
  unfold Storage.deleteTask. unfold_M. rewrite getTasks_eq, Hs, Hfind.
  rewrite getRecycledTasks_eq. unfold Storage.setRecycledTasks. unfold_M.
  fold R.
  unfold fetch, route, Controller.deleteTodo. unfold_M.
  destruct w as [td nid ls ck tz nt cd sd my cal].
  unfold delivered, served, step_net, bin in *. wsimpl.
  pose proof (parseInt_String_of_num n) as Hp.
  destruct nt as [|o1 [|[] rest]]; wsimpl; cbn [tail]; unfold_M;
    rewrite ?(Todo_delete_found _ n i) by done;
    cbn [negb ok status andb Z.leb Z.compare Pos.compare Pos.compare_cont];
    rewrite ?getTasks_eq; eexists _, _; (split; [reflexivity|]);
    unfold served; wsimpl; done.
Qed.

(** X18.  [deleteTask] writes the bin before it sends the DELETE request.
    When the first read is served and returns the task [T], the bin
    gains [T] stamped with [deletedAt], whatever happens to the DELETE
    request; the store loses [T] when the request reaches the server,
    and keeps it, beside the copy in the bin, when it does not. *)
Theorem deleteTask_recycles_before_deleting (w : World) (T : obj) (n : Z) :
  wf_store w → served w = true → T ∈ todos w → T !! "id" = Some (VNum n) →
  ∃ (l : list obj) (w' : World),
    Storage.deleteTask (VNum n) w = (Ok l, w') ∧
    bin w' = bin w ++ [<["deletedAt" := VStr (Date.toISOString (clock w))]> T] ∧
    todos w' =
      (if delivered (step_net w)
       then filter (λ task : obj, task !! "id" ≠ Some (VNum n)) (todos w)
       else todos w) ∧
    nextId w' = nextId w.
Proof.
  intros [Hnd _] Hs Hin Hid.
  destruct (findIndex_unique (todos w) T (VNum n) Hnd Hin Hid) as (i & Hi & Hl).
  pose proof (find_unique (todos w) T (VNum n) Hnd Hin Hid) as Hfind.
  destruct (deleteTask_found w T n i Hs Hfind Hi) as (l & w' & Hrun & Hbin & Ht & Hn & _).
  exists l, w'. split_and!; [done|done| |done].
  rewrite Ht. destruct (delivered _); [|done].
  by apply (delete_unique_filter _ _ T).
Qed.

Lemma deleteTask_recycles_before_deleting_witness :
  let T : obj := {["id" := VNum 1; "title" := VStr "a"]} in
  let w := set_net [NetOk; NetDown]
             (set_todos [T] (set_nextId 2 (initial new_year 0))) in
  ∃ (l : list obj) (w' : World),
    Storage.deleteTask (VNum 1) w = (Ok l, w') ∧
    bin w' = [<["deletedAt" := VStr (Date.toISOString new_year)]> T] ∧
    todos w' = [T].
Proof.
  intros T w.
  destruct (deleteTask_recycles_before_deleting w T 1) as (l & w' & Hrun & Hbin & Ht & _).
  - split.
    + apply NoDup_singleton.
    + apply Forall_singleton. exists 1. split; [reflexivity|]. simpl. lia.
  - reflexivity.
  - apply list_elem_of_here.
  - reflexivity.
  - exists l, w'. split_and!; [exact Hrun|exact Hbin|exact Ht].
Defined.

(** [restoreTask] on an id that the bin holds. *)
Lemma restoreTask_found taskId (R : obj) i w :
  findIndex (λ task : obj, strict_eq (task !! "id") (Some taskId)) (bin w) = Some i →
  bin w !! i = Some R →
  Storage.restoreTask taskId w =
  let w1 := (Storage.addTask (delete "deletedAt" R) w).2 in
  (Ok (delete i (bin w)), set_localStorage (Some (delete i (bin w))) w1).
Proof.
  intros Hi HR. unfold Storage.restoreTask. unfold_M.
  rewrite getRecycledTasks_eq, Hi, HR. cbn [default from_option]. unfold Datatypes.id.
  rewrite addTask_eq, getTasks_eq. unfold Storage.setRecycledTasks. unfold_M. done.
Qed.

(** X19.  [restoreTask] removes the entry from the bin whatever [addTask]
    did: when the create request does not reach the server, or the
    entry's title is missing or falsy, the entry leaves the bin and the
    store is unchanged. *)
Theorem restoreTask_unsaved_entry_is_lost (w : World) (taskId : value) (R : obj) :
  find (λ task : obj, strict_eq (task !! "id") (Some taskId)) (bin w) = Some R →
  delivered w = false ∨ truthy (R !! "title") = false →
  ∃ (i : nat) (w' : World),
    Storage.restoreTask taskId w = (Ok (bin w'), w') ∧
    bin w !! i = Some R ∧ bin w' = delete i (bin w) ∧
    S (length (bin w')) = length (bin w) ∧
    todos w' = todos w ∧ nextId w' = nextId w.
Proof.
  intros Hfind Hfail.
  rewrite find_findIndex in Hfind.
  destruct (findIndex _ (bin w)) as [i|] eqn:Hi; [|done]. cbn in Hfind.
  rewrite (restoreTask_found taskId R i) by done. cbn zeta.
  rewrite addTask_not_taken.
  2:{ destruct Hfail as [?|?]; [by left|right]. by rewrite lookup_delete_ne. }
  cbn [snd].
  eexists i, (set_localStorage _ _). rewrite bin_set_localStorage.
  split_and!; [reflexivity|done|done| |done|done].
  rewrite length_delete by (by eexists). apply lookup_lt_Some in Hfind. lia.
Qed.

Lemma restoreTask_unsaved_entry_is_lost_witness :
  let R : obj := {["id" := VNum 1; "title" := VStr "a";
                   "deletedAt" := VStr "2024-01-01T00:00:00.000Z"]} in
  let w := set_net [NetDown] (set_localStorage (Some [R]) (initial new_year 0)) in
  ∃ w' : World,
    Storage.restoreTask (VNum 1) w = (Ok [], w') ∧ bin w' = [] ∧ todos w' = [].
Proof.
  intros R w.
  destruct (restoreTask_unsaved_entry_is_lost w (VNum 1) R)
    as (i & w' & Hrun & Hi & Hbin & _ & Ht & _).
  - reflexivity.
  - left. reflexivity.
  - assert (bin w' = []) as Hnil.
    { rewrite Hbin. by destruct i as [|[|?]]. }
    exists w'. split_and!; [by rewrite Hrun, Hnil|exact Hnil|exact Ht].
Defined.

(** X20.  A restored task is a new todo: it gets the counter's value as
    its id, [completed] false and the time of the restore as
    [createdAt], whatever the bin entry held, and neither a category nor
    a [deletedAt]. *)
Theorem restoreTask_resets_id_and_status (w : World) (taskId : value) (R : obj) :
  find (λ task : obj, strict_eq (task !! "id") (Some taskId)) (bin w) = Some R →
  truthy (R !! "title") = true →
  delivered w = true →
  ∃ (restored : obj) (w' : World),
    Storage.restoreTask taskId w = (Ok (bin w'), w') ∧
    todos w' = todos w ++ [restored] ∧
    restored !! "id" = Some (VNum (nextId w)) ∧
    restored !! "completed" = Some (VBool false) ∧
    restored !! "createdAt" = Some (VStr (Date.toISOString (clock w))) ∧
    restored !! "category" = None ∧
    restored !! "deletedAt" = None.
Proof.
  intros Hfind Htitle Hdel.
  rewrite find_findIndex in Hfind.
  destruct (findIndex _ (bin w)) as [i|] eqn:Hi; [|done]. cbn in Hfind.
  rewrite (restoreTask_found taskId R i) by done. cbn zeta.
  rewrite addTask_eq, Hdel, lookup_delete_ne, Htitle by done. cbn [andb].
  rewrite Todo_create_eq, getTasks_eq. cbn zeta. cbn [snd].
  destruct (new_todo_lookup (nextId w) (clock w) (delete "deletedAt" R))
    as (Hid & _ & _ & _ & Hcompl & Hcreated & Hcat).
  eexists _, (set_localStorage _ _). rewrite bin_set_localStorage.
  split; [reflexivity|]. wsimpl. split_and!; try done.
  unfold new_todo, set_prop. destruct (delete "deletedAt" R !! "title");
    by simplify_map_eq.
Qed.

Lemma restoreTask_resets_id_and_status_witness :
  let R : obj := {["id" := VNum 1; "title" := VStr "a"; "completed" := VBool true;
                   "category" := VStr "work";
                   "deletedAt" := VStr "2024-01-01T00:00:00.000Z"]} in
  let w := set_nextId 2 (set_localStorage (Some [R]) (initial new_year 0)) in
  ∃ (restored : obj) (w' : World),
    Storage.restoreTask (VNum 1) w = (Ok (bin w'), w') ∧
    todos w' = [restored] ∧
    restored !! "id" = Some (VNum 2) ∧
    restored !! "completed" = Some (VBool false).
Proof.
  intros R w.
  destruct (restoreTask_resets_id_and_status w (VNum 1) R)
    as (restored & w' & Hrun & Ht & Hid & Hc & _).
  - reflexivity.
  - reflexivity.
  - reflexivity.
  - exists restored, w'. split_and!; [exact Hrun|exact Ht|exact Hid|exact Hc].
Defined.

(** ** Cleaning up the bin *)

(** X21.  [cleanupRecycleBin] keeps, in their order, exactly the entries
    of the bin whose [deletedAt] reads as a date later than the cutoff,
    30 times 24 hours before the clock, whatever the time zone and the
    length of the month; an entry without a readable [deletedAt] is
    dropped.  It touches neither the store nor the network, and a
    second call at the same time changes nothing. *)
Theorem cleanupRecycleBin_keeps_recent (w : World) :
  ∃ (kept : list obj) (w' : World),
    Storage.cleanupRecycleBin w = (Ok kept, w') ∧
    bin w' = kept ∧ todos w' = todos w ∧ net w' = net w ∧
    kept `sublist_of` bin w ∧
    (∀ task : obj,
       task ∈ kept ↔
       task ∈ bin w ∧
       ∃ t : Z, Date.of_value (task !! "deletedAt") = Some t ∧
                clock w - 30 * Date.msPerDay < t) ∧
    Storage.cleanupRecycleBin w' = (Ok kept, w').
Proof.
  rewrite cleanupRecycleBin_eq. cbn zeta. eexists _, _. split; [reflexivity|].
  rewrite cleanupRecycleBin_eq. cbn zeta. rewrite !bin_set_localStorage. wsimpl.
  split_and!; [done..|apply sublist_filter| |].
  - intros task. rewrite list_elem_of_filter. split.
    + intros [Hgt Hin]. split; [done|].
      destruct (Date.of_value (task !! "deletedAt")) as [t|]; [|done].
      exists t. split; [done|]. cbn in Hgt. by apply Z.ltb_lt.
    + intros [Hin (t & -> & Ht)]. split; [|done]. cbn. by apply Z.ltb_lt.
  - rewrite list_filter_filter_l by done. done.
Qed.

(** [deleteTask] when nothing fails. *)
Lemma deleteTask_bin (w : World) (T : obj) (n : Z) :
  wf_store w → served w = true → T ∈ todos w → T !! "id" = Some (VNum n) →
  bin (Storage.deleteTask (VNum n) w).2
  = bin w ++ [<["deletedAt" := VStr (Date.toISOString (clock w))]> T].
Proof.
  intros [Hnd _] Hs Hin Hid.
  destruct (findIndex_unique (todos w) T (VNum n) Hnd Hin Hid) as (i & Hi & Hl).
  pose proof (find_unique (todos w) T (VNum n) Hnd Hin Hid) as Hfind.
  destruct (deleteTask_found w T n i Hs Hfind Hi) as (l & w' & Hrun & Hbin & _).
  by rewrite Hrun.
Qed.

(** X22.  The time stamp that [deleteTask] writes is the one that
    [cleanupRecycleBin] reads: a task recycled when the clock stood at
    [t] is kept by a cleanup at the time [later] exactly when
    [later - t] is less than thirty days. *)
Theorem recycled_task_expires_after_30_days (w : World) (T : obj) (n later : Z) :
  wf_store w → served w = true → T ∈ todos w → T !! "id" = Some (VNum n) →
  0 <= Date.YearFromTime (clock w) <= 9999 →
  let R := <["deletedAt" := VStr (Date.toISOString (clock w))]> T in
  let w1 := (Storage.deleteTask (VNum n) w).2 in
  ∃ (kept : list obj) (w2 : World),
    R ∈ bin w1 ∧
    Storage.cleanupRecycleBin (set_clock later w1) = (Ok kept, w2) ∧
    (R ∈ kept ↔ later - clock w < 30 * Date.msPerDay).
Proof.
  intros Hwf Hs Hin Hid Hy R w1.
  assert (Hbin : bin w1 = bin w ++ [R]) by (by apply deleteTask_bin).
  rewrite cleanupRecycleBin_eq. cbn zeta. eexists _, _.
  split; [|split; [reflexivity|]].
  - rewrite Hbin. apply elem_of_app. right. left.
  - assert (bin (set_clock later w1) = bin w1) as -> by reflexivity.
    rewrite list_elem_of_filter, Hbin. wsimpl.
    unfold R at 1. rewrite lookup_insert_eq. cbn [Date.of_value].
    rewrite DateFacts.parse_toISOString by done. cbn [Date.gt].
    rewrite Z.ltb_lt. split.
    + intros [? _]. lia.
    + intros ?. split; [lia|]. apply elem_of_app. right. left.
Qed.

Lemma recycled_task_expires_after_30_days_witness :
  let T : obj := {["id" := VNum 1; "title" := VStr "a"]} in
  let w := set_todos [T] (set_nextId 2 (initial new_year 0)) in
  let R := <["deletedAt" := VStr (Date.toISOString new_year)]> T in
  let w1 := (Storage.deleteTask (VNum 1) w).2 in
  ∃ (kept : list obj) (w2 : World),
    Storage.cleanupRecycleBin (set_clock (new_year + 30 * Date.msPerDay) w1)
      = (Ok kept, w2) ∧
    R ∉ kept.
Proof.
  intros T w R w1.
  destruct (recycled_task_expires_after_30_days w T 1 (new_year + 30 * Date.msPerDay))
    as (kept & w2 & _ & Hrun & Hiff).
  - split.
    + apply NoDup_singleton.
    + apply Forall_singleton. exists 1. split; [reflexivity|]. simpl. lia.
  - reflexivity.
  - apply list_elem_of_here.
  - reflexivity.
  - vm_compute. split; discriminate.
  - exists kept, w2. split; [exact Hrun|].
    intros Hin. apply Hiff in Hin. simpl in Hin. lia.
Defined.

(** ** What escapes the storage module *)

Lemma Faulty_getRecycledTasks_eq ls w :
  Faulty.getRecycledTasks ls w =
  match getItem ls with
  | Some e => (Throw e, w)
  | None => (Ok (bin w), w)
  end.
Proof.
  unfold Faulty.getRecycledTasks. destruct (getItem ls); [done|].
  apply getRecycledTasks_eq.
Qed.

Lemma Faulty_setRecycledTasks_eq ls tasks w :
  Faulty.setRecycledTasks ls tasks w =
  match setItem ls with
  | Some e => (Throw e, w)
  | None => (Ok tt, set_localStorage (Some tasks) w)
  end.
Proof. unfold Faulty.setRecycledTasks. by destruct (setItem ls). Qed.

Lemma Faulty_throws_only ls taskId :
  throws_only ls (Faulty.getRecycledTasks ls) ∧
  throws_only ls (Faulty.permanentlyDeleteTask ls taskId) ∧
  throws_only ls (Faulty.emptyRecycleBin ls) ∧
  throws_only ls (Faulty.restoreTask ls taskId) ∧
  throws_only ls (Faulty.cleanupRecycleBin ls).
Proof.
  split_and!; intros w;
    unfold Faulty.permanentlyDeleteTask, Faulty.emptyRecycleBin,
      Faulty.restoreTask, Faulty.cleanupRecycleBin; unfold_M;
    rewrite ?Faulty_getRecycledTasks_eq;
    destruct (getItem ls) as [e1|] eqn:E1;
    try (right; eexists _, _; split; [reflexivity|by left]);
    try (destruct (findIndex _ _) as [i|]; [|left; by eexists _, _];
         rewrite addTask_eq, getTasks_eq);
    rewrite ?Faulty_setRecycledTasks_eq;
    destruct (setItem ls) as [e2|] eqn:E2;
    try (right; eexists _, _; split; [reflexivity|by right]);
    try (left; by eexists _, _).
Qed.

(** X23.  The seven functions of storage.js that wrap their body in
    [try]/[catch] never throw to their caller, whatever the transport
    and [localStorage] do.  The five that have no [try]/[catch] throw
    nothing but what an access to [localStorage] throws, and they do
    propagate it: a failing read of the key makes [getRecycledTasks],
    [permanentlyDeleteTask], [restoreTask] and [cleanupRecycleBin]
    throw, and a failing [setItem] makes [permanentlyDeleteTask],
    [emptyRecycleBin] and [cleanupRecycleBin] throw, with the world
    unchanged. *)
Theorem Storage_throws_only_storage_failures (ls : storage) :
  (returns Storage.getTasks ∧
   (∀ task : obj, returns (Storage.addTask task)) ∧
   (∀ (taskId : value) (updatedTask : obj),
      returns (Storage.updateTask taskId updatedTask)) ∧
   (∀ taskId : value, returns (Faulty.deleteTask ls taskId)) ∧
   (∀ taskId : value, returns (Storage.toggleTaskStatus taskId)) ∧
   (∀ date : value, returns (Storage.getTasksByDate date)) ∧
   returns Storage.getDatesWithTasks) ∧
  (∀ taskId : value,
     throws_only ls (Faulty.getRecycledTasks ls) ∧
     throws_only ls (Faulty.permanentlyDeleteTask ls taskId) ∧
     throws_only ls (Faulty.emptyRecycleBin ls) ∧
     throws_only ls (Faulty.restoreTask ls taskId) ∧
     throws_only ls (Faulty.cleanupRecycleBin ls)) ∧
  (∀ (e : exn) (taskId : value) (w : World),
     getItem ls = Some e →
     Faulty.getRecycledTasks ls w = (Throw e, w) ∧
     Faulty.permanentlyDeleteTask ls taskId w = (Throw e, w) ∧
     Faulty.restoreTask ls taskId w = (Throw e, w) ∧
     Faulty.cleanupRecycleBin ls w = (Throw e, w)) ∧
  (∀ (e : exn) (taskId : value) (w : World),
     getItem ls = None → setItem ls = Some e →
     Faulty.permanentlyDeleteTask ls taskId w = (Throw e, w) ∧
     Faulty.emptyRecycleBin ls w = (Throw e, w) ∧
     Faulty.cleanupRecycleBin ls w = (Throw e, w)).
Proof.
  split_and!.
  - intros w. rewrite getTasks_eq. by eexists _, _.
  - intros task w. rewrite addTask_eq, getTasks_eq. by eexists _, _.
  - intros taskId updatedTask w. rewrite updateTask_eq, getTasks_eq. by eexists _, _.
  - intros taskId w. destruct (Faulty_deleteTask_eq ls taskId w) as (w1 & -> & _).
    by eexists _, _.
  - intros taskId w. rewrite toggleTaskStatus_eq. destruct (find _ _); [|by eexists _, _].
    cbn zeta. rewrite getTasks_eq. by eexists _, _.
  - intros date w. rewrite getTasksByDate_eq. by eexists _, _.
  - intros w. rewrite getDatesWithTasks_eq. by eexists _, _.
  - apply Faulty_throws_only.
  - intros e taskId w He.
    unfold Faulty.permanentlyDeleteTask, Faulty.restoreTask, Faulty.cleanupRecycleBin.
    unfold_M. rewrite !Faulty_getRecycledTasks_eq, He. done.
  - intros e taskId w Hg Hs.
    unfold Faulty.permanentlyDeleteTask, Faulty.emptyRecycleBin, Faulty.cleanupRecycleBin.
    unfold_M. rewrite !Faulty_getRecycledTasks_eq, Hg. cbn beta iota.
    rewrite !Faulty_setRecycledTasks_eq, Hs. done.
Qed.

(** ** Strings of dates *)

Lemma string_app_cons c (a b : string) : String c a +:+ b = String c (a +:+ b).
Proof. reflexivity. Qed.

Lemma string_app_nil_r (s : string) : s +:+ "" = s.
Proof. induction s as [|c s IH]; [done|]. by rewrite string_app_cons, IH. Qed.

Lemma string_length_app (a b : string) :
  String.length (a +:+ b) = (String.length a + String.length b)%nat.
Proof.
  induction a as [|c a IH]; [done|].
  rewrite string_app_cons. cbn [String.length]. by rewrite IH.
Qed.

Lemma string_app_inj_len (a b s t : string) :
  String.length s = String.length t → a +:+ s = b +:+ t → a = b ∧ s = t.
Proof.
  intros Hlen. revert b. induction a as [|c a IH]; intros [|c' b] H.
  - done.
  - exfalso. change ("" +:+ s) with s in H. rewrite H, string_app_cons in Hlen.
    cbn [String.length] in Hlen. rewrite string_length_app in Hlen. lia.
  - exfalso. change ("" +:+ t) with t in H. rewrite <- H, string_app_cons in Hlen.
    cbn [String.length] in Hlen. rewrite string_length_app in Hlen. lia.
  - rewrite !string_app_cons in H. injection H as -> H.
    destruct (IH _ H) as [-> ->]. done.
Qed.

Lemma String_of_num_inj a b : String_of_num a = String_of_num b → a = b.
Proof.
  intros H. pose proof (parseInt_String_of_num a) as Ha.
  rewrite H, parseInt_String_of_num in Ha. congruence.
Qed.

(** Two digits, as [padStart(2, '0')] writes the months and the days. *)
Lemma padStart0_two_digits n :
  0 <= n <= 31 → padStart0 2 (String_of_num n) = Date.fixed_digits 2 n.
Proof.
  intros Hn.
  assert (Hall : Forall (λ n, padStart0 2 (String_of_num n) = Date.fixed_digits 2 n)
                        (seqZ 0 32)).
  { repeat (apply Forall_cons_2; [reflexivity|]). apply Forall_nil_2. }
  rewrite Forall_forall in Hall. apply Hall. apply elem_of_seqZ. lia.
Qed.

Lemma fixed_digits_2_inj a b r1 r2 :
  0 <= a <= 31 → 0 <= b <= 31 →
  Date.fixed_digits 2 a +:+ r1 = Date.fixed_digits 2 b +:+ r2 → a = b ∧ r1 = r2.
Proof.
  intros Ha Hb H.
  pose proof (DateFacts.read_digits_fixed_0 2 a r1) as H1.
  pose proof (DateFacts.read_digits_fixed_0 2 b r2) as H2.
  rewrite H, H2 in H1 by (change (10 ^ Z.of_nat 2) with 100; lia).
  assert (Some (b, r2) = Some (a, r1)) as [= -> ->]; [|done].
  apply H1. change (10 ^ Z.of_nat 2) with 100. lia.
Qed.

Lemma formatDate_fixed tza date :
  Calendar.formatDate tza date =
  String_of_num (Date.getFullYear tza date) +:+
    ("-" +:+ Date.fixed_digits 2 (Date.getMonth tza date + 1) +:+
     "-" +:+ Date.fixed_digits 2 (Date.getDate tza date) +:+ "").
Proof.
  unfold Calendar.formatDate. cbn zeta.
  pose proof (DateFacts.MonthFromTime_range (Date.LocalTime tza date)).
  pose proof (DateFacts.DateFromTime_range (Date.LocalTime tza date)).
  rewrite !padStart0_two_digits by (unfold Date.getMonth, Date.getDate; lia).
  by rewrite string_app_nil_r.
Qed.

(** X24.  [formatDate] gives two dates the same string exactly when
    [isSameDay] holds of them: the string determines the year, the month
    and the date. *)
Theorem isSameDay_iff_formatDate (zone date1 date2 : Z) :
  Calendar.isSameDay zone date1 date2 = true ↔
  Calendar.formatDate zone date1 = Calendar.formatDate zone date2.
Proof.
  unfold Calendar.isSameDay. rewrite !andb_true_iff, !Z.eqb_eq.
  split.
  - intros [[Hy Hm] Hd]. unfold Calendar.formatDate. cbn zeta. by rewrite Hy, Hm, Hd.
  - rewrite !formatDate_fixed. intros H.
    pose proof (DateFacts.MonthFromTime_range (Date.LocalTime zone date1)).
    pose proof (DateFacts.DateFromTime_range (Date.LocalTime zone date1)).
    pose proof (DateFacts.MonthFromTime_range (Date.LocalTime zone date2)).
    pose proof (DateFacts.DateFromTime_range (Date.LocalTime zone date2)).
    apply string_app_inj_len in H as [Hy Hrest].
    2:{ rewrite !string_length_app. reflexivity. }
    apply String_of_num_inj in Hy.
    apply (String.app_inj "-") in Hrest.
    apply fixed_digits_2_inj in Hrest as [Hm Hrest];
      [|unfold Date.getMonth; lia..].
    apply (String.app_inj "-") in Hrest.
    apply fixed_digits_2_inj in Hrest as [Hd _];
      [|unfold Date.getDate; lia..].
    split_and!; [done|lia|done].
Qed.

(** ** The cells of the month on display *)



(** ** Changing the month on display *)

Module MonthFacts.
Import Date.

Lemma MakeDay_carry y m d : MakeDay y m d = MakeDay (y + m / 12) (m mod 12) d.
Proof.
  unfold MakeDay. rewrite Z.mod_mod by lia.
  rewrite (Z.div_small (m mod 12) 12) by (apply Z.mod_pos_bound; lia).
  by rewrite Z.add_0_r.
Qed.

(** A date past the end of a month is a date of the next month. *)
Lemma MakeDay_overflow y m d :
  0 <= m <= 10 → MakeDay y m d = MakeDay y (m + 1) (d - DaysInMonth y m).
Proof.
  intros Hm. unfold MakeDay, DaysInMonth.
  rewrite (Z.div_small m 12), (Z.mod_small m 12) by lia.
  rewrite (Z.div_small (m + 1) 12), (Z.mod_small (m + 1) 12) by lia.
  rewrite Z.add_0_r. lia.
Qed.

Lemma DaysInMonth_december y : DaysInMonth y 11 = 31.
Proof. unfold DaysInMonth. destruct (DaysInYear y =? 366); reflexivity. Qed.

Lemma TimeWithinDay_range t : 0 <= TimeWithinDay t < msPerDay.
Proof. unfold TimeWithinDay. apply Z.mod_pos_bound. unfold msPerDay. lia. Qed.

Lemma getters_UTC tza x :
  getFullYear tza (UTC tza x) = YearFromTime x ∧
  getMonth tza (UTC tza x) = MonthFromTime x ∧
  getDate tza (UTC tza x) = DateFromTime x.
Proof.
  unfold getFullYear, getMonth, getDate, LocalTime, UTC. by rewrite Z.sub_add.
Qed.

(** The fields of a date after [setMonth]: the month asked for when it
    has the date, and the month after it otherwise. *)
Lemma setMonth_fields tza t month :
  let y := getFullYear tza t + month / 12 in
  let m := month mod 12 in
  let d := getDate tza t in
  let t' := setMonth tza t month in
  (d <= DaysInMonth y m →
   getFullYear tza t' = y ∧ getMonth tza t' = m ∧ getDate tza t' = d) ∧
  (DaysInMonth y m < d →
   getFullYear tza t' = y ∧ getMonth tza t' = m + 1 ∧
   getDate tza t' = d - DaysInMonth y m).
Proof.
  intros y m d t'.
  assert (Hm : 0 <= m <= 11) by (unfold m; pose proof (Z.mod_pos_bound month 12); lia).
  assert (Hd : 1 <= d <= 31) by apply DateFacts.DateFromTime_range.
  pose proof (TimeWithinDay_range (LocalTime tza t)) as Htw.
  pose proof (DateFacts.DaysInMonth_range y m Hm) as Hdim.
  unfold t', setMonth. cbn zeta.
  destruct (getters_UTC tza
    (MakeDate (MakeDay (YearFromTime (LocalTime tza t)) month
                       (DateFromTime (LocalTime tza t)))
              (TimeWithinDay (LocalTime tza t)))) as (-> & -> & ->).
  rewrite MakeDay_carry. fold (getFullYear tza t) (getDate tza t). fold y m d.
  split; intros Hcase.
  - apply (DateFacts.fields_of_MakeDay y m d); [done|lia|done].
  - assert (Hm' : 0 <= m <= 10).
    { destruct (Z.eq_dec m 11) as [E|]; [|lia].
      rewrite E, DaysInMonth_december in Hcase. lia. }
    rewrite MakeDay_overflow by done.
    pose proof (DateFacts.DaysInMonth_range y (m + 1)).
    apply (DateFacts.fields_of_MakeDay y (m + 1) (d - DaysInMonth y m)); [lia|lia|done].
Qed.

Lemma setMonth_eq tza t month :
  setMonth tza t month =
  MakeDay (getFullYear tza t) month (getDate tza t) * msPerDay
    + TimeWithinDay (LocalTime tza t) - tza.
Proof. reflexivity. Qed.

Lemma TimeWithinDay_setMonth tza t month :
  TimeWithinDay (LocalTime tza (setMonth tza t month)) = TimeWithinDay (LocalTime tza t).
Proof.
  rewrite setMonth_eq. unfold LocalTime at 1. rewrite Z.sub_add.
  unfold TimeWithinDay.
  rewrite Z.add_comm, Z.mod_add by (unfold msPerDay; lia).
  apply Z.mod_mod. unfold msPerDay. lia.
Qed.

Lemma setMonth_back_aux tza t t' delta :
  getFullYear tza t' = getFullYear tza t + (getMonth tza t + delta) / 12 →
  getMonth tza t' = (getMonth tza t + delta) mod 12 →
  getDate tza t' = getDate tza t →
  TimeWithinDay (LocalTime tza t') = TimeWithinDay (LocalTime tza t) →
  -1 <= delta <= 1 →
  setMonth tza t' (getMonth tza t' - delta) = t.
Proof.
  intros Hy Hm Hd Htw Hdelta.
  rewrite setMonth_eq, Hy, Hm, Hd, Htw.
  pose proof (DateFacts.MonthFromTime_range (LocalTime tza t)) as Hrange.
  pose proof (DateFacts.MakeDay_of_time (LocalTime tza t) 0) as H0.
  rewrite !Z.sub_0_r in H0.
  rewrite MakeDay_carry.
  replace (getFullYear tza t + (getMonth tza t + delta) / 12
           + ((getMonth tza t + delta) mod 12 - delta) / 12)
    with (YearFromTime (LocalTime tza t))
    by (unfold getFullYear, getMonth; Z.div_mod_to_equations; lia).
  replace (((getMonth tza t + delta) mod 12 - delta) mod 12)
    with (MonthFromTime (LocalTime tza t))
    by (unfold getMonth; Z.div_mod_to_equations; lia).
  unfold getDate. rewrite H0.
  unfold Day, TimeWithinDay, LocalTime.
  pose proof (Z.div_mod (t + tza) msPerDay) as Hdm.
  unfold msPerDay in *. lia.
Qed.

(** Setting the month back restores the date. *)
Lemma setMonth_back tza t delta :
  getDate tza t <= DaysInMonth (getFullYear tza t + (getMonth tza t + delta) / 12)
                               ((getMonth tza t + delta) mod 12) →
  -1 <= delta <= 1 →
  setMonth tza (setMonth tza t (getMonth tza t + delta))
               (getMonth tza (setMonth tza t (getMonth tza t + delta)) - delta) = t.
Proof.
  intros Hd Hdelta.
  destruct (setMonth_fields tza t (getMonth tza t + delta)) as [Hf _].
  destruct (Hf Hd) as (Hy' & Hm' & Hd').
  apply setMonth_back_aux; [exact Hy'|exact Hm'|exact Hd'| |exact Hdelta].
  apply TimeWithinDay_setMonth.
Qed.

End MonthFacts.

Lemma generateCalendar_header w :
  ∃ w',
    Calendar.generateCalendar w = (Ok tt, w') ∧
    monthYear w' =
      default "undefined"
        (Calendar.months !! Z.to_nat (Date.getMonth (tza w) (currentDate w)))
      +:+ " " +:+ String_of_num (Date.getFullYear (tza w) (currentDate w)) ∧
    currentDate w' = currentDate w ∧ tza w' = tza w ∧
    todos w' = todos w ∧ localStorage w' = localStorage w.
Proof.
  unfold Calendar.generateCalendar. unfold_M.
  rewrite getDatesWithTasks_eq. wsimpl.
  erewrite (for_each_appendChild (λ _ i, padding_cell _)) by reflexivity.
  erewrite (for_each_appendChild (day_cell _ _ _ _ _)) by reflexivity.
  erewrite (for_each_appendChild (λ _, padding_cell)) by reflexivity.
  wsimpl. eexists. split; [reflexivity|]. wsimpl. done.
Qed.

Lemma months_lookup m :
  0 <= m <= 11 → ∃ name, Calendar.months !! Z.to_nat m = Some name.
Proof.
  intros Hm. apply lookup_lt_is_Some_2. cbn. lia.
Qed.

(** [generateCalendar] once [currentDate] has been set to [t']. *)
Lemma generateCalendar_at (t' : Z) (w : World) :
  ∃ w',
    Calendar.generateCalendar (set_currentDate t' w) = (Ok tt, w') ∧
    currentDate w' = t' ∧ tza w' = tza w ∧
    monthYear w' =
      default "undefined" (Calendar.months !! Z.to_nat (Date.getMonth (tza w) t'))
      +:+ " " +:+ String_of_num (Date.getFullYear (tza w) t').
Proof.
  destruct (generateCalendar_header (set_currentDate t' w))
    as (w' & Hrun & Hmy & Hcd & Htz & _).
  cbn [tza currentDate set_currentDate] in Hmy, Hcd, Htz.
  exists w'. split_and!; [exact Hrun|exact Hcd|exact Htz|exact Hmy].
Qed.

Lemma nextMonth_eq w :
  Calendar.nextMonth w =
  Calendar.generateCalendar
    (set_currentDate
       (Date.setMonth (tza w) (currentDate w)
                      (Date.getMonth (tza w) (currentDate w) + 1)) w).
Proof. reflexivity. Qed.

Lemma prevMonth_eq w :
  Calendar.prevMonth w =
  Calendar.generateCalendar
    (set_currentDate
       (Date.setMonth (tza w) (currentDate w)
                      (Date.getMonth (tza w) (currentDate w) - 1)) w).
Proof. reflexivity. Qed.

(** X26.  When the next month has the date of [currentDate], [nextMonth]
    moves [currentDate] to the same date of the next month, into the
    next year after December, and the header names that month. *)
Theorem nextMonth_advances (w : World) :
  let zone := tza w in
  let year := Date.getFullYear zone (currentDate w) in
  let month := Date.getMonth zone (currentDate w) in
  let date := Date.getDate zone (currentDate w) in
  let year' := if month =? 11 then year + 1 else year in
  let month' := if month =? 11 then 0 else month + 1 in
  date <= Date.DaysInMonth year' month' →
  ∃ (w' : World) (name : string),
    Calendar.nextMonth w = (Ok tt, w') ∧
    Date.getFullYear zone (currentDate w') = year' ∧
    Date.getMonth zone (currentDate w') = month' ∧
    Date.getDate zone (currentDate w') = date ∧
    Calendar.months !! Z.to_nat month' = Some name ∧
    monthYear w' = name +:+ " " +:+ String_of_num year'.
Proof.
  intros zone year month date year' month' Hd.
  assert (Hm : 0 <= month <= 11) by apply DateFacts.MonthFromTime_range.
  assert (Hy : year + (month + 1) / 12 = year').
  { unfold year'. destruct (Z.eqb_spec month 11); Z.div_mod_to_equations; lia. }
  assert (Hm' : (month + 1) mod 12 = month').
  { unfold month'. destruct (Z.eqb_spec month 11); Z.div_mod_to_equations; lia. }
  destruct (MonthFacts.setMonth_fields zone (currentDate w) (month + 1)) as [Hf _].
  cbn zeta in Hf. fold year month date in Hf. rewrite Hy, Hm' in Hf.
  destruct (Hf Hd) as (Hfy & Hfm & Hfd).
  destruct (generateCalendar_at (Date.setMonth zone (currentDate w) (month + 1)) w)
    as (w' & Hrun & Hcd & _ & Hmy).
  fold zone in Hmy. rewrite Hfy, Hfm in Hmy.
  destruct (months_lookup month') as [name Hname].
  { unfold month'. destruct (Z.eqb_spec month 11); lia. }
  exists w', name. rewrite nextMonth_eq, Hcd, Hmy, Hname.
  split_and!; [exact Hrun|exact Hfy|exact Hfm|exact Hfd|reflexivity..].
Qed.

Lemma nextMonth_advances_witness :
  ∃ w' : World,
    Calendar.nextMonth february_2024 = (Ok tt, w') ∧
    Date.getMonth (tza february_2024) (currentDate w') = 2 ∧
    monthYear w' = "March 2024".
Proof.
  destruct (nextMonth_advances february_2024)
    as (w' & name & Hrun & _ & Hm & _ & Hname & Hmy).
  - vm_compute. discriminate.
  - exists w'. split_and!; [exact Hrun|exact Hm|].
    vm_compute in Hname. injection Hname as <-. exact Hmy.
Defined.

(** X27.  When the previous month has the date of [currentDate],
    [prevMonth] moves [currentDate] to the same date of the previous
    month, into the previous year before January, and the header names
    that month. *)
Theorem prevMonth_goes_back (w : World) :
  let zone := tza w in
  let year := Date.getFullYear zone (currentDate w) in
  let month := Date.getMonth zone (currentDate w) in
  let date := Date.getDate zone (currentDate w) in
  let year' := if month =? 0 then year - 1 else year in
  let month' := if month =? 0 then 11 else month - 1 in
  date <= Date.DaysInMonth year' month' →
  ∃ (w' : World) (name : string),
    Calendar.prevMonth w = (Ok tt, w') ∧
    Date.getFullYear zone (currentDate w') = year' ∧
    Date.getMonth zone (currentDate w') = month' ∧
    Date.getDate zone (currentDate w') = date ∧
    Calendar.months !! Z.to_nat month' = Some name ∧
    monthYear w' = name +:+ " " +:+ String_of_num year'.
Proof.
  intros zone year month date year' month' Hd.
  assert (Hm : 0 <= month <= 11) by apply DateFacts.MonthFromTime_range.
  assert (Hy : year + (month - 1) / 12 = year').
  { unfold year'. destruct (Z.eqb_spec month 0); Z.div_mod_to_equations; lia. }
  assert (Hm' : (month - 1) mod 12 = month').
  { unfold month'. destruct (Z.eqb_spec month 0); Z.div_mod_to_equations; lia. }
  destruct (MonthFacts.setMonth_fields zone (currentDate w) (month - 1)) as [Hf _].
  cbn zeta in Hf. fold year month date in Hf. rewrite Hy, Hm' in Hf.
  destruct (Hf Hd) as (Hfy & Hfm & Hfd).
  destruct (generateCalendar_at (Date.setMonth zone (currentDate w) (month - 1)) w)
    as (w' & Hrun & Hcd & _ & Hmy).
  fold zone in Hmy. rewrite Hfy, Hfm in Hmy.
  destruct (months_lookup month') as [name Hname].
  { unfold month'. destruct (Z.eqb_spec month 0); lia. }
  exists w', name. rewrite prevMonth_eq, Hcd, Hmy, Hname.
  split_and!; [exact Hrun|exact Hfy|exact Hfm|exact Hfd|reflexivity..].
Qed.

Lemma prevMonth_goes_back_witness :
  ∃ w' : World,
    Calendar.prevMonth february_2024 = (Ok tt, w') ∧
    Date.getMonth (tza february_2024) (currentDate w') = 0 ∧
    monthYear w' = "January 2024".
Proof.
  destruct (prevMonth_goes_back february_2024)
    as (w' & name & Hrun & _ & Hm & _ & Hname & Hmy).
  - vm_compute. discriminate.
  - exists w'. split_and!; [exact Hrun|exact Hm|].
    vm_compute in Hname. injection Hname as <-. exact Hmy.
Defined.

(** X28.  When the next month is too short for the date of
    [currentDate], [setMonth] carries the date over: [nextMonth] skips
    the next month and displays the one after it. *)
Theorem nextMonth_skips_short_month (w : World) :
  let zone := tza w in
  let year := Date.getFullYear zone (currentDate w) in
  let month := Date.getMonth zone (currentDate w) in
  let date := Date.getDate zone (currentDate w) in
  let year' := if month =? 11 then year + 1 else year in
  let month' := if month =? 11 then 0 else month + 1 in
  Date.DaysInMonth year' month' < date →
  ∃ (w' : World) (name : string),
    Calendar.nextMonth w = (Ok tt, w') ∧
    Date.getFullYear zone (currentDate w') = year ∧
    Date.getMonth zone (currentDate w') = month + 2 ∧
    Date.getDate zone (currentDate w') = date - Date.DaysInMonth year (month + 1) ∧
    Calendar.months !! Z.to_nat (month + 2) = Some name ∧
    monthYear w' = name +:+ " " +:+ String_of_num year.
Proof.
  intros zone year month date year' month' Hd.
  assert (Hm : 0 <= month <= 11) by apply DateFacts.MonthFromTime_range.
  assert (Hdate : 1 <= date <= 31) by apply DateFacts.DateFromTime_range.
  assert (Hm10 : month <= 9).
  { unfold year', month' in Hd. destruct (Z.eqb_spec month 11) as [E|E].
    - change (Date.DaysInMonth (year + 1) 0) with 31 in Hd. lia.
    - destruct (Z.eq_dec month 10) as [E'|]; [|lia].
      rewrite E', MonthFacts.DaysInMonth_december in Hd. lia. }
  assert ((month =? 11) = false) as Hne by (apply Z.eqb_neq; lia).
  unfold year', month' in Hd. rewrite Hne in Hd.
  assert (Hy : year + (month + 1) / 12 = year) by (Z.div_mod_to_equations; lia).
  assert (Hm' : (month + 1) mod 12 = month + 1) by (Z.div_mod_to_equations; lia).
  destruct (MonthFacts.setMonth_fields zone (currentDate w) (month + 1)) as [_ Hf].
  cbn zeta in Hf. fold year month date in Hf. rewrite Hy, Hm' in Hf.
  destruct (Hf Hd) as (Hfy & Hfm & Hfd).
  destruct (generateCalendar_at (Date.setMonth zone (currentDate w) (month + 1)) w)
    as (w' & Hrun & Hcd & _ & Hmy).
  fold zone in Hmy. rewrite Hfy, Hfm in Hmy.
  destruct (months_lookup (month + 1 + 1)) as [name Hname]; [lia|].
  exists w', name. rewrite nextMonth_eq, Hcd, Hmy.
  replace (month + 2) with (month + 1 + 1) by lia. rewrite Hname.
  split_and!; [exact Hrun|exact Hfy|exact Hfm|exact Hfd|reflexivity..].
Qed.

(** 31 January 2023 at local midnight, two hours east of UTC. *)
Lemma nextMonth_skips_short_month_witness :
  let zone := 7200000 in
  let jan31 := Date.ymd zone 2023 0 31 in
  let w := mkWorld [] 1 None jan31 zone [] jan31 jan31 "" [] in
  ∃ w' : World,
    Calendar.nextMonth w = (Ok tt, w') ∧
    Date.getMonth zone (currentDate w') = 2 ∧
    Date.getDate zone (currentDate w') = 3 ∧
    monthYear w' = "March 2023".
Proof.
  intros zone jan31 w.
  destruct (nextMonth_skips_short_month w)
    as (w' & name & Hrun & _ & Hm & Hd & Hname & Hmy).
  - vm_compute. reflexivity.
  - exists w'. split_and!; [exact Hrun|exact Hm|exact Hd|].
    vm_compute in Hname. injection Hname as <-. exact Hmy.
Defined.

(** X29.  When the previous month is too short for the date of
    [currentDate], [setMonth] carries the date over: [prevMonth] stays
    in the month on display, on an earlier date. *)
Theorem prevMonth_stays_on_long_month (w : World) :
  let zone := tza w in
  let year := Date.getFullYear zone (currentDate w) in
  let month := Date.getMonth zone (currentDate w) in
  let date := Date.getDate zone (currentDate w) in
  let year' := if month =? 0 then year - 1 else year in
  let month' := if month =? 0 then 11 else month - 1 in
  Date.DaysInMonth year' month' < date →
  ∃ (w' : World) (name : string),
    Calendar.prevMonth w = (Ok tt, w') ∧
    Date.getFullYear zone (currentDate w') = year ∧
    Date.getMonth zone (currentDate w') = month ∧
    Date.getDate zone (currentDate w') = date - Date.DaysInMonth year (month - 1) ∧
    Calendar.months !! Z.to_nat month = Some name ∧
    monthYear w' = name +:+ " " +:+ String_of_num year.
Proof.
  intros zone year month date year' month' Hd.
  assert (Hm : 0 <= month <= 11) by apply DateFacts.MonthFromTime_range.
  assert (Hdate : 1 <= date <= 31) by apply DateFacts.DateFromTime_range.
  assert (Hm1 : 1 <= month).
  { unfold year', month' in Hd. destruct (Z.eqb_spec month 0) as [E|E]; [|lia].
    rewrite MonthFacts.DaysInMonth_december in Hd. lia. }
  assert ((month =? 0) = false) as Hne by (apply Z.eqb_neq; lia).
  unfold year', month' in Hd. rewrite Hne in Hd.
  assert (Hy : year + (month - 1) / 12 = year) by (Z.div_mod_to_equations; lia).
  assert (Hm' : (month - 1) mod 12 = month - 1) by (Z.div_mod_to_equations; lia).
  destruct (MonthFacts.setMonth_fields zone (currentDate w) (month - 1)) as [_ Hf].
  cbn zeta in Hf. fold year month date in Hf. rewrite Hy, Hm' in Hf.
  destruct (Hf Hd) as (Hfy & Hfm & Hfd).
  destruct (generateCalendar_at (Date.setMonth zone (currentDate w) (month - 1)) w)
    as (w' & Hrun & Hcd & _ & Hmy).
  fold zone in Hmy. rewrite Hfy, Hfm in Hmy.
  replace (month - 1 + 1) with month in * by lia.
  destruct (months_lookup month) as [name Hname]; [lia|].
  exists w', name. rewrite prevMonth_eq, Hcd, Hmy, Hname.
  split_and!; [exact Hrun|exact Hfy|exact Hfm|exact Hfd|reflexivity..].
Qed.

(** 31 March 2023 at local midnight, two hours east of UTC. *)
Lemma prevMonth_stays_on_long_month_witness :
  let zone := 7200000 in
  let mar31 := Date.ymd zone 2023 2 31 in
  let w := mkWorld [] 1 None mar31 zone [] mar31 mar31 "" [] in
  ∃ w' : World,
    Calendar.prevMonth w = (Ok tt, w') ∧
    Date.getMonth zone (currentDate w') = 2 ∧
    Date.getDate zone (currentDate w') = 3 ∧
    monthYear w' = "March 2023".
Proof.
  intros zone mar31 w.
  destruct (prevMonth_stays_on_long_month w)
    as (w' & name & Hrun & _ & Hm & Hd & Hname & Hmy).
  - vm_compute. reflexivity.
  - exists w'. split_and!; [exact Hrun|exact Hm|exact Hd|].
    vm_compute in Hname. injection Hname as <-. exact Hmy.
Defined.

(** X30.  When the next month has the date of [currentDate], [prevMonth]
    after [nextMonth] restores [currentDate], to the millisecond, and
    the header. *)
Theorem prevMonth_undoes_nextMonth (w : World) :
  let zone := tza w in
  let year := Date.getFullYear zone (currentDate w) in
  let month := Date.getMonth zone (currentDate w) in
  let date := Date.getDate zone (currentDate w) in
  let year' := if month =? 11 then year + 1 else year in
  let month' := if month =? 11 then 0 else month + 1 in
  date <= Date.DaysInMonth year' month' →
  ∃ (w1 w2 : World) (name : string),
    Calendar.nextMonth w = (Ok tt, w1) ∧
    Calendar.prevMonth w1 = (Ok tt, w2) ∧
    currentDate w2 = currentDate w ∧
    Calendar.months !! Z.to_nat month = Some name ∧
    monthYear w2 = name +:+ " " +:+ String_of_num year.
Proof.
  intros zone year month date year' month' Hd.
  assert (Hm : 0 <= month <= 11) by apply DateFacts.MonthFromTime_range.
  assert (Hy : year + (month + 1) / 12 = year').
  { unfold year'. destruct (Z.eqb_spec month 11); Z.div_mod_to_equations; lia. }
  assert (Hm' : (month + 1) mod 12 = month').
  { unfold month'. destruct (Z.eqb_spec month 11); Z.div_mod_to_equations; lia. }
  pose proof (MonthFacts.setMonth_back zone (currentDate w) 1) as Hback.
  fold year month date in Hback. rewrite Hy, Hm' in Hback.
  assert (Hdelta : -1 <= 1 <= 1) by lia.
  specialize (Hback Hd Hdelta).
  destruct (generateCalendar_at (Date.setMonth zone (currentDate w) (month + 1)) w)
    as (w1 & Hrun1 & Hcd1 & Htz1 & _).
  destruct (generateCalendar_at
              (Date.setMonth (tza w1) (currentDate w1)
                 (Date.getMonth (tza w1) (currentDate w1) - 1)) w1)
    as (w2 & Hrun2 & Hcd2 & _ & Hmy2).
  rewrite <- prevMonth_eq in Hrun2.
  rewrite Htz1, Hcd1 in Hcd2, Hmy2. fold zone in Hcd2, Hmy2.
  rewrite Hback in Hcd2, Hmy2. fold month year in Hmy2.
  destruct (months_lookup month Hm) as [name Hname].
  rewrite Hname in Hmy2.
  exists w1, w2, name. rewrite nextMonth_eq.
  split_and!; [exact Hrun1|exact Hrun2|exact Hcd2|exact Hname|exact Hmy2].
Qed.

Lemma prevMonth_undoes_nextMonth_witness :
  ∃ w1 w2 : World,
    Calendar.nextMonth february_2024 = (Ok tt, w1) ∧
    Calendar.prevMonth w1 = (Ok tt, w2) ∧
    currentDate w2 = currentDate february_2024 ∧
    monthYear w2 = "February 2024".
Proof.
  destruct (prevMonth_undoes_nextMonth february_2024)
    as (w1 & w2 & name & H1 & H2 & Hcd & Hname & Hmy).
  - vm_compute. discriminate.
  - exists w1, w2. split_and!; [exact H1|exact H2|exact Hcd|].
    vm_compute in Hname. injection Hname as <-. exact Hmy.
Defined.
